(** * LinkedIn Easy Apply: the answer resolver, its tables and the run loop

    A shallow embedding of the form-answer engine of the repository
    ([experience_map.py], [work_authorization.py], [gemini_cv.py],
    [cv_reader.py], the text-input filler of [applier.py] and the run loop of
    [main.py]) together with the properties of its specification.

    Python strings are sequences of Unicode code points; the external
    collaborators (completion providers, PDF reader, browser driver) are
    oracles that the theorems quantify over. *)

From Stdlib Require Import String Ascii.
From Stdlib Require Import List NArith ZArith Bool Lia.
From Stdlib Require DecimalPos.
Import ListNotations.

Set Implicit Arguments.

(** ** Unicode character data

    The character tables of CPython 3.11 (Unicode 14.0) that [str.lower],
    [str.isdigit], [int] and the case-insensitive matching of [re] consult,
    as ranges of code points. *)

Module UnicodeData.

Local Open Scope N_scope.

(** The simple lowercase mappings.  [(first, last, step, image)] maps the
    code points [first], [first + step], ..., [last] to [image],
    [image + step], ...  A code point outside every range is its own
    lowercase. *)
Definition lower_ranges : list (N * N * N * N) :=
  [
    (65, 90, 1, 97); (192, 214, 1, 224); (216, 222, 1, 248); (256, 302, 2, 257);
    (304, 304, 1, 105); (306, 310, 2, 307); (313, 327, 2, 314); (330, 374, 2, 331);
    (376, 376, 1, 255); (377, 381, 2, 378); (385, 385, 1, 595); (386, 388, 2, 387);
    (390, 390, 1, 596); (391, 391, 1, 392); (393, 394, 1, 598); (395, 395, 1, 396);
    (398, 398, 1, 477); (399, 399, 1, 601); (400, 400, 1, 603); (401, 401, 1, 402);
    (403, 403, 1, 608); (404, 404, 1, 611); (406, 406, 1, 617); (407, 407, 1, 616);
    (408, 408, 1, 409); (412, 412, 1, 623); (413, 413, 1, 626); (415, 415, 1, 629);
    (416, 420, 2, 417); (422, 422, 1, 640); (423, 423, 1, 424); (425, 425, 1, 643);
    (428, 428, 1, 429); (430, 430, 1, 648); (431, 431, 1, 432); (433, 434, 1, 650);
    (435, 437, 2, 436); (439, 439, 1, 658); (440, 440, 1, 441); (444, 444, 1, 445);
    (452, 452, 1, 454); (453, 453, 1, 454); (455, 455, 1, 457); (456, 456, 1, 457);
    (458, 458, 1, 460); (459, 475, 2, 460); (478, 494, 2, 479); (497, 497, 1, 499);
    (498, 500, 2, 499); (502, 502, 1, 405); (503, 503, 1, 447); (504, 542, 2, 505);
    (544, 544, 1, 414); (546, 562, 2, 547); (570, 570, 1, 11365); (571, 571, 1, 572);
    (573, 573, 1, 410); (574, 574, 1, 11366); (577, 577, 1, 578); (579, 579, 1, 384);
    (580, 580, 1, 649); (581, 581, 1, 652); (582, 590, 2, 583); (880, 882, 2, 881);
    (886, 886, 1, 887); (895, 895, 1, 1011); (902, 902, 1, 940); (904, 906, 1, 941);
    (908, 908, 1, 972); (910, 911, 1, 973); (913, 929, 1, 945); (931, 939, 1, 963);
    (975, 975, 1, 983); (984, 1006, 2, 985); (1012, 1012, 1, 952); (1015, 1015, 1, 1016);
    (1017, 1017, 1, 1010); (1018, 1018, 1, 1019); (1021, 1023, 1, 891); (1024, 1039, 1, 1104);
    (1040, 1071, 1, 1072); (1120, 1152, 2, 1121); (1162, 1214, 2, 1163); (1216, 1216, 1, 1231);
    (1217, 1229, 2, 1218); (1232, 1326, 2, 1233); (1329, 1366, 1, 1377);
    (4256, 4293, 1, 11520); (4295, 4295, 1, 11559); (4301, 4301, 1, 11565);
    (5024, 5103, 1, 43888); (5104, 5109, 1, 5112); (7312, 7354, 1, 4304);
    (7357, 7359, 1, 4349); (7680, 7828, 2, 7681); (7838, 7838, 1, 223); (7840, 7934, 2, 7841);
    (7944, 7951, 1, 7936); (7960, 7965, 1, 7952); (7976, 7983, 1, 7968); (7992, 7999, 1, 7984);
    (8008, 8013, 1, 8000); (8025, 8031, 2, 8017); (8040, 8047, 1, 8032); (8072, 8079, 1, 8064);
    (8088, 8095, 1, 8080); (8104, 8111, 1, 8096); (8120, 8121, 1, 8112); (8122, 8123, 1, 8048);
    (8124, 8124, 1, 8115); (8136, 8139, 1, 8050); (8140, 8140, 1, 8131); (8152, 8153, 1, 8144);
    (8154, 8155, 1, 8054); (8168, 8169, 1, 8160); (8170, 8171, 1, 8058); (8172, 8172, 1, 8165);
    (8184, 8185, 1, 8056); (8186, 8187, 1, 8060); (8188, 8188, 1, 8179); (8486, 8486, 1, 969);
    (8490, 8490, 1, 107); (8491, 8491, 1, 229); (8498, 8498, 1, 8526); (8544, 8559, 1, 8560);
    (8579, 8579, 1, 8580); (9398, 9423, 1, 9424); (11264, 11311, 1, 11312);
    (11360, 11360, 1, 11361); (11362, 11362, 1, 619); (11363, 11363, 1, 7549);
    (11364, 11364, 1, 637); (11367, 11371, 2, 11368); (11373, 11373, 1, 593);
    (11374, 11374, 1, 625); (11375, 11375, 1, 592); (11376, 11376, 1, 594);
    (11378, 11378, 1, 11379); (11381, 11381, 1, 11382); (11390, 11391, 1, 575);
    (11392, 11490, 2, 11393); (11499, 11501, 2, 11500); (11506, 11506, 1, 11507);
    (42560, 42604, 2, 42561); (42624, 42650, 2, 42625); (42786, 42798, 2, 42787);
    (42802, 42862, 2, 42803); (42873, 42875, 2, 42874); (42877, 42877, 1, 7545);
    (42878, 42886, 2, 42879); (42891, 42891, 1, 42892); (42893, 42893, 1, 613);
    (42896, 42898, 2, 42897); (42902, 42920, 2, 42903); (42922, 42922, 1, 614);
    (42923, 42923, 1, 604); (42924, 42924, 1, 609); (42925, 42925, 1, 620);
    (42926, 42926, 1, 618); (42928, 42928, 1, 670); (42929, 42929, 1, 647);
    (42930, 42930, 1, 669); (42931, 42931, 1, 43859); (42932, 42946, 2, 42933);
    (42948, 42948, 1, 42900); (42949, 42949, 1, 642); (42950, 42950, 1, 7566);
    (42951, 42953, 2, 42952); (42960, 42960, 1, 42961); (42966, 42968, 2, 42967);
    (42997, 42997, 1, 42998); (65313, 65338, 1, 65345); (66560, 66599, 1, 66600);
    (66736, 66771, 1, 66776); (66928, 66938, 1, 66967); (66940, 66954, 1, 66979);
    (66956, 66962, 1, 66995); (66964, 66965, 1, 67003); (68736, 68786, 1, 68800);
    (71840, 71871, 1, 71872); (93760, 93791, 1, 93792); (125184, 125217, 1, 125218)
  ].

Definition expand_range (r : N * N * N * N) : list (N * N) :=
  let '(first, last, step, image) := r in
  map (fun k => (first + step * N.of_nat k, image + step * N.of_nat k))
      (seq 0 (S (N.to_nat ((last - first) / step)))).

(** The same mappings, one pair for each code point. *)
Definition lower_pairs : list (N * N) :=
  Eval vm_compute in flat_map expand_range lower_ranges.

(** The code points with the property Cased. *)
Definition cased_ranges : list (N * N) :=
  [
    (65, 90); (97, 122); (170, 170); (181, 181); (186, 186); (192, 214); (216, 246);
    (248, 442); (444, 447); (452, 659); (661, 696); (704, 705); (736, 740); (837, 837);
    (880, 883); (886, 887); (890, 893); (895, 895); (902, 902); (904, 906); (908, 908);
    (910, 929); (931, 1013); (1015, 1153); (1162, 1327); (1329, 1366); (1376, 1416);
    (4256, 4293); (4295, 4295); (4301, 4301); (4304, 4346); (4349, 4351); (5024, 5109);
    (5112, 5117); (7296, 7304); (7312, 7354); (7357, 7359); (7424, 7615); (7680, 7957);
    (7960, 7965); (7968, 8005); (8008, 8013); (8016, 8023); (8025, 8025); (8027, 8027);
    (8029, 8029); (8031, 8061); (8064, 8116); (8118, 8124); (8126, 8126); (8130, 8132);
    (8134, 8140); (8144, 8147); (8150, 8155); (8160, 8172); (8178, 8180); (8182, 8188);
    (8305, 8305); (8319, 8319); (8336, 8348); (8450, 8450); (8455, 8455); (8458, 8467);
    (8469, 8469); (8473, 8477); (8484, 8484); (8486, 8486); (8488, 8488); (8490, 8493);
    (8495, 8500); (8505, 8505); (8508, 8511); (8517, 8521); (8526, 8526); (8544, 8575);
    (8579, 8580); (9398, 9449); (11264, 11492); (11499, 11502); (11506, 11507); (11520, 11557);
    (11559, 11559); (11565, 11565); (42560, 42605); (42624, 42653); (42786, 42887);
    (42891, 42894); (42896, 42954); (42960, 42961); (42963, 42963); (42965, 42969);
    (42997, 42998); (43000, 43002); (43824, 43866); (43868, 43880); (43888, 43967);
    (64256, 64262); (64275, 64279); (65313, 65338); (65345, 65370); (66560, 66639);
    (66736, 66771); (66776, 66811); (66928, 66938); (66940, 66954); (66956, 66962);
    (66964, 66965); (66967, 66977); (66979, 66993); (66995, 67001); (67003, 67004);
    (67456, 67456); (67459, 67461); (67463, 67504); (67506, 67514); (68736, 68786);
    (68800, 68850); (71840, 71903); (93760, 93823); (119808, 119892); (119894, 119964);
    (119966, 119967); (119970, 119970); (119973, 119974); (119977, 119980); (119982, 119993);
    (119995, 119995); (119997, 120003); (120005, 120069); (120071, 120074); (120077, 120084);
    (120086, 120092); (120094, 120121); (120123, 120126); (120128, 120132); (120134, 120134);
    (120138, 120144); (120146, 120485); (120488, 120512); (120514, 120538); (120540, 120570);
    (120572, 120596); (120598, 120628); (120630, 120654); (120656, 120686); (120688, 120712);
    (120714, 120744); (120746, 120770); (120772, 120779); (122624, 122633); (122635, 122654);
    (125184, 125251); (127280, 127305); (127312, 127337); (127344, 127369)
  ].

(** The code points with the property Case_Ignorable. *)
Definition case_ignorable_ranges : list (N * N) :=
  [
    (39, 39); (46, 46); (58, 58); (94, 94); (96, 96); (168, 168); (173, 173); (175, 175);
    (180, 180); (183, 184); (688, 879); (884, 885); (890, 890); (900, 901); (903, 903);
    (1155, 1161); (1369, 1369); (1375, 1375); (1425, 1469); (1471, 1471); (1473, 1474);
    (1476, 1477); (1479, 1479); (1524, 1524); (1536, 1541); (1552, 1562); (1564, 1564);
    (1600, 1600); (1611, 1631); (1648, 1648); (1750, 1757); (1759, 1768); (1770, 1773);
    (1807, 1807); (1809, 1809); (1840, 1866); (1958, 1968); (2027, 2037); (2042, 2042);
    (2045, 2045); (2070, 2093); (2137, 2139); (2184, 2184); (2192, 2193); (2200, 2207);
    (2249, 2306); (2362, 2362); (2364, 2364); (2369, 2376); (2381, 2381); (2385, 2391);
    (2402, 2403); (2417, 2417); (2433, 2433); (2492, 2492); (2497, 2500); (2509, 2509);
    (2530, 2531); (2558, 2558); (2561, 2562); (2620, 2620); (2625, 2626); (2631, 2632);
    (2635, 2637); (2641, 2641); (2672, 2673); (2677, 2677); (2689, 2690); (2748, 2748);
    (2753, 2757); (2759, 2760); (2765, 2765); (2786, 2787); (2810, 2815); (2817, 2817);
    (2876, 2876); (2879, 2879); (2881, 2884); (2893, 2893); (2901, 2902); (2914, 2915);
    (2946, 2946); (3008, 3008); (3021, 3021); (3072, 3072); (3076, 3076); (3132, 3132);
    (3134, 3136); (3142, 3144); (3146, 3149); (3157, 3158); (3170, 3171); (3201, 3201);
    (3260, 3260); (3263, 3263); (3270, 3270); (3276, 3277); (3298, 3299); (3328, 3329);
    (3387, 3388); (3393, 3396); (3405, 3405); (3426, 3427); (3457, 3457); (3530, 3530);
    (3538, 3540); (3542, 3542); (3633, 3633); (3636, 3642); (3654, 3662); (3761, 3761);
    (3764, 3772); (3782, 3782); (3784, 3789); (3864, 3865); (3893, 3893); (3895, 3895);
    (3897, 3897); (3953, 3966); (3968, 3972); (3974, 3975); (3981, 3991); (3993, 4028);
    (4038, 4038); (4141, 4144); (4146, 4151); (4153, 4154); (4157, 4158); (4184, 4185);
    (4190, 4192); (4209, 4212); (4226, 4226); (4229, 4230); (4237, 4237); (4253, 4253);
    (4348, 4348); (4957, 4959); (5906, 5908); (5938, 5939); (5970, 5971); (6002, 6003);
    (6068, 6069); (6071, 6077); (6086, 6086); (6089, 6099); (6103, 6103); (6109, 6109);
    (6155, 6159); (6211, 6211); (6277, 6278); (6313, 6313); (6432, 6434); (6439, 6440);
    (6450, 6450); (6457, 6459); (6679, 6680); (6683, 6683); (6742, 6742); (6744, 6750);
    (6752, 6752); (6754, 6754); (6757, 6764); (6771, 6780); (6783, 6783); (6823, 6823);
    (6832, 6862); (6912, 6915); (6964, 6964); (6966, 6970); (6972, 6972); (6978, 6978);
    (7019, 7027); (7040, 7041); (7074, 7077); (7080, 7081); (7083, 7085); (7142, 7142);
    (7144, 7145); (7149, 7149); (7151, 7153); (7212, 7219); (7222, 7223); (7288, 7293);
    (7376, 7378); (7380, 7392); (7394, 7400); (7405, 7405); (7412, 7412); (7416, 7417);
    (7468, 7530); (7544, 7544); (7579, 7679); (8125, 8125); (8127, 8129); (8141, 8143);
    (8157, 8159); (8173, 8175); (8189, 8190); (8203, 8207); (8216, 8217); (8228, 8228);
    (8231, 8231); (8234, 8238); (8288, 8292); (8294, 8303); (8305, 8305); (8319, 8319);
    (8336, 8348); (8400, 8432); (11388, 11389); (11503, 11505); (11631, 11631); (11647, 11647);
    (11744, 11775); (11823, 11823); (12293, 12293); (12330, 12333); (12337, 12341);
    (12347, 12347); (12441, 12446); (12540, 12542); (40981, 40981); (42232, 42237);
    (42508, 42508); (42607, 42610); (42612, 42621); (42623, 42623); (42652, 42655);
    (42736, 42737); (42752, 42785); (42864, 42864); (42888, 42890); (42994, 42996);
    (43000, 43001); (43010, 43010); (43014, 43014); (43019, 43019); (43045, 43046);
    (43052, 43052); (43204, 43205); (43232, 43249); (43263, 43263); (43302, 43309);
    (43335, 43345); (43392, 43394); (43443, 43443); (43446, 43449); (43452, 43453);
    (43471, 43471); (43493, 43494); (43561, 43566); (43569, 43570); (43573, 43574);
    (43587, 43587); (43596, 43596); (43632, 43632); (43644, 43644); (43696, 43696);
    (43698, 43700); (43703, 43704); (43710, 43711); (43713, 43713); (43741, 43741);
    (43756, 43757); (43763, 43764); (43766, 43766); (43867, 43871); (43881, 43883);
    (44005, 44005); (44008, 44008); (44013, 44013); (64286, 64286); (64434, 64450);
    (65024, 65039); (65043, 65043); (65056, 65071); (65106, 65106); (65109, 65109);
    (65279, 65279); (65287, 65287); (65294, 65294); (65306, 65306); (65342, 65342);
    (65344, 65344); (65392, 65392); (65438, 65439); (65507, 65507); (65529, 65531);
    (66045, 66045); (66272, 66272); (66422, 66426); (67456, 67461); (67463, 67504);
    (67506, 67514); (68097, 68099); (68101, 68102); (68108, 68111); (68152, 68154);
    (68159, 68159); (68325, 68326); (68900, 68903); (69291, 69292); (69446, 69456);
    (69506, 69509); (69633, 69633); (69688, 69702); (69744, 69744); (69747, 69748);
    (69759, 69761); (69811, 69814); (69817, 69818); (69821, 69821); (69826, 69826);
    (69837, 69837); (69888, 69890); (69927, 69931); (69933, 69940); (70003, 70003);
    (70016, 70017); (70070, 70078); (70089, 70092); (70095, 70095); (70191, 70193);
    (70196, 70196); (70198, 70199); (70206, 70206); (70367, 70367); (70371, 70378);
    (70400, 70401); (70459, 70460); (70464, 70464); (70502, 70508); (70512, 70516);
    (70712, 70719); (70722, 70724); (70726, 70726); (70750, 70750); (70835, 70840);
    (70842, 70842); (70847, 70848); (70850, 70851); (71090, 71093); (71100, 71101);
    (71103, 71104); (71132, 71133); (71219, 71226); (71229, 71229); (71231, 71232);
    (71339, 71339); (71341, 71341); (71344, 71349); (71351, 71351); (71453, 71455);
    (71458, 71461); (71463, 71467); (71727, 71735); (71737, 71738); (71995, 71996);
    (71998, 71998); (72003, 72003); (72148, 72151); (72154, 72155); (72160, 72160);
    (72193, 72202); (72243, 72248); (72251, 72254); (72263, 72263); (72273, 72278);
    (72281, 72283); (72330, 72342); (72344, 72345); (72752, 72758); (72760, 72765);
    (72767, 72767); (72850, 72871); (72874, 72880); (72882, 72883); (72885, 72886);
    (73009, 73014); (73018, 73018); (73020, 73021); (73023, 73029); (73031, 73031);
    (73104, 73105); (73109, 73109); (73111, 73111); (73459, 73460); (78896, 78904);
    (92912, 92916); (92976, 92982); (92992, 92995); (94031, 94031); (94095, 94111);
    (94176, 94177); (94179, 94180); (110576, 110579); (110581, 110587); (110589, 110590);
    (113821, 113822); (113824, 113827); (118528, 118573); (118576, 118598); (119143, 119145);
    (119155, 119170); (119173, 119179); (119210, 119213); (119362, 119364); (121344, 121398);
    (121403, 121452); (121461, 121461); (121476, 121476); (121499, 121503); (121505, 121519);
    (122880, 122886); (122888, 122904); (122907, 122913); (122915, 122916); (122918, 122922);
    (123184, 123197); (123566, 123566); (123628, 123631); (125136, 125142); (125252, 125259);
    (127995, 127999); (917505, 917505); (917536, 917631); (917760, 917999)
  ].

(** The code points that [re] takes for cased: those that differ from their
    simple lowercase or simple uppercase. *)
Definition sre_cased_ranges : list (N * N) :=
  [
    (65, 90); (97, 122); (181, 181); (192, 214); (216, 246); (248, 311); (313, 396);
    (398, 410); (412, 425); (428, 441); (444, 445); (447, 447); (452, 544); (546, 563);
    (570, 596); (598, 599); (601, 601); (603, 604); (608, 609); (611, 611); (613, 614);
    (616, 620); (623, 623); (625, 626); (629, 629); (637, 637); (640, 640); (642, 643);
    (647, 652); (658, 658); (669, 670); (837, 837); (880, 883); (886, 887); (891, 893);
    (895, 895); (902, 902); (904, 906); (908, 908); (910, 929); (931, 977); (981, 1013);
    (1015, 1019); (1021, 1153); (1162, 1327); (1329, 1366); (1377, 1415); (4256, 4293);
    (4295, 4295); (4301, 4301); (4304, 4346); (4349, 4351); (5024, 5109); (5112, 5117);
    (7296, 7304); (7312, 7354); (7357, 7359); (7545, 7545); (7549, 7549); (7566, 7566);
    (7680, 7835); (7838, 7838); (7840, 7957); (7960, 7965); (7968, 8005); (8008, 8013);
    (8016, 8023); (8025, 8025); (8027, 8027); (8029, 8029); (8031, 8061); (8064, 8116);
    (8118, 8124); (8126, 8126); (8130, 8132); (8134, 8140); (8144, 8147); (8150, 8155);
    (8160, 8172); (8178, 8180); (8182, 8188); (8486, 8486); (8490, 8491); (8498, 8498);
    (8526, 8526); (8544, 8575); (8579, 8580); (9398, 9449); (11264, 11376); (11378, 11379);
    (11381, 11382); (11390, 11491); (11499, 11502); (11506, 11507); (11520, 11557);
    (11559, 11559); (11565, 11565); (42560, 42605); (42624, 42651); (42786, 42799);
    (42802, 42863); (42873, 42887); (42891, 42893); (42896, 42900); (42902, 42926);
    (42928, 42954); (42960, 42961); (42966, 42969); (42997, 42998); (43859, 43859);
    (43888, 43967); (64256, 64262); (64275, 64279); (65313, 65338); (65345, 65370);
    (66560, 66639); (66736, 66771); (66776, 66811); (66928, 66938); (66940, 66954);
    (66956, 66962); (66964, 66965); (66967, 66977); (66979, 66993); (66995, 67001);
    (67003, 67004); (68736, 68786); (68800, 68850); (71840, 71903); (93760, 93823);
    (125184, 125251)
  ].

(** The other lowercase code points that [re] takes to match a lowercase
    pattern character when case is ignored. *)
Definition extra_cases : list (N * list N) :=
  [
    (105, [305]); (115, [383]); (181, [956]); (305, [105]); (383, [115]); (837, [953; 8126]);
    (912, [8147]); (944, [8163]); (946, [976]); (949, [1013]); (952, [977]);
    (953, [837; 8126]); (954, [1008]); (956, [181]); (960, [982]); (961, [1009]); (962, [963]);
    (963, [962]); (966, [981]); (976, [946]); (977, [952]); (981, [966]); (982, [960]);
    (1008, [954]); (1009, [961]); (1013, [949]); (1074, [7296]); (1076, [7297]);
    (1086, [7298]); (1089, [7299]); (1090, [7300; 7301]); (1098, [7302]); (1123, [7303]);
    (7296, [1074]); (7297, [1076]); (7298, [1086]); (7299, [1089]); (7300, [1090; 7301]);
    (7301, [1090; 7300]); (7302, [1098]); (7303, [1123]); (7304, [42571]); (7777, [7835]);
    (7835, [7777]); (8126, [837; 953]); (8147, [912]); (8163, [944]); (42571, [7304]);
    (64261, [64262]); (64262, [64261])
  ].

(** The code points that [str.isdigit] accepts. *)
Definition digit_ranges : list (N * N) :=
  [
    (48, 57); (178, 179); (185, 185); (1632, 1641); (1776, 1785); (1984, 1993); (2406, 2415);
    (2534, 2543); (2662, 2671); (2790, 2799); (2918, 2927); (3046, 3055); (3174, 3183);
    (3302, 3311); (3430, 3439); (3558, 3567); (3664, 3673); (3792, 3801); (3872, 3881);
    (4160, 4169); (4240, 4249); (4969, 4977); (6112, 6121); (6160, 6169); (6470, 6479);
    (6608, 6618); (6784, 6793); (6800, 6809); (6992, 7001); (7088, 7097); (7232, 7241);
    (7248, 7257); (8304, 8304); (8308, 8313); (8320, 8329); (9312, 9320); (9332, 9340);
    (9352, 9360); (9450, 9450); (9461, 9469); (9471, 9471); (10102, 10110); (10112, 10120);
    (10122, 10130); (42528, 42537); (43216, 43225); (43264, 43273); (43472, 43481);
    (43504, 43513); (43600, 43609); (44016, 44025); (65296, 65305); (66720, 66729);
    (68160, 68163); (68912, 68921); (69216, 69224); (69714, 69722); (69734, 69743);
    (69872, 69881); (69942, 69951); (70096, 70105); (70384, 70393); (70736, 70745);
    (70864, 70873); (71248, 71257); (71360, 71369); (71472, 71481); (71904, 71913);
    (72016, 72025); (72784, 72793); (73040, 73049); (73120, 73129); (92768, 92777);
    (92864, 92873); (93008, 93017); (120782, 120831); (123200, 123209); (123632, 123641);
    (125264, 125273); (127232, 127242); (130032, 130041)
  ].

(** The decimal digits: each entry is the digit zero of a script, followed by
    its digits one to nine. *)
Definition decimal_blocks : list N :=
  [
    48; 1632; 1776; 1984; 2406; 2534; 2662; 2790; 2918; 3046; 3174; 3302; 3430; 3558; 3664;
    3792; 3872; 4160; 4240; 6112; 6160; 6470; 6608; 6784; 6800; 6992; 7088; 7232; 7248; 42528;
    43216; 43264; 43472; 43504; 43600; 44016; 65296; 66720; 68912; 69734; 69872; 69942; 70096;
    70384; 70736; 70864; 71248; 71360; 71472; 71904; 72016; 72784; 73040; 73120; 92768; 92864;
    93008; 120782; 120792; 120802; 120812; 120822; 123200; 123632; 125264; 130032
  ].

End UnicodeData.

(** ** Python strings *)

Module PyStr.

(** A [str] is a list of code points. *)
Definition pystr := list N.

(** Literals are written as Rocq strings and decoded from UTF-8 (one to
    three bytes per code point, enough for the Latin letters of the source). *)
Fixpoint utf8_decode (bs : list N) : pystr :=
  match bs with
  | [] => []
  | b :: r =>
      if (b <? 128)%N then b :: utf8_decode r
      else if (b <? 224)%N then
        match r with
        | b1 :: r1 => ((b - 192) * 64 + (b1 - 128))%N :: utf8_decode r1
        | [] => [b]
        end
      else
        match r with
        | b1 :: b2 :: r2 =>
            ((b - 224) * 4096 + (b1 - 128) * 64 + (b2 - 128))%N :: utf8_decode r2
        | _ => [b]
        end
  end.

Definition py (s : string) : pystr :=
  utf8_decode (map N_of_ascii (list_ascii_of_string s)).

(** [str.isspace] on one code point; also the class [\s] of [re] and the
    characters removed by [str.strip()]. *)
Definition isspace (c : N) : bool :=
  ((9 <=? c) && (c <=? 13) || (28 <=? c) && (c <=? 32) || (c =? 133) || (c =? 160)
   || (c =? 5760) || (8192 <=? c) && (c <=? 8202) || (c =? 8232) || (c =? 8233)
   || (c =? 8239) || (c =? 8287) || (c =? 12288))%N.

Fixpoint dropwhile (f : N -> bool) (s : pystr) : pystr :=
  match s with
  | [] => []
  | c :: s' => if f c then dropwhile f s' else s
  end.

Definition in_ranges (rs : list (N * N)) (c : N) : bool :=
  existsb (fun r => (fst r <=? c) && (c <=? snd r))%N rs.

(** The simple lowercase of one code point. *)
Definition lower_cp (c : N) : N :=
  match find (fun kv => (fst kv =? c)%N) UnicodeData.lower_pairs with
  | Some kv => snd kv
  | None => c
  end.

Definition cased (c : N) : bool := in_ranges UnicodeData.cased_ranges c.
Definition case_ignorable (c : N) : bool := in_ranges UnicodeData.case_ignorable_ranges c.

(** The second half of the final-sigma condition: after the case-ignorable
    characters that follow, the text ends or goes on with a character that
    is not cased. *)
Definition final_sigma_after (rest : pystr) : bool :=
  match dropwhile case_ignorable rest with
  | [] => true
  | c :: _ => negb (cased c)
  end.

(** The lowercase of the code point [c] in its context.  [before] tells
    that the text before [c], its trailing case-ignorable characters set
    aside, ends with a cased character; [rest] is the text after [c].  The
    capital sigma U+03A3 becomes the final sigma U+03C2 at the end of a word
    and U+03C3 elsewhere; U+0130 becomes two code points; every other code
    point has its simple lowercase. *)
Definition lower_char (before : bool) (c : N) (rest : pystr) : pystr :=
  if (c =? 931)%N then [if before && final_sigma_after rest then 962%N else 963%N]
  else if (c =? 304)%N then [105%N; 775%N]
  else [lower_cp c].

Definition step_before (before : bool) (c : N) : bool :=
  if case_ignorable c then before else cased c.

Fixpoint lower_from (before : bool) (s : pystr) : pystr :=
  match s with
  | [] => []
  | c :: s' => lower_char before c s' ++ lower_from (step_before before c) s'
  end.

(** [s.lower()] *)
Definition lower (s : pystr) : pystr := lower_from false s.

Definition lstrip_by (f : N -> bool) (s : pystr) : pystr := dropwhile f s.
Definition rstrip_by (f : N -> bool) (s : pystr) : pystr := rev (dropwhile f (rev s)).
Definition strip_by (f : N -> bool) (s : pystr) : pystr := rstrip_by f (lstrip_by f s).

(** [s.strip()] *)
Definition strip (s : pystr) : pystr := strip_by isspace s.

Definition mem (c : N) (cs : pystr) : bool := existsb (N.eqb c) cs.

(** [s.strip(chars)] *)
Definition strip_chars (chars s : pystr) : pystr := strip_by (fun c => mem c chars) s.

Fixpoint eqb (a b : pystr) : bool :=
  match a, b with
  | [], [] => true
  | x :: a', y :: b' => (x =? y)%N && eqb a' b'
  | _, _ => false
  end.

(** [s.startswith(p)] *)
Fixpoint startswith (p s : pystr) : bool :=
  match p, s with
  | [], _ => true
  | x :: p', y :: s' => (x =? y)%N && startswith p' s'
  | _ :: _, [] => false
  end.

(** [sub in s] *)
Fixpoint contains (sub s : pystr) : bool :=
  startswith sub s ||
  match s with
  | [] => false
  | _ :: s' => contains sub s'
  end.

(** [s.index(sub)] when [sub in s] *)
Fixpoint index (sub s : pystr) : option nat :=
  if startswith sub s then Some 0
  else match s with
       | [] => None
       | _ :: s' => option_map S (index sub s')
       end.

(** [s.split(c)] for a one-character separator: never the empty list. *)
Fixpoint split_char (c : N) (s : pystr) : list pystr :=
  match s with
  | [] => [[]]
  | x :: s' =>
      if (x =? c)%N then [] :: split_char c s'
      else match split_char c s' with
           | [] => [[x]]
           | p :: ps => (x :: p) :: ps
           end
  end.

(** [s.split()]: the maximal runs of non-blank characters. *)
Fixpoint split_ws_aux (cur : pystr) (s : pystr) : list pystr :=
  match s with
  | [] => match cur with [] => [] | _ => [rev cur] end
  | x :: s' =>
      if isspace x
      then match cur with
           | [] => split_ws_aux [] s'
           | _ => rev cur :: split_ws_aux [] s'
           end
      else split_ws_aux (x :: cur) s'
  end.

Definition split_ws (s : pystr) : list pystr := split_ws_aux [] s.

(** [s.replace(c, empty)] for a one-character [c] *)
Definition remove_char (c : N) (s : pystr) : pystr := filter (fun x => negb (x =? c)%N) s.

(** [sep.join(parts)] *)
Fixpoint join (sep : pystr) (parts : list pystr) : pystr :=
  match parts with
  | [] => []
  | [p] => p
  | p :: ps => p ++ sep ++ join sep ps
  end.

(** [s * n] *)
Fixpoint repeat_str (s : pystr) (n : nat) : pystr :=
  match n with
  | O => []
  | S n' => s ++ repeat_str s n'
  end.

(** The truth value of a string: non-empty. *)
Definition truthy (s : pystr) : bool :=
  match s with [] => false | _ => true end.

Definition is_ascii_digit (c : N) : bool := ((48 <=? c) && (c <=? 57))%N.

Definition isdigit_cp (c : N) : bool := in_ranges UnicodeData.digit_ranges c.

(** [s.isdigit()]: non-empty, digits only. *)
Definition isdigit (s : pystr) : bool := truthy s && forallb isdigit_cp s.

(** The value of a decimal digit of any script. *)
Definition decimal_value (c : N) : option N :=
  match find (fun zero => (zero <=? c) && (c <=? zero + 9))%N UnicodeData.decimal_blocks with
  | Some zero => Some (c - zero)%N
  | None => None
  end.

Definition is_decimal (c : N) : bool :=
  match decimal_value c with Some _ => true | None => false end.

(** [str(n)] for an integer. *)
Fixpoint digits_of_uint (u : Decimal.uint) : pystr :=
  match u with
  | Decimal.Nil => []
  | Decimal.D0 u' => 48%N :: digits_of_uint u'
  | Decimal.D1 u' => 49%N :: digits_of_uint u'
  | Decimal.D2 u' => 50%N :: digits_of_uint u'
  | Decimal.D3 u' => 51%N :: digits_of_uint u'
  | Decimal.D4 u' => 52%N :: digits_of_uint u'
  | Decimal.D5 u' => 53%N :: digits_of_uint u'
  | Decimal.D6 u' => 54%N :: digits_of_uint u'
  | Decimal.D7 u' => 55%N :: digits_of_uint u'
  | Decimal.D8 u' => 56%N :: digits_of_uint u'
  | Decimal.D9 u' => 57%N :: digits_of_uint u'
  end.

Definition str_of_N (n : N) : pystr := digits_of_uint (N.to_uint n).

Definition str_of_Z (z : Z) : pystr :=
  match z with
  | Z0 => [48%N]
  | Zpos p => str_of_N (Npos p)
  | Zneg p => 45%N :: str_of_N (Npos p)
  end.

(** [int(s)] for a string; [None] stands for [ValueError].

    A string that is not all ASCII is first rewritten: a blank becomes a
    space, a decimal digit of any script its ASCII digit, and the text is
    cut with a question mark at the first other character from U+007F on. *)
Fixpoint decimal_and_space_to_ascii (s : pystr) : pystr :=
  match s with
  | [] => []
  | c :: s' =>
      if (c <? 127)%N then c :: decimal_and_space_to_ascii s'
      else if isspace c then 32%N :: decimal_and_space_to_ascii s'
      else match decimal_value c with
           | Some v => (48 + v)%N :: decimal_and_space_to_ascii s'
           | None => [63%N]
           end
  end.

(** The blanks of the C locale. *)
Definition is_c_space (c : N) : bool := ((9 <=? c) && (c <=? 13) || (c =? 32))%N.

(** The digits at the head of [s], where single underscores may separate
    digits: their value, their number and the rest of the text, or [None]
    at a doubled or trailing underscore. *)
Fixpoint scan_digits (acc : N) (digits : nat) (prev_underscore : bool) (s : pystr)
  : option (N * nat * pystr) :=
  match s with
  | [] => if prev_underscore then None else Some (acc, digits, [])
  | c :: s' =>
      if is_ascii_digit c then scan_digits (acc * 10 + (c - 48))%N (S digits) false s'
      else if (c =? 95)%N then
        if prev_underscore then None else scan_digits acc digits true s'
      else if prev_underscore then None else Some (acc, digits, s)
  end.

(** The default of [sys.int_max_str_digits]. *)
Definition MAX_STR_DIGITS : nat := 4300.

(** Blanks, one sign, the digits, blanks, and nothing else. *)
Definition py_int (s : pystr) : option Z :=
  let s := if forallb (fun c => c <? 128)%N s then s else decimal_and_space_to_ascii s in
  let s := dropwhile is_c_space s in
  let negative := match s with c :: _ => (c =? 45)%N | [] => false end in
  let s := match s with
           | c :: r => if (c =? 43)%N || (c =? 45)%N then r else s
           | [] => s
           end in
  if startswith [95%N] s then None
  else
    match scan_digits 0 0 false s with
    | Some (n, digits, rest) =>
        if (digits =? 0)%nat || (MAX_STR_DIGITS <? digits)%nat then None
        else if truthy (dropwhile is_c_space rest) then None
        else Some (if negative then Z.opp (Z.of_N n) else Z.of_N n)
    | None => None
    end.

End PyStr.

Import PyStr.

(** ** Regular expressions of [re]

    A backtracking matcher with the priorities of Python's engine: a
    sequence tries its left part first, an alternation its left branch
    first, and the repetitions are greedy.  Only the constructs the
    program's patterns use are present. *)

Module Re.

Inductive re : Type :=
| Eps : re
| Chr : N -> re                 (* a literal character *)
| Cls : (N -> bool) -> re       (* a character class *)
| Seq : re -> re -> re
| Alt : re -> re -> re          (* a|b *)
| Star : re -> re               (* a*  *)
| Eos : re.                     (* $   *)

Definition Plus (a : re) : re := Seq a (Star a).        (* a+ *)
Definition Opt (a : re) : re := Alt a Eps.              (* a? *)
Definition Dot : re := Cls (fun c => negb (c =? 10)%N). (* .  *)
Definition Ws : re := Cls isspace.                      (* \s *)
Definition Digit : re := Cls is_decimal.                (* \d *)

Fixpoint Lit (s : pystr) : re :=
  match s with
  | [] => Eps
  | [c] => Chr c
  | c :: s' => Seq (Chr c) (Lit s')
  end.

Definition lit (s : string) : re := Lit (py s).

Fixpoint alts (rs : list re) : re :=
  match rs with
  | [] => Cls (fun _ => false)
  | [r] => r
  | r :: rs' => Alt r (alts rs')
  end.

Declare Scope re_scope.
Delimit Scope re_scope with re.
Bind Scope re_scope with re.
Infix ";;" := Seq (at level 61, right associativity) : re_scope.

Definition sre_cased (c : N) : bool := in_ranges UnicodeData.sre_cased_ranges c.

Definition fixes (lo : N) : list N :=
  match find (fun kv => (fst kv =? lo)%N) UnicodeData.extra_cases with
  | Some kv => snd kv
  | None => []
  end.

(** With [ci] (the flag [re.I]) a cased literal [c] of the pattern is
    compiled to its simple lowercase [lo], and matches a character of the
    text whose simple lowercase is [lo] or one of the other lowercase forms
    of [lo]; a literal that is not cased matches itself only. *)
Definition chr_eq (ci : bool) (c x : N) : bool :=
  if ci && sre_cased c then
    let lo := lower_cp c in
    let x := lower_cp x in
    (x =? lo)%N || existsb (N.eqb x) (fixes lo)
  else (c =? x)%N.

(** [mt ci r s k]: match [r] at the head of [s] and pass what is left to the
    continuation [k]; the first success in priority order is returned. *)
Fixpoint mt (A : Type) (ci : bool) (r : re) (s : pystr) (k : pystr -> option A)
  {struct r} : option A :=
  match r with
  | Eps => k s
  | Chr c =>
      match s with
      | x :: s' => if chr_eq ci c x then k s' else None
      | [] => None
      end
  | Cls f =>
      match s with
      | x :: s' => if f x then k s' else None
      | [] => None
      end
  | Seq a b => mt ci a s (fun s' => mt ci b s' k)
  | Alt a b =>
      match mt ci a s k with
      | Some v => Some v
      | None => mt ci b s k
      end
  | Star a =>
      (fix loop (fuel : nat) (s : pystr) {struct fuel} : option A :=
         match fuel with
         | O => k s
         | S fuel' =>
             match mt ci a s (fun s' => if (length s' <? length s)%nat
                                        then loop fuel' s' else None) with
             | Some v => Some v
             | None => k s
             end
         end) (length s) s
  | Eos =>
      match s with
      | [] => k s
      | [c] => if (c =? 10)%N then k s else None
      | _ => None
      end
  end.

(** [re.match(r, s)]: what follows the match at position 0. *)
Definition match_rest (ci : bool) (r : re) (s : pystr) : option pystr :=
  mt ci r s (fun rest => Some rest).

Definition re_match (ci : bool) (r : re) (s : pystr) : bool :=
  match match_rest ci r s with Some _ => true | None => false end.

(** [re.search(r, s)] as a truth value. *)
Fixpoint search (ci : bool) (r : re) (s : pystr) : bool :=
  re_match ci r s ||
  match s with
  | [] => false
  | _ :: s' => search ci r s'
  end.

(** [re.sub(r, repl, s)] for a pattern that matches no empty string: the
    leftmost matches, left to right, are replaced. *)
Fixpoint sub_fuel (fuel : nat) (ci : bool) (r : re) (repl s : pystr) : pystr :=
  match fuel with
  | O => s
  | S fuel' =>
      match match_rest ci r s with
      | Some rest =>
          if (length rest <? length s)%nat
          then repl ++ sub_fuel fuel' ci r repl rest
          else match s with
               | [] => []
               | c :: s' => c :: sub_fuel fuel' ci r repl s'
               end
      | None =>
          match s with
          | [] => []
          | c :: s' => c :: sub_fuel fuel' ci r repl s'
          end
      end
  end.

Definition sub (ci : bool) (r : re) (repl s : pystr) : pystr :=
  sub_fuel (S (length s)) ci r repl s.

(** [re.sub] of a pattern that starts with [^], replaced by the empty
    string: a match is possible at position 0 only. *)
Definition sub_bos (ci : bool) (r : re) (s : pystr) : pystr :=
  match match_rest ci r s with
  | Some rest => rest
  | None => s
  end.

(** [re.split(r, s)] for a pattern without groups that matches no empty
    string. *)
Fixpoint split_fuel (fuel : nat) (ci : bool) (r : re) (cur s : pystr) : list pystr :=
  match fuel with
  | O => [rev cur ++ s]
  | S fuel' =>
      match s with
      | [] => [rev cur]
      | c :: s' =>
          match match_rest ci r s with
          | Some rest =>
              if (length rest <? length s)%nat
              then rev cur :: split_fuel fuel' ci r [] rest
              else split_fuel fuel' ci r (c :: cur) s'
          | None => split_fuel fuel' ci r (c :: cur) s'
          end
      end
  end.

Definition split (ci : bool) (r : re) (s : pystr) : list pystr :=
  split_fuel (S (length s)) ci r [] s.

(** [re.findall(r, s)] for a pattern without groups that matches no empty
    string. *)
Fixpoint findall_fuel (fuel : nat) (ci : bool) (r : re) (s : pystr) : list pystr :=
  match fuel with
  | O => []
  | S fuel' =>
      match s with
      | [] => []
      | _ :: s' =>
          match match_rest ci r s with
          | Some rest =>
              if (length rest <? length s)%nat
              then firstn (length s - length rest) s :: findall_fuel fuel' ci r rest
              else findall_fuel fuel' ci r s'
          | None => findall_fuel fuel' ci r s'
          end
      end
  end.

Definition findall (ci : bool) (r : re) (s : pystr) : list pystr :=
  findall_fuel (S (length s)) ci r s.

End Re.

Import Re.

(** [any(k in text for k in keys)] *)
Definition any_in (keys : list pystr) (text : pystr) : bool :=
  existsb (fun k => contains k text) keys.

(** ** config.py: the settings read from the environment *)

Module Config.

Record t : Type := mk {
  DEFAULT_LOCATION_CITY : pystr;
  NOTICE_PERIOD_DEFAULT : pystr;
  EASY_APPLY_FIRST_NAME : pystr;
  EASY_APPLY_LAST_NAME : pystr;
  EASY_APPLY_CURRENT_COMPANY : pystr;
  EASY_APPLY_CURRENT_TITLE : pystr;
  EASY_APPLY_GENDER : pystr;
  EASY_APPLY_CERTIFICATIONS : pystr;
  EASY_APPLY_HYBRID_ANSWER : pystr;
  EASY_APPLY_YEARS_DEFAULT : pystr;
  WORK_AUTHORIZATION_ANSWER : pystr;
  WORK_NEED_SPONSORSHIP_ANSWER : pystr;
  WORK_AUTHORIZATION_COUNTRY : pystr;
  GEMINI_API_KEY : pystr;
  GROQ_API_KEY : pystr;
  USE_GEMINI_FOR_CV : bool
}.

(** [os.getenv(name, default)] *)
Definition getenv (env : string -> option pystr) (name : string) (default : string) : pystr :=
  match env name with
  | Some v => v
  | None => py default
  end.

(** The module-level assignments of [config.py] (the same in
    [_refresh_from_env]): which settings have a default and which are
    stripped. *)
Definition from_env (env : string -> option pystr) : t :=
  {| DEFAULT_LOCATION_CITY := getenv env "DEFAULT_LOCATION_CITY" "Casablanca";
     NOTICE_PERIOD_DEFAULT := getenv env "NOTICE_PERIOD_DEFAULT" "3 months";
     EASY_APPLY_FIRST_NAME := strip (getenv env "EASY_APPLY_FIRST_NAME" EmptyString);
     EASY_APPLY_LAST_NAME := strip (getenv env "EASY_APPLY_LAST_NAME" EmptyString);
     EASY_APPLY_CURRENT_COMPANY := strip (getenv env "EASY_APPLY_CURRENT_COMPANY" EmptyString);
     EASY_APPLY_CURRENT_TITLE := strip (getenv env "EASY_APPLY_CURRENT_TITLE" EmptyString);
     EASY_APPLY_GENDER := strip (getenv env "EASY_APPLY_GENDER" EmptyString);
     EASY_APPLY_CERTIFICATIONS := strip (getenv env "EASY_APPLY_CERTIFICATIONS" EmptyString);
     EASY_APPLY_HYBRID_ANSWER := strip (getenv env "EASY_APPLY_HYBRID_ANSWER" "Yes");
     EASY_APPLY_YEARS_DEFAULT := getenv env "EASY_APPLY_YEARS_DEFAULT" "3";
     WORK_AUTHORIZATION_ANSWER := getenv env "WORK_AUTHORIZATION_ANSWER" "No";
     WORK_NEED_SPONSORSHIP_ANSWER := getenv env "WORK_NEED_SPONSORSHIP_ANSWER" "Yes";
     WORK_AUTHORIZATION_COUNTRY := getenv env "WORK_AUTHORIZATION_COUNTRY" "Canada";
     GEMINI_API_KEY := getenv env "GEMINI_API_KEY" EmptyString;
     GROQ_API_KEY := getenv env "GROQ_API_KEY" EmptyString;
     USE_GEMINI_FOR_CV :=
       existsb (PyStr.eqb (lower (getenv env "USE_GEMINI_FOR_CV" "true")))
               [py "true"; py "1"; py "yes"] |}.

(** No variable set: every setting at its default. *)
Definition defaults : t := from_env (fun _ => None).

End Config.

(** ** experience_map.py *)

Module ExperienceMap.

Open Scope re_scope.

Definition YEARS_JAVA_CORE : Z := 4.
Definition YEARS_PRIMARY : Z := 3.
Definition YEARS_OTHER : Z := 2.
Definition TOTAL_YEARS_DEFAULT : Z := 3.

Definition TECH_4_YEARS : list pystr :=
  map py ["java"; "core java"; "java se"; "jvm"]%string.

Definition TECH_3_YEARS : list pystr :=
  map py ["spring"; "spring boot"; "springboot"; "postgres"; "postgresql"; "mysql";
          "websocket"; "web socket"; "webservices"; "web services"; "rest api";
          "restapis"; "restful"; "react"; "angular"; "mockito"; "unit test";
          "unittesting"; "junit"; "agile"; "scrum"; "agile/scrum"; "microservices";
          "docker"; "ci/cd"; "git"; "nestjs"; "typescript"; "ejb";
          "enterprise javabeans"; "data structures"; "keycloak"; "rbac"; "graphql";
          "graph ql"; "ruby"; "banking"; "angular ui"; "ui integration"]%string.

Definition YES_NO_EXPERIENCE_PATTERNS : list re :=
  [ lit "do you have " ;; Star Dot ;; lit " experience";
    lit "do you have experience";
    lit "do you have " ;; Alt (lit "at least") (lit "an understanding of");
    lit "have you " ;; alts [lit "worked"; lit "used"; lit "experience"];
    lit "are you " ;; Alt (lit "experienced") (lit "familiar");
    lit "experience with " ;; Star Dot ;; Chr 63;
    lit "experience " ;; alts [lit "programming"; lit "using"; lit "with"];
    lit "avez-vous " ;; Star Dot ;; lit " expérience";
    lit "oui ou non";
    lit "yes or no";
    lit "yes/no" ].

(** Lowercase, strip, then [re.sub] of [\s+] by one space. *)
Definition _normalize_label (label : pystr) : pystr :=
  Re.sub false (Plus Ws) (py " ") (strip (lower label)).

Definition get_years_for_question (question_label : pystr) : option Z :=
  if negb (truthy question_label) then None
  else
    let text := _normalize_label question_label in
    if negb (any_in (map py ["year"; "years"; "année"; "expérience"; "experience"]%string) text)
    then None
    else if contains (py "total") text
            && (contains (py "year") text || contains (py "experience") text)
    then Some TOTAL_YEARS_DEFAULT
    else if any_in TECH_4_YEARS text then Some YEARS_JAVA_CORE
    else if any_in TECH_3_YEARS text then Some YEARS_PRIMARY
    else if contains (py "year") text || contains (py "experience") text
    then Some YEARS_OTHER
    else None.

Definition is_yes_no_experience_question (question_label : pystr) : bool :=
  if negb (truthy question_label) then false
  else
    let text := _normalize_label question_label in
    if contains (py "how many") text && contains (py "years") text then false
    else existsb (fun pat => Re.search false pat text) YES_NO_EXPERIENCE_PATTERNS.

Definition get_yes_no_for_experience (question_label : pystr) : option pystr :=
  if negb (is_yes_no_experience_question question_label) then None
  else
    let years := match get_years_for_question question_label with
                 | Some y => y
                 | None => YEARS_OTHER
                 end in
    Some (if (years >? 0)%Z then py "Yes" else py "No").

End ExperienceMap.

(** ** work_authorization.py *)

Module WorkAuthorization.

Import Config.
Open Scope re_scope.

Definition WORK_AUTH_PATTERNS : list re :=
  [ lit "citizenship";
    lit "citizen of";
    lit "authorized to work";
    lit "legally " ;; Alt (lit "eligible") (lit "authorized") ;; lit " to work";
    lit "right to work";
    lit "resid" ;; Alt (lit "e") (lit "ency") ;; lit " in";
    lit "currently " ;; Alt (lit "live") (lit "reside");
    lit "work " ;; alts [lit "permit"; lit "authorization"; lit "visa"];
    lit "citoyenneté";
    lit "autorisé à travailler";
    lit "résidence";
    lit "work in " ;; alts [lit "canada"; lit "usa"; lit "united states"; lit "uk"; lit "france"] ].

Definition SPONSORSHIP_QUESTION_PATTERNS : list re :=
  [ lit "require" ;; Star Dot ;; lit "sponsorship";
    lit "need" ;; Star Dot ;; lit "sponsorship";
    lit "do you " ;; Alt (lit "need") (lit "require") ;; lit " sponsorship";
    lit "sponsorship " ;; Alt (lit "required") (lit "needed");
    lit "sponsorship" ;; Star Dot ;; Opt (lit "employment") ;; Star Dot ;; lit "visa";
    lit "visa" ;; Star Dot ;; lit "sponsorship";
    lit "will you " ;; Star Dot ;; lit " require sponsorship";
    lit "sponsorship for employment visa";
    lit "parrainage" ;; Star Dot ;; alts [lit "immigration"; lit "autorisation"; lit "travail"];
    lit "aur" ;; Alt (lit "ez") (lit "ez-vous") ;; Star Dot ;; lit "parrainage" ].

Definition COUNTRIES : list pystr :=
  map py ["canada"; "usa"; "united states"; "uk"; "france"; "germany"; "maroc"; "morocco"]%string.

Definition _normalize (label : pystr) : pystr :=
  Re.sub false (Plus Ws) (py " ") (strip (lower label)).

(** The test shared by the two country rules of
    [is_work_authorization_question]. *)
Definition about_work (text : pystr) : bool :=
  contains (py "work") text || contains (py "authorized") text
  || contains (py "citizen") text || contains (py "resid") text.

Definition is_work_authorization_question (cfg : Config.t) (question_label country_hint : pystr)
  : bool :=
  if negb (truthy question_label) then false
  else
    let text := _normalize question_label in
    let country :=
      lower (if truthy country_hint then country_hint else WORK_AUTHORIZATION_COUNTRY cfg) in
    if existsb (fun pat => Re.search false pat text) WORK_AUTH_PATTERNS then true
    else if existsb (fun c => contains c text && about_work text) COUNTRIES then true
    else if contains country text && about_work text then true
    else false.

(** Lines 79 to 89 of [get_work_authorization_answer]: the rules that
    yield the sponsorship answer, on the normalized text. *)
Definition sponsorship_rule (text : pystr) : bool :=
  existsb (fun pat => Re.search false pat text) SPONSORSHIP_QUESTION_PATTERNS
  || contains (py "sponsorship") text
     && (contains (py "require") text || contains (py "need") text
         || contains (py "future") text)
  || contains (py "visa") text && contains (py "sponsorship") text
  || contains (py "parrainage") text
     && (contains (py "immigration") text || contains (py "autorisation") text
         || contains (py "travail") text || contains (py "aurez") text).

Definition get_work_authorization_answer (cfg : Config.t) (question_label : pystr)
  : option pystr :=
  if negb (truthy question_label) then None
  else
    let text := _normalize question_label in
    if sponsorship_rule text then Some (WORK_NEED_SPONSORSHIP_ANSWER cfg)
    else if negb (is_work_authorization_question cfg question_label [])
    then None
    else Some (WORK_AUTHORIZATION_ANSWER cfg).

End WorkAuthorization.

(** The truth value of an optional string ([None] and the empty string are
    false). *)
Definition truthy_opt (t : option pystr) : bool :=
  match t with
  | Some s => truthy s
  | None => false
  end.

(** The truth value of a list: non-empty. *)
Definition truthy_list (A : Type) (l : list A) : bool :=
  match l with [] => false | _ => true end.

(** ** gemini_cv.py: the generative fallback *)

Module GeminiCv.

Import Config.

(** The prompt templates, by the values substituted into them. *)
Inductive prompt : Type :=
| SalaryPrompt (region role : pystr)
| OptionsPrompt (question : pystr) (options : list pystr)
| AnyPrompt (question : pystr) (max_length : nat)
| YearsPrompt (question cv_text : pystr)
| CvPrompt (question cv_text : pystr) (max_length : nat).

(** What [client.models.generate_content] does: a response whose [text] may
    be missing, or an exception with its message. *)
Inductive gemini_outcome : Type :=
| GeminiText (text : option pystr)
| GeminiError (msg : pystr).

(** The two completion services and whether their libraries were imported.
    [groq_chat] is [None] when the call raises or has no choice. *)
Record providers : Type := {
  genai_installed : bool;
  groq_installed : bool;
  gemini_generate : prompt -> gemini_outcome;
  groq_chat : prompt -> nat -> option pystr
}.

Section WithProviders.

Variable cfg : Config.t.
Variable P : providers.

Definition _call_groq (p : prompt) (max_tokens : nat) : option pystr :=
  if negb (truthy (GROQ_API_KEY cfg)) || negb (groq_installed P) then None
  else match groq_chat P p max_tokens with
       | Some content =>
           let text := strip content in
           if truthy text then Some text else None
       | None => None
       end.

(** The block every template shares: Gemini first, Groq when Gemini fails
    on quota, Groq again when there is still no text. *)
Definition complete (p : prompt) (max_tokens : nat) : option pystr :=
  let text :=
    if truthy (GEMINI_API_KEY cfg) && genai_installed P then
      match gemini_generate P p with
      | GeminiText t => t
      | GeminiError msg =>
          if contains (py "429") msg || contains (py "RESOURCE_EXHAUSTED") msg
          then _call_groq p max_tokens
          else None
      end
    else None in
  if negb (truthy_opt text) && truthy (GROQ_API_KEY cfg) && groq_installed P
  then _call_groq p max_tokens
  else text.

Definition get_salary_expectation_gemini (region role : pystr) : option pystr :=
  let text := complete (SalaryPrompt region role) 50 in
  match text with
  | Some t =>
      if truthy t then
        let num := filter (fun c => is_ascii_digit c || (c =? 46)%N) (strip t) in
        if truthy num then
          let head := hd [] (split_char 46 num) in
          Some (if contains (py ".") num && isdigit head then head
                else if isdigit num then num else py "95000")
        else Some (py "95000")
      else Some (py "95000")
  | None => Some (py "95000")
  end.

(** [.strip] of the two quote characters (34 and 39), as applied to a raw
    completion. *)
Definition strip_quotes (s : pystr) : pystr := strip_chars [34%N; 39%N] s.

(** The test of the final loop of [get_answer_from_options]. *)
Definition option_matches (chosen o : pystr) : bool :=
  PyStr.eqb (lower o) (lower chosen)
  || contains (lower chosen) (lower o)
  || contains (lower o) (lower chosen).

(** The option list after [[str(o).strip() for o in options if str(o).strip()]]. *)
Definition clean_options (options : list pystr) : list pystr :=
  filter truthy (map strip options).

Definition get_answer_from_options (question : pystr) (options : list pystr)
  : option pystr :=
  let options := clean_options options in
  match options with
  | [] => None
  | first :: _ =>
      let question := strip question in
      let text := complete (OptionsPrompt question options) 200 in
      if negb (truthy_opt text) then Some first
      else
        let chosen := strip_quotes (strip (match text with Some t => t | None => [] end)) in
        match find (option_matches chosen) options with
        | Some o => Some o
        | None => Some first
        end
  end.

(** The raw completion stripped of blanks, then of quotes, cut at
    [max_length]; [None] when nothing is left. *)
Definition short_answer (text : option pystr) (max_length : nat) : option pystr :=
  match text with
  | Some t =>
      if truthy t then
        let out := firstn max_length (strip_quotes (strip t)) in
        if truthy out then Some out else None
      else None
  | None => None
  end.

Definition get_answer_any_question_gemini (question : pystr) (max_length : nat)
  : option pystr :=
  let question := strip question in
  if negb (truthy question) then None
  else short_answer (complete (AnyPrompt question max_length) (max_length + 20)) max_length.

Definition get_years_of_experience_from_cv (question cv_text : pystr) : option pystr :=
  if negb (truthy question) || negb (truthy (strip cv_text))
     || (length (strip cv_text) <? 30)%nat
  then None
  else
    let question := strip question in
    let text := complete (YearsPrompt question (firstn 10000 cv_text)) 20 in
    match text with
    | Some t =>
        if truthy t then
          let num := filter is_ascii_digit (strip t) in
          if negb (truthy num) then None
          else
            let n := match py_int (if (2 <=? length num)%nat then firstn 2 num else num) with
                     | Some z => z
                     | None => 0%Z
                     end in
            Some (str_of_Z (Z.min 99 (Z.max 0 n)))
        else None
    | None => None
    end.

Definition get_answer_from_cv_with_gemini (question cv_text : pystr) (max_length : nat)
  : option pystr :=
  if negb (USE_GEMINI_FOR_CV cfg) || negb (truthy cv_text) || negb (truthy question)
  then None
  else
    let question := strip question in
    if negb (truthy question) || (length (strip cv_text) <? 50)%nat then None
    else short_answer (complete (CvPrompt question (firstn 12000 cv_text) max_length)
                                (max_length + 50)) max_length.

End WithProviders.

End GeminiCv.

(** ** cv_reader.py: the answer resolver *)

Module CvReader.

Import Config GeminiCv ExperienceMap WorkAuthorization.
Open Scope re_scope.

(** The pattern [\s*\?+\s*\*?\s*$]: a trailing question mark, with an
    optional asterisk. *)
Definition trailing_question : re :=
  Star Ws ;; Plus (Chr 63) ;; Star Ws ;; Opt (Chr 42) ;; Star Ws ;; Eos.

(** The separators of the skill list:
    [\s+et/ou\s+|\s+and/or\s+|\s+and\s+|\s+or\s+|\s+et\s+|\s+ou\s+|,|/]. *)
Definition conjunction : re :=
  alts [ Plus Ws ;; lit "et/ou" ;; Plus Ws;
         Plus Ws ;; lit "and/or" ;; Plus Ws;
         Plus Ws ;; lit "and" ;; Plus Ws;
         Plus Ws ;; lit "or" ;; Plus Ws;
         Plus Ws ;; lit "et" ;; Plus Ws;
         Plus Ws ;; lit "ou" ;; Plus Ws;
         lit ",";
         lit "/" ].

(** The leading article, after [^]: [(des?|du|de la|les?|the|using|utilisant)\s+]. *)
Definition leading_article : re :=
  alts [ lit "de" ;; Opt (lit "s"); lit "du"; lit "de la"; lit "le" ;; Opt (lit "s");
         lit "the"; lit "using"; lit "utilisant" ] ;; Plus Ws.

(** The class [[a-zA-Z0-9+#./]]. *)
Definition word_char (c : N) : bool :=
  ((97 <=? c) && (c <=? 122) || (65 <=? c) && (c <=? 90) || (48 <=? c) && (c <=? 57)
   || (c =? 43) || (c =? 35) || (c =? 46) || (c =? 47))%N.

Definition SEPARATORS : list pystr :=
  map py [" with "; " avec "; " using "; " utilisant "; " in "]%string.

Definition STOP_WORDS : list pystr :=
  map py ["the"; "and"; "you"; "have"; "your"; "avec"; "experience"; "expérience";
          "years"; "années"]%string.

(** The [for sep in ...: ... break / else: ...] loop: the text after the first
    separator that leaves between 3 and 149 characters, else the whole text;
    in both cases without the trailing question mark. *)
Fixpoint rest_after (seps : list pystr) (text : pystr) : pystr :=
  match seps with
  | [] => strip (Re.sub false trailing_question [] text)
  | sep :: seps' =>
      match index sep (lower text) with
      | Some i =>
          let idx := (i + length sep)%nat in
          let rest := strip (skipn idx text) in
          let rest := strip (Re.sub false trailing_question [] rest) in
          if (2 <? length rest)%nat && (length rest <? 150)%nat then rest
          else rest_after seps' text
      | None => rest_after seps' text
      end
  end.

(** Order-preserving removal of duplicates (the [seen] set); the empty
    phrase is dropped. *)
Fixpoint dedupe (seen : list pystr) (phrases : list pystr) : list pystr :=
  match phrases with
  | [] => []
  | ph :: phs =>
      if truthy ph && negb (existsb (PyStr.eqb ph) seen)
      then ph :: dedupe (ph :: seen) phs
      else dedupe seen phs
  end.

Definition _extract_skill_phrases_from_question (question_label : pystr) : list pystr :=
  if negb (truthy question_label) || negb (truthy (strip question_label)) then []
  else
    let text := strip question_label in
    let rest := rest_after SEPARATORS text in
    let rest :=
      if contains (py " : ") rest || contains (py ":") rest then
        let after_colon := strip (last (split_char 58 rest) []) in
        if (2 <? length after_colon)%nat && (length after_colon <? 120)%nat
        then after_colon else rest
      else rest in
    let parts := Re.split true conjunction rest in
    let phrases :=
      flat_map (fun p =>
                  let p := strip (Re.sub_bos true leading_article (strip p)) in
                  let p := strip_chars (py " .*") p in
                  if (1 <? length p)%nat && (length p <? 60)%nat then [lower p] else [])
               parts in
    let result := dedupe [] phrases in
    let result :=
      if negb (truthy_list result) && truthy rest then
        flat_map (fun word =>
                    if (2 <? length word)%nat
                       && negb (existsb (PyStr.eqb (lower word)) STOP_WORDS)
                    then [lower word] else [])
                 (Re.findall false (Plus (Cls word_char)) rest)
      else result in
    firstn 15 result.

Definition _skill_mentioned_in_cv (question_label cv_text config_skills_list : pystr) : bool :=
  let phrases := _extract_skill_phrases_from_question question_label in
  if negb (truthy_list phrases) then true
  else
    let in_config :=
      if truthy config_skills_list && truthy (strip config_skills_list) then
        let list_parts :=
          map (fun p => lower (strip p))
              (filter (fun p => truthy (strip p)) (split_char 44 config_skills_list)) in
        existsb (fun ph =>
                   existsb (fun part => contains part ph || contains ph part) list_parts)
                phrases
      else false in
    if in_config then true
    else if truthy cv_text && truthy (strip cv_text) then
      let cv_lower := lower cv_text in
      existsb (fun ph =>
                 contains ph cv_lower
                 || (3 <? length ph)%nat
                    && contains (remove_char 32 ph) (remove_char 32 cv_lower))
              phrases
    else false.

Definition _has_certification (cert_name cv_text config_list : pystr) : bool :=
  if negb (truthy cert_name) || negb (truthy (strip cert_name)) then false
  else
    let cert_clean := lower (strip cert_name) in
    let cert_key := hd cert_clean (split_ws cert_clean) in
    let cv_lower := lower cv_text in
    if contains cert_key cv_lower then true
    else if contains (py "certif") cv_lower && contains cert_key cv_lower then true
    else if contains (py "certified") cv_lower && contains cert_key cv_lower then true
    else if truthy config_list then
      existsb (fun part =>
                 let part := lower (strip part) in
                 truthy part && (contains part cert_clean || contains cert_key part))
              (split_char 44 config_list)
    else false.

(** [s.split(":", 1)[-1]]: what follows the first colon. *)
Fixpoint after_first_colon (s : pystr) : pystr :=
  match s with
  | [] => []
  | c :: s' => if (c =? 58)%N then s' else after_first_colon s'
  end.

(** The name of the certificate when the label asks for one (the first
    component of the source's pair is always [True]). *)
Definition _certification_question_and_name (question_label : pystr) : option pystr :=
  if negb (truthy question_label) then None
  else
    let label_lower := lower question_label in
    if negb (any_in (map py ["certificat"; "certification"; "permit"; "permis"; "licence"]%string)
                    label_lower)
    then None
    else
      let by_colon :=
        if contains (py ":") question_label then
          let after_colon := strip (after_first_colon question_label) in
          let after_colon := strip (Re.sub false trailing_question [] after_colon) in
          if truthy after_colon && (length after_colon <? 80)%nat
             && negb (existsb (fun p => startswith p (lower after_colon))
                              (map py ["avez"; "do you"; "have you"]%string))
          then Some after_colon else None
        else None in
      match by_colon with
      | Some name => Some name
      | None =>
          if contains (py "certification") label_lower
             || contains (py "certificat") label_lower
          then Some (strip question_label)
          else None
      end.

(** *** The CV text cache

    The file system and the PDF library are an oracle; the module global
    [_cv_text_cache] is the state, with a ghost log of the files handed to
    [PdfReader]. *)

Record world : Type := {
  (* [Path(path).exists()], taken to return: a path that the file system
     refuses (too long, or in a directory that may not be searched) makes it
     raise, which is left out *)
  path_exists : pystr -> bool;
  pypdf_installed : bool;
  (* [PdfReader(path).pages] with [extract_text()] of each page;
     [None] when reading raises *)
  pdf_pages : pystr -> option (list (option pystr))
}.

Record state : Type := {
  _cv_text_cache : option pystr;
  pdf_reads : list pystr
}.

Definition initial_state : state := {| _cv_text_cache := None; pdf_reads := [] |}.

Definition load_cv_text (w : world) (cv_path : pystr) (st : state) : pystr * state :=
  match _cv_text_cache st with
  | Some cached => (cached, st)
  | None =>
      if negb (truthy cv_path) || negb (path_exists w cv_path) then ([], st)
      else if negb (pypdf_installed w) then ([], st)
      else
        let st := {| _cv_text_cache := None; pdf_reads := cv_path :: pdf_reads st |} in
        match pdf_pages w cv_path with
        | Some pages =>
            let parts := map (fun p => match p with Some t => t | None => [] end) pages in
            let text := join [10%N] parts in
            (text, {| _cv_text_cache := Some text; pdf_reads := pdf_reads st |})
        | None => ([], st)
        end
  end.

(** [load_cv_text(cv_path)] when [cv_path] is not empty, else the empty
    string. *)
Definition load_if_path (w : world) (cv_path : pystr) (st : state) : pystr * state :=
  if truthy cv_path then load_cv_text w cv_path st else ([], st).

(** *** get_answer_for_question *)

Section Resolver.

Variable cfg : Config.t.
Variable P : providers.
Variable w : world.

(** [x or default] *)
Definition or_default (x : pystr) (default : string) : pystr :=
  if truthy x then x else py default.

Definition HYBRID_KEYWORDS : list pystr :=
  map py ["hybride"; "hybrid"; "remote"; "télétravail"; "telework"; "work from home";
          "présence obligatoire"; "on-site"; "on site"; "in-office"; "work arrangement";
          "mode de travail"; "work mode"]%string.

Definition YEARS_RATING_KEYWORDS : list pystr :=
  map py ["frontend"; "backend"; "microservice"; "api"; "database"; "devops";
          "fullstack"; "mobile"; "cloud"; "security"; "testing"]%string.

Definition RATING_KEYWORDS : list pystr :=
  map py ["frontend"; "backend"; "microservice"; "microservices"; "api"; "database";
          "devops"; "fullstack"; "full-stack"; "mobile"; "cloud"; "security"; "testing";
          "data"]%string.

(** [str(int(years_default))], ["3"] on [ValueError]. *)
Definition years_default_answer (years_default : pystr) : pystr :=
  match py_int years_default with
  | Some n => str_of_Z n
  | None => py "3"
  end.

(** Lines 329 to 344: the defaults chosen by keywords of the label. *)
Definition ultimate_fallback (question_label label_lower years_default : pystr) : pystr :=
  if any_in (map py ["year"; "experience"; "how many"]%string) label_lower
  then years_default_answer years_default
  else if any_in (map py ["yes"; "no"; "experience with"; "have you"; "do you have"]%string)
                 label_lower
  then py "Yes"
  else if contains (py "number") label_lower || contains (py "salary") label_lower
          || contains (py "amount") label_lower
  then py "1"
  else
    let q := strip question_label in
    if (length q <? 40)%nat
       && negb (any_in (map py ["describe"; "explain"; "why"; "what"; "comment"]%string)
                       label_lower)
    then py "5.0"
    else py "N/A".

(** Step 9, lines 317 to 344: the open-ended completions, then the
    defaults. *)
Definition open_ended (question_label label_lower years_default cv_path : pystr)
  (use_gemini : bool) (st : state) : option pystr * state :=
  let '(cv_text, st) := load_if_path w cv_path st in
  let from_cv :=
    if use_gemini && truthy cv_text && (50 <=? length (strip cv_text))%nat
    then get_answer_from_cv_with_gemini cfg P question_label cv_text 100
    else None in
  match from_cv with
  | Some a => (Some a, st)
  | None =>
      match (if use_gemini then get_answer_any_question_gemini cfg P question_label 100
             else None) with
      | Some a => (Some a, st)
      | None => (Some (ultimate_fallback question_label label_lower years_default), st)
      end
  end.

(** Step 8b, lines 305 to 315: short rating labels get a decimal. *)
Definition rating_answer (question_label : pystr) : option pystr :=
  let label_clean :=
    strip (lower (Re.sub false (Plus (Chr 42) ;; Star Ws ;; Eos) [] (strip question_label))) in
  if truthy label_clean && (length label_clean <? 50)%nat
     && any_in RATING_KEYWORDS label_clean
  then Some (if contains (py "frontend") label_clean || contains (py "backend") label_clean
             then py "8.0" else py "5.0")
  else None.

(** Steps 8 to 9, lines 294 to 344. *)
Definition years_then_rest (question_label label_lower years_default cv_path : pystr)
  (use_gemini : bool) (st : state) : option pystr * state :=
  match get_years_for_question question_label with
  | Some years => (Some (str_of_Z years), st)
  | None =>
      let '(ai, st) :=
        if use_gemini && truthy cv_path then
          let '(cv_text, st) := load_cv_text w cv_path st in
          if (50 <=? length (strip cv_text))%nat
          then (get_years_of_experience_from_cv cfg P question_label cv_text, st)
          else (None, st)
        else (None, st) in
      match ai with
      | Some a => (Some a, st)
      | None =>
          match rating_answer question_label with
          | Some a => (Some a, st)
          | None => open_ended question_label label_lower years_default cv_path use_gemini st
          end
      end
  end.

(** Step 7 onwards, lines 285 to 344. *)
Definition yes_no_then_rest (question_label label_lower years_default cv_path : pystr)
  (use_gemini : bool) (st : state) : option pystr * state :=
  if is_yes_no_experience_question question_label then
    let '(cv_text, st) := load_if_path w cv_path st in
    if negb (_skill_mentioned_in_cv question_label cv_text
               (or_default (EASY_APPLY_CERTIFICATIONS cfg) EmptyString))
    then (Some (py "No"), st)
    else match get_yes_no_for_experience question_label with
         | Some yes_no => (Some yes_no, st)
         | None => years_then_rest question_label label_lower years_default cv_path use_gemini st
         end
  else years_then_rest question_label label_lower years_default cv_path use_gemini st.

(** Step 6 onwards, lines 261 to 344. *)
Definition experience_then_rest (question_label label_lower years_default cv_path : pystr)
  (use_gemini : bool) (st : state) : option pystr * state :=
  if contains (py "years") label_lower && contains (py "experience") label_lower
     && negb (any_in YEARS_RATING_KEYWORDS label_lower)
  then
    let '(cv_text, st) := load_if_path w cv_path st in
    if contains (py "how many") label_lower
       && negb (_skill_mentioned_in_cv question_label cv_text
                  (or_default (EASY_APPLY_CERTIFICATIONS cfg) EmptyString))
    then (Some (py "0"), st)
    else
      match get_years_for_question question_label with
      | Some years => (Some (str_of_Z years), st)
      | None =>
          match (if use_gemini && truthy cv_text && (50 <=? length (strip cv_text))%nat
                 then get_years_of_experience_from_cv cfg P question_label cv_text
                 else None) with
          | Some ai_years => (Some ai_years, st)
          | None => (Some (years_default_answer years_default), st)
          end
      end
  else yes_no_then_rest question_label label_lower years_default cv_path use_gemini st.

(** Steps 2 to 5d, lines 196 to 259: the fixed-field rules.  The outer
    [None] means that no rule applies and the chain goes on. *)
Definition fixed_field_answer (question_label label_lower cv_path : pystr) (st : state)
  : option (pystr * state) :=
  if contains (py "legal status") label_lower && contains (py "canada") label_lower
  then Some (py "No status", st)
  else if contains (py "location") label_lower && contains (py "city") label_lower
          && truthy (DEFAULT_LOCATION_CITY cfg)
  then Some (strip (DEFAULT_LOCATION_CITY cfg), st)
  else if any_in (map py ["first name"; "prénom"; "prenom"; "given name"]%string) label_lower
          && negb (contains (py "last") label_lower)
          && negb (contains (py "nom de famille") label_lower)
  then Some (if truthy (EASY_APPLY_FIRST_NAME cfg) then strip (EASY_APPLY_FIRST_NAME cfg)
             else py "N/A", st)
  else if any_in (map py ["last name"; "nom de famille"; "family name"; "surname"]%string)
                 label_lower
          || PyStr.eqb (strip label_lower) (py "nom")
  then Some (if truthy (EASY_APPLY_LAST_NAME cfg) then strip (EASY_APPLY_LAST_NAME cfg)
             else py "N/A", st)
  else if any_in HYBRID_KEYWORDS label_lower
  then
    let raw := strip (or_default (EASY_APPLY_HYBRID_ANSWER cfg) "Yes") in
    Some (if existsb (PyStr.eqb (lower raw)) (map py ["no"; "non"; "0"; "false"]%string)
          then py "No" else py "Yes", st)
  else
    let salary :=
      if contains (py "salary") label_lower
         && (contains (py "expectation") label_lower || contains (py "expected") label_lower
             || contains (py "compensation") label_lower)
      then get_salary_expectation_gemini cfg P
             (or_default (WORK_AUTHORIZATION_COUNTRY cfg) "Canada")
             (py "mid-level software engineer")
      else None in
    if truthy_opt salary then option_map (fun s => (s, st)) salary
    else if contains (py "notice") label_lower
            && (contains (py "start") label_lower || contains (py "before") label_lower
                || contains (py "joining") label_lower)
    then Some (strip (or_default (NOTICE_PERIOD_DEFAULT cfg) "3 months"), st)
    else if contains (py "current company") label_lower
            || contains (py "company") label_lower && contains (py "current") label_lower
    then Some (strip (or_default (EASY_APPLY_CURRENT_COMPANY cfg) "N/A"), st)
    else if contains (py "current title") label_lower
            || contains (py "title") label_lower && contains (py "current") label_lower
    then Some (strip (or_default (EASY_APPLY_CURRENT_TITLE cfg) "N/A"), st)
    else if contains (py "pronouns") label_lower
    then Some (py "Prefer not to say", st)
    else if any_in (map py ["gender"; "sexe"; "sex "; "male"; "female";
                            "how do you describe your gender"]%string) label_lower
    then Some (if truthy (EASY_APPLY_GENDER cfg) then strip (EASY_APPLY_GENDER cfg)
               else py "Male", st)
    else
      match _certification_question_and_name question_label with
      | Some cert_name =>
          let '(cv_text, st) := load_if_path w cv_path st in
          Some (if _has_certification cert_name cv_text
                     (or_default (EASY_APPLY_CERTIFICATIONS cfg) EmptyString)
                then py "Yes" else py "No", st)
      | None => None
      end.

Definition get_answer_for_question (question_label years_default cv_path : pystr)
  (use_gemini : bool) (st : state) : option pystr * state :=
  if negb (truthy question_label) || negb (truthy (strip question_label)) then (None, st)
  else
    let question_label := strip question_label in
    match get_work_authorization_answer cfg question_label with
    | Some work_ans => (Some work_ans, st)
    | None =>
        let label_lower := lower question_label in
        match fixed_field_answer question_label label_lower cv_path st with
        | Some (a, st) => (Some a, st)
        | None =>
            experience_then_rest question_label label_lower years_default cv_path use_gemini st
        end
    end.

End Resolver.

End CvReader.

(** ** applier.py: the value written into a required text control *)

Module Applier.

Open Scope re_scope.

Definition TEXT_FALLBACK : pystr := py "none".

(** What the loop reads from the page for one control. *)
Record control : Type := {
  tag : pystr;                 (* [el.tagName.toLowerCase()] *)
  is_number : bool;            (* [type == "number"] *)
  maxlength : option pystr;    (* the attribute [maxlength] *)
  helper : option N            (* the largest number of the helper text *)
}.

Definition RATING_LABELS : list pystr :=
  map py ["frontend"; "backend"; "microservice"; "microservices"; "api"; "database";
          "devops"; "fullstack"; "mobile"; "cloud"; "security"; "testing"; "data"]%string.

(** The pattern [^-?\d+(\.\d+)?$], tried at position 0. *)
Definition decimal_number : re :=
  Opt (Chr 45) ;; Plus Digit ;; Opt (Chr 46 ;; Plus Digit) ;; Eos.

Section Filler.

(** Floating point is left to two oracles: [float(text) < 0.1] and
    [str(int(float(text)))] on a text that is a decimal number. *)
Variable float_below_tenth : pystr -> bool.
Variable int_of_float : pystr -> pystr.

Definition wants_decimal (label_str : pystr) : bool :=
  any_in RATING_LABELS (lower label_str).

Definition wants_whole_number (label_str : pystr) : bool :=
  contains (py "years") (lower label_str) && contains (py "experience") (lower label_str)
  && negb (wants_decimal label_str).

Definition decimal_default (label_str : pystr) : pystr :=
  if contains (py "frontend") (lower label_str) || contains (py "backend") (lower label_str)
  then py "8.0" else py "5.0".

(** Lines 294 to 321: from the resolved answer to the text to write. *)
Definition resolved_text (label_str : pystr) (c : control) (answer : option pystr) : pystr :=
  let no_answer :=
    match answer with
    | None => true
    | Some a =>
        (PyStr.eqb (strip a) [] || PyStr.eqb (strip a) (py "N/A"))
        && negb (PyStr.eqb (tag c) (py "input")) && negb (is_number c)
    end in
  let answer :=
    if no_answer then
      if wants_decimal label_str then decimal_default label_str
      else if is_number c then (if wants_whole_number label_str then py "3" else py "0")
      else TEXT_FALLBACK
    else match answer with Some a => a | None => [] end in
  let text_val := strip answer in
  let text_val :=
    if negb (truthy text_val) && negb (is_number c) then TEXT_FALLBACK else text_val in
  let text_val :=
    if wants_decimal label_str then
      if existsb (PyStr.eqb (lower text_val))
                 [py "yes"; py "no"; py "oui"; py "non"; py "n/a"; []]
      then decimal_default label_str
      else if negb (Re.re_match false decimal_number text_val)
      then decimal_default label_str
      else if float_below_tenth text_val then decimal_default label_str
      else text_val
    else text_val in
  if wants_whole_number label_str && Re.re_match false decimal_number text_val
  then int_of_float text_val
  else text_val.

(** Lines 325 to 343: the limit, from the attribute or else from the helper
    text.  The outer [None] is an exception of [int], the inner one the
    absence of a limit. *)
Definition max_len_of (c : control) : option (option Z) :=
  match maxlength c with
  | Some a =>
      if truthy a then option_map Some (py_int a)
      else Some (option_map Z.of_N (helper c))
  | None => Some (option_map Z.of_N (helper c))
  end.

(** Lines 323 to 347: a text that is the fallback is repeated up to the
    limit. *)
Definition pad_to_limit (c : control) (text_val : pystr) : pystr :=
  if PyStr.eqb (tag c) (py "textarea")
     || PyStr.eqb (tag c) (py "input") && negb (is_number c)
  then
    match max_len_of c with
    | Some (Some max_len) =>
        if negb (max_len =? 0)%Z && (Z.of_nat (length text_val) <? max_len)%Z
           && PyStr.eqb (lower text_val) TEXT_FALLBACK
        then firstn (Z.to_nat max_len)
               (repeat_str (TEXT_FALLBACK ++ py " ")
                  (Z.to_nat (max_len / (Z.of_nat (length TEXT_FALLBACK) + 1) + 1)))
        else text_val
    | _ => text_val
    end
  else text_val.

(** The argument of [inp.fill]. *)
Definition filled_text (label_str : pystr) (c : control) (answer : option pystr) : pystr :=
  pad_to_limit c (resolved_text label_str c answer).

End Filler.

End Applier.

(** ** daily_limit.py and main.py: the run loop *)

Module Main.

(** The shared run state, the dictionary with the keys [running],
    [applied_count] and [error]. *)
Record run_state : Type := {
  running : bool;
  applied_count : nat;
  error : option pystr
}.

(** What [fill_contact_and_click_suivant] does: it returns, or raises. *)
Inductive fill_result : Type :=
| Filled (applied : bool)
| FillRaises (msg : pystr).

(** The browser, as seen by the loop.  Readings depend on the time, which
    is the number of calls made so far. *)
Record driver : Type := {
  startup_error : option pystr;       (* entering the playwright block, creating the context *)
  goto_search : bool;                 (* [page.goto] and the wait succeed *)
  card_count : nat -> option nat;     (* [loc.count()], [None] when it raises *)
  select_card : nat -> nat -> bool;   (* scrolling to and clicking the card succeeds *)
  click_apply : nat -> bool;          (* clicking the apply button succeeds *)
  fill_contact : nat -> fill_result;
  body_text : nat -> option pystr;    (* the lowercased text of the page, [None] when it raises *)
  stop_is_set : nat -> bool           (* [stop_event.is_set()] *)
}.

(** The observable effects, in order; [EvDailyLimit] records the run state
    at the moment the limit is detected. *)
Inductive event : Type :=
| EvDailyLimit (snapshot : option run_state)
| EvPopup
| EvCloseModal
| EvWaitClosed
| EvCloseContext.

Record mstate : Type := {
  state : option run_state;
  clock : nat;
  trace : list event
}.

Definition tick (m : mstate) : mstate :=
  {| state := state m; clock := S (clock m); trace := trace m |}.

Definition log (ev : event) (m : mstate) : mstate :=
  {| state := state m; clock := clock m; trace := trace m ++ [ev] |}.

Definition update (f : run_state -> run_state) (m : mstate) : mstate :=
  {| state := option_map f (state m); clock := clock m; trace := trace m |}.

Definition set_running (b : bool) (s : run_state) : run_state :=
  {| running := b; applied_count := applied_count s; error := error s |}.

Definition set_applied_count (n : nat) (s : run_state) : run_state :=
  {| running := running s; applied_count := n; error := error s |}.

Definition set_error (e : option pystr) (s : run_state) : run_state :=
  {| running := running s; applied_count := applied_count s; error := e |}.

Definition DAILY_LIMIT_PHRASES : list pystr :=
  map py ["envois quotidiens"; "limitons le nombre"; "postulez demain";
          "enregistrez cette offre"]%string.

Section Run.

Variable d : driver.
(** Whether a [stop_event] was passed. *)
Variable has_stop_event : bool.

Definition page_has_daily_limit_message (m : mstate) : bool * mstate :=
  (match body_text d (clock m) with
   | Some text => if negb (truthy text) then false else any_in DAILY_LIMIT_PHRASES text
   | None => false
   end, tick m).

(** [stop_event and stop_event.is_set()] *)
Definition stop_requested (m : mstate) : bool * mstate :=
  if has_stop_event then (stop_is_set d (clock m), tick m) else (false, m).

(** [get_job_list_count]: capped at 50, 0 on an exception. *)
Definition get_job_list_count (m : mstate) : nat * mstate :=
  (match card_count d (clock m) with
   | Some n => Nat.min n 50
   | None => 0
   end, tick m).

(** How the body of the per-job [try] ends. *)
Inductive job_end : Type :=
| JobDone (applied_total : nat) (m : mstate)       (* falls out of the [try] *)
| JobContinue (applied_total : nat) (m : mstate)   (* [continue] *)
| JobReturn (code : Z) (m : mstate)                (* [return] *)
| JobRaises (msg : pystr) (m : mstate).            (* an exception, for the [except] *)

(** The three daily-limit exits of lines 77 to 94. *)
Definition daily_limit_stop (close_modal : bool) (m : mstate) : job_end :=
  let m := log (EvDailyLimit (state m)) m in
  let m := if close_modal then log EvCloseModal m else m in
  JobReturn 0 (log EvPopup m).

(** Lines 75 to 101, the body of the [try] for the card [i]. *)
Definition job_try (i : nat) (applied_total : nat) (m : mstate) : job_end :=
  let selected := select_card d (clock m) i in
  let m := tick m in
  if negb selected then JobContinue applied_total m
  else
    let '(limit, m) := page_has_daily_limit_message m in
    if limit then daily_limit_stop false m
    else
      let clicked := click_apply d (clock m) in
      let m := tick m in
      if negb clicked then JobContinue applied_total (log EvCloseModal m)
      else
        let '(limit, m) := page_has_daily_limit_message m in
        if limit then daily_limit_stop true m
        else
          match fill_contact d (clock m) with
          | FillRaises msg => JobRaises msg (tick m)
          | Filled applied =>
              let m := tick m in
              let '(limit, m) := page_has_daily_limit_message m in
              if limit then daily_limit_stop true m
              else if applied then
                let applied_total := S applied_total in
                JobDone applied_total (update (set_applied_count applied_total) m)
              else JobDone applied_total (log EvCloseModal m)
          end.

(** How the [for] loop and the [while] loop end. *)
Inductive loop_end : Type :=
| LoopDone (applied_total : nat) (m : mstate)     (* the range is exhausted *)
| LoopBreak (applied_total : nat) (m : mstate)    (* [break] *)
| LoopReturn (code : Z) (m : mstate)              (* [return] *)
| LoopRunning (applied_total : nat) (m : mstate). (* still looping when observed *)

(** Lines 73 to 108: [for i in range(count)], here from [i] for [n] more
    cards. *)
Fixpoint jobs (n i : nat) (applied_total : nat) (m : mstate) : loop_end :=
  match n with
  | O => LoopDone applied_total m
  | S n' =>
      let after_try (applied_total : nat) (m : mstate) :=
        let m := log EvWaitClosed m in
        let '(stop, m) := stop_requested m in
        if stop then LoopBreak applied_total m
        else jobs n' (S i) applied_total m in
      match job_try i applied_total m with
      | JobReturn code m => LoopReturn code m
      | JobContinue applied_total m => jobs n' (S i) applied_total m
      | JobDone applied_total m => after_try applied_total m
      | JobRaises _ m => after_try applied_total (log EvCloseModal m)
      end
  end.

(** Lines 57 to 114: [while True], observed for [fuel] rounds. *)
Fixpoint rounds (fuel : nat) (applied_total : nat) (m : mstate) : loop_end :=
  match fuel with
  | O => LoopRunning applied_total m
  | S fuel' =>
      let '(stop, m) := stop_requested m in
      if stop then LoopReturn 0 m
      else
        let '(count, m) := get_job_list_count m in
        let '(count, m) :=
          if (count =? 0)%nat then get_job_list_count m else (count, m) in
        if (count =? 0)%nat then rounds fuel' applied_total m
        else
          match jobs count 0 applied_total m with
          | LoopDone applied_total m =>
              let '(stop, m) := stop_requested m in
              if stop then LoopBreak applied_total m
              else rounds fuel' applied_total m
          | ended => ended
          end
  end.

(** What is known of a run after some rounds: it has returned, or it is
    still in the loop. *)
Inductive run : Type :=
| Exit (code : Z) (m : mstate)
| Running (m : mstate).

Definition machine (r : run) : mstate :=
  match r with
  | Exit _ m => m
  | Running m => m
  end.

(** The [finally] of the outer [try]: the flag [running] is cleared. *)
Definition finish (code : Z) (m : mstate) : run :=
  Exit code (update (set_running false) m).

(** [main], observed for [fuel] rounds of its loop, in a run into which no
    [KeyboardInterrupt] and no cancellation is raised; [MainSignals.main]
    below is the run with them.  Every call of the inner [try] either catches
    its exceptions itself or sits in the per-job [try], so its [except]
    clause of line 117 is not entered; leaving the playwright block and
    closing the context do not raise. *)
Definition main (fuel : nat) (st : option run_state) : run :=
  let m := {| state := option_map (fun _ => {| running := true; applied_count := 0;
                                                error := None |}) st;
              clock := 0; trace := [] |} in
  match startup_error d with
  | Some msg => finish 1 (update (set_error (Some msg)) m)
  | None =>
      if negb (goto_search d) then finish 1 (log EvCloseContext m)
      else
        match rounds fuel 0 m with
        | LoopReturn code m => finish code (log EvCloseContext m)
        | LoopBreak _ m => finish 0 (log EvCloseContext m)
        | LoopDone _ m => finish 0 (log EvCloseContext m)
        | LoopRunning _ m => Running m
        end
  end.

End Run.

End Main.

(** ** main.py under interruption

    [Main.main] is the run into which nothing is raised from outside.  Here a
    [KeyboardInterrupt] or the cancellation of the task may arrive at any
    awaited call.  Neither is an [Exception] (from Python 3.8 on), so both
    pass the clauses [except Exception]; the [finally] clauses run;
    [KeyboardInterrupt] is turned into the exit code 130 by the clause of
    line 124, and [CancelledError] leaves [main]. *)

Module MainSignals.

Import Main.

Inductive signal : Type :=
| KeyboardInterrupt
| CancelledError.

(** The machine of [Main], with the number of awaited calls made so far. *)
Record istate : Type := {
  base : mstate;
  awaits : nat
}.

Definition on_base (f : mstate -> mstate) (m : istate) : istate :=
  {| base := f (base m); awaits := awaits m |}.

(** An action returns a value, or a signal is on its way up. *)
Inductive outcome (A : Type) : Type :=
| Ok (a : A) (m : istate)
| Raised (s : signal) (m : istate).

Arguments Raised {A} s m.

Definition act (A : Type) : Type := istate -> outcome A.

Definition ret (A : Type) (a : A) : act A := fun m => Ok a m.

Definition bind (A B : Type) (c : act A) (f : A -> act B) : act B :=
  fun m =>
    match c m with
    | Ok a m' => f a m'
    | Raised s m' => Raised s m'
    end.

Notation "'let*' x ':=' c 'in' k" := (bind c (fun x => k))
  (at level 10, x name, c at level 100, k at level 200).
Notation "c ;> k" := (bind c (fun _ => k)) (at level 100, k at level 200, right associativity).

Section Run.

Variable d : driver.
Variable has_stop_event : bool.
(** What is raised into the coroutine at its awaited calls, numbered from 0. *)
Variable signal_at : nat -> option signal.

(** An awaited call: a signal that arrives is raised in place of its
    result. *)
Definition await : act unit :=
  fun m =>
    let m' := {| base := base m; awaits := S (awaits m) |} in
    match signal_at (awaits m) with
    | Some s => Raised s m'
    | None => Ok tt m'
    end.

Definition lift (A : Type) (f : mstate -> A * mstate) : act A :=
  fun m => let '(a, b) := f (base m) in Ok a {| base := b; awaits := awaits m |}.

Definition effect (f : mstate -> mstate) : act unit :=
  fun m => Ok tt (on_base f m).

Definition awaited (A : Type) (f : mstate -> A * mstate) : act A := await ;> lift f.

Definition page_has_daily_limit_message : act bool :=
  awaited (Main.page_has_daily_limit_message d).

Definition get_job_list_count : act nat := awaited (Main.get_job_list_count d).

(** [stop_event.is_set()] is not awaited. *)
Definition stop_requested : act bool := lift (Main.stop_requested d has_stop_event).

Definition close_easy_apply_modal : act unit := await ;> effect (log EvCloseModal).

Definition wait_for_easy_apply_modal_closed : act unit := await ;> effect (log EvWaitClosed).

Definition close_context : act unit := await ;> effect (log EvCloseContext).

(** [asyncio.sleep] and [scroll_job_list] leave no trace. *)
Definition sleep : act unit := await.
Definition scroll_job_list : act unit := await.

(** How the body of the per-job [try] ends, when no signal is raised. *)
Inductive job_end : Type :=
| Done (applied_total : nat)      (* falls out of the [try] *)
| Continue (applied_total : nat)  (* [continue] *)
| Return (code : Z)               (* [return] *)
| Raises (msg : pystr).           (* an exception, for the [except] *)

Definition daily_limit_stop (close_modal : bool) : act job_end :=
  effect (fun m => log (EvDailyLimit (state m)) m) ;>
  (if close_modal then close_easy_apply_modal else ret tt) ;>
  effect (log EvPopup) ;>
  ret (Return 0).

(** Lines 75 to 101. *)
Definition job_try (i applied_total : nat) : act job_end :=
  let* selected := awaited (fun m => (select_card d (clock m) i, tick m)) in
  if negb selected then ret (Continue applied_total)
  else
    let* limit := page_has_daily_limit_message in
    if limit then daily_limit_stop false
    else
      let* clicked := awaited (fun m => (click_apply d (clock m), tick m)) in
      if negb clicked then (close_easy_apply_modal ;> ret (Continue applied_total))
      else
        let* limit := page_has_daily_limit_message in
        if limit then daily_limit_stop true
        else
          let* filled := awaited (fun m => (fill_contact d (clock m), tick m)) in
          match filled with
          | FillRaises msg => ret (Raises msg)
          | Filled applied =>
              let* limit := page_has_daily_limit_message in
              if limit then daily_limit_stop true
              else if applied then
                (effect (update (set_applied_count (S applied_total))) ;>
                 ret (Done (S applied_total)))
              else (close_easy_apply_modal ;> ret (Done applied_total))
          end.

(** How the [for] loop and the [while] loop end, when no signal is raised. *)
Inductive loop_end : Type :=
| Exhausted (applied_total : nat)  (* the range is exhausted *)
| Break (applied_total : nat)      (* [break] *)
| Returned (code : Z)              (* [return] *)
| Looping (applied_total : nat).   (* still looping when observed *)

(** Lines 73 to 108. *)
Fixpoint jobs (n i applied_total : nat) : act loop_end :=
  match n with
  | O => ret (Exhausted applied_total)
  | S n' =>
      let after_try (applied_total : nat) : act loop_end :=
        wait_for_easy_apply_modal_closed ;>
        sleep ;>
        let* stop := stop_requested in
        if stop then ret (Break applied_total) else jobs n' (S i) applied_total in
      let* e := job_try i applied_total in
      match e with
      | Return code => ret (Returned code)
      | Continue applied_total => jobs n' (S i) applied_total
      | Done applied_total => after_try applied_total
      | Raises _ => (close_easy_apply_modal ;> after_try applied_total)
      end
  end.

(** Lines 57 to 114, observed for [fuel] rounds. *)
Fixpoint rounds (fuel applied_total : nat) : act loop_end :=
  match fuel with
  | O => ret (Looping applied_total)
  | S fuel' =>
      let* stop := stop_requested in
      if stop then ret (Returned 0)
      else
        let* count := get_job_list_count in
        let* count :=
          if (count =? 0)%nat
          then (scroll_job_list ;> sleep ;> get_job_list_count)
          else ret count in
        if (count =? 0)%nat then (sleep ;> rounds fuel' applied_total)
        else
          let* e := jobs count 0 applied_total in
          match e with
          | Exhausted applied_total =>
              let* stop := stop_requested in
              if stop then ret (Break applied_total)
              else (scroll_job_list ;> sleep ;> rounds fuel' applied_total)
          | ended => ret ended
          end
  end.

(** Lines 50 to 114, the body of the inner [try]: the code it returns with,
    or [None] when it is still looping. *)
Definition inner (fuel : nat) : act (option Z) :=
  await ;>
  if negb (goto_search d) then ret (Some 1%Z)
  else
    let* e := rounds fuel 0 in
    match e with
    | Returned code => ret (Some code)
    | Break _ | Exhausted _ => ret (Some 0%Z)
    | Looping _ => ret None
    end.

(** What is known of a run: it has returned, the cancellation has left
    [main], or it is still in the loop. *)
Inductive run : Type :=
| Returns (code : Z) (m : istate)
| Cancelled (m : istate)
| InLoop (m : istate).

(** The [finally] of the outer [try] clears the flag [running]. *)
Definition finish (code : Z) (m : istate) : run :=
  Returns code (on_base (update (set_running false)) m).

(** A signal at the outer [try]: lines 124 to 126 for [KeyboardInterrupt],
    no clause for [CancelledError]. *)
Definition unwind (s : signal) (m : istate) : run :=
  match s with
  | KeyboardInterrupt => finish 130 m
  | CancelledError => Cancelled (on_base (update (set_running false)) m)
  end.

(** [main], observed for [fuel] rounds of its loop.  Starting the browser
    counts as one awaited call.  The [finally] of the inner [try] closes the
    context; a signal that arrives there replaces the one on its way. *)
Definition main (fuel : nat) (st : option run_state) : run :=
  let m := {| base := {| state := option_map (fun _ => {| running := true;
                                                          applied_count := 0;
                                                          error := None |}) st;
                         clock := 0; trace := [] |};
              awaits := 0 |} in
  match await m with
  | Raised s m => unwind s m
  | Ok _ m =>
      match startup_error d with
      | Some msg => finish 1 (on_base (update (set_error (Some msg))) m)
      | None =>
          match inner fuel m with
          | Ok None m => InLoop m
          | Ok (Some code) m =>
              match close_context m with
              | Ok _ m => finish code m
              | Raised s m => unwind s m
              end
          | Raised s m =>
              match close_context m with
              | Ok _ m => unwind s m
              | Raised s' m => unwind s' m
              end
          end
      end
  end.

End Run.

(** The run of [Main] that a run without [Cancelled] stands for. *)
Definition plain (r : run) : option Main.run :=
  match r with
  | Returns code m => Some (Exit code (base m))
  | InLoop m => Some (Running (base m))
  | Cancelled _ => None
  end.

Definition no_signal : nat -> option signal := fun _ => None.

End MainSignals.

(** * Scenarios and predicates of the properties *)

(** ** Scenarios: a machine without completion service and without files *)

Definition no_providers : GeminiCv.providers :=
  {| GeminiCv.genai_installed := false;
     GeminiCv.groq_installed := false;
     GeminiCv.gemini_generate := fun _ => GeminiCv.GeminiText None;
     GeminiCv.groq_chat := fun _ _ => None |}.

Definition no_files : CvReader.world :=
  {| CvReader.path_exists := fun _ => false;
     CvReader.pypdf_installed := false;
     CvReader.pdf_pages := fun _ => None |}.

(** A single variable set in the environment. *)
Definition env_with (name : string) (value : pystr) : string -> option pystr :=
  fun n => if String.eqb n name then Some value else None.

(** Two cards in the list: the first application goes through, then the
    page shows the limit message when the second card is selected. *)
Definition limit_after_one_job : Main.driver :=
  {| Main.startup_error := None;
     Main.goto_search := true;
     Main.card_count := fun _ => Some 2;
     Main.select_card := fun _ _ => true;
     Main.click_apply := fun _ => true;
     Main.fill_contact := fun _ => Main.Filled true;
     Main.body_text := fun t =>
       if (t =? 8)%nat
       then Some (py "nous limitons le nombre d'envois quotidiens. postulez demain.")
       else Some (py "offres d'emploi");
     Main.stop_is_set := fun _ => false |}.

Section Predicates.

Import Config CvReader Main.





(** The resolver has an answer, and it is not the empty string. *)
Definition answered (r : option pystr * CvReader.state) : Prop :=
  exists a, fst r = Some a /\ a <> [].

(** A setting that is empty or has something else than blanks. *)
Definition not_blank (s : pystr) : Prop := truthy s = true -> strip s <> [].

Record settings_filled (cfg : Config.t) : Prop := {
  work_answer_set : WORK_AUTHORIZATION_ANSWER cfg <> [];
  sponsorship_answer_set : WORK_NEED_SPONSORSHIP_ANSWER cfg <> [];
  city_not_blank : not_blank (DEFAULT_LOCATION_CITY cfg);
  notice_not_blank : not_blank (NOTICE_PERIOD_DEFAULT cfg);
  first_name_not_blank : not_blank (EASY_APPLY_FIRST_NAME cfg);
  last_name_not_blank : not_blank (EASY_APPLY_LAST_NAME cfg);
  company_not_blank : not_blank (EASY_APPLY_CURRENT_COMPANY cfg);
  title_not_blank : not_blank (EASY_APPLY_CURRENT_TITLE cfg);
  gender_not_blank : not_blank (EASY_APPLY_GENDER cfg)
}.

(** Before any detection: no daily-limit event yet, and no error set. *)
Definition quiet (m : mstate) : Prop :=
  (forall snap, ~ In (EvDailyLimit snap) (trace m))
  /\ (forall s, state m = Some s -> error s = None).




End Predicates.

Section RunPredicates.

Import Main.

(** While the loop runs: the flag [running] is set, no error is recorded,
    and the count of the run state is the local [applied_total]. *)
Definition in_loop (applied_total : nat) (m : mstate) : Prop :=
  forall s, state m = Some s ->
    running s = true /\ error s = None /\ applied_count s = applied_total.

(** A loop that started with [lo] applications ends with at most [hi], the
    run state in step; a [return] from inside the loop has code 0. *)
Definition loop_within (lo hi : nat) (r : loop_end) : Prop :=
  match r with
  | LoopDone a m | LoopBreak a m | LoopRunning a m => in_loop a m /\ lo <= a <= hi
  | LoopReturn code m => code = 0%Z /\ exists a, in_loop a m /\ lo <= a <= hi
  end.

End RunPredicates.

(** A configuration with a Gemini key, and a Gemini that always replies with
    the same text. *)
Definition keyed_config : Config.t :=
  Config.from_env (env_with "GEMINI_API_KEY" (py "key")).

Definition constant_gemini (reply : pystr) : GeminiCv.providers :=
  {| GeminiCv.genai_installed := true;
     GeminiCv.groq_installed := false;
     GeminiCv.gemini_generate := fun _ => GeminiCv.GeminiText (Some reply);
     GeminiCv.groq_chat := fun _ _ => None |}.

(** The search page never loads. *)
Definition search_never_loads : Main.driver :=
  {| Main.startup_error := None;
     Main.goto_search := false;
     Main.card_count := fun _ => None;
     Main.select_card := fun _ _ => false;
     Main.click_apply := fun _ => false;
     Main.fill_contact := fun _ => Main.Filled false;
     Main.body_text := fun _ => None;
     Main.stop_is_set := fun _ => false |}.

(** What [re.sub] of [\s+] by one space computes, written directly:
    [in_run] tells that the previous character was a blank. *)
Fixpoint collapse (in_run : bool) (s : pystr) : pystr :=
  match s with
  | [] => []
  | c :: s' =>
      if isspace c
      then if in_run then collapse true s' else 32%N :: collapse true s'
      else c :: collapse false s'
  end.

(** A text without a blank at either end. *)
Definition trimmed (t : pystr) : Prop :=
  dropwhile isspace t = t /\ dropwhile isspace (rev t) = rev t.

(** * More of applier.py, web_app.py, config.py and dify_client.py *)

(** ** dify_client.py *)

Module DifyClient.

(** A decoded JSON value; a number is kept by its literal, with whether it
    is zero. *)
#[warnings="-register-all"]
Inductive json : Type :=
| JNull
| JBool (b : bool)
| JNum (is_zero : bool) (literal : pystr)
| JStr (s : pystr)
| JArr (items : list json)
| JObj (members : list (pystr * json)).

(** The truth value of the decoded value. *)
Definition truthy_json (j : json) : bool :=
  match j with
  | JNull => false
  | JBool b => b
  | JNum is_zero _ => negb is_zero
  | JStr s => truthy s
  | JArr items => match items with [] => false | _ => true end
  | JObj members => match members with [] => false | _ => true end
  end.

(** [j == s] for a string [s] *)
Definition is_str (s : string) (j : json) : bool :=
  match j with
  | JStr x => PyStr.eqb x (py s)
  | _ => false
  end.

(** A value, or an exception that leaves the function. *)
Inductive result (A : Type) : Type :=
| Ok (a : A)
| Raise (exception : string).

Arguments Ok {A} a.
Arguments Raise {A} exception.

Definition bind {A B : Type} (r : result A) (f : A -> result B) : result B :=
  match r with
  | Ok a => f a
  | Raise e => Raise e
  end.

Notation "x <- r ;; k" := (bind r (fun x => k))
  (at level 61, r at next level, right associativity).

(** [j.get(k)]: [None] when the key is missing; only a dict has [get]. *)
Definition lookup (k : string) (j : json) : result (option json) :=
  match j with
  | JObj members =>
      Ok (option_map snd (find (fun kv => PyStr.eqb (fst kv) (py k)) members))
  | _ => Raise "AttributeError"
  end.

(** [j.get(k)], Python's [None] read as [JNull] *)
Definition get (k : string) (j : json) : result json :=
  v <- lookup k j ;; Ok (match v with Some x => x | None => JNull end).

(** [a or b] *)
Definition or_json (a b : json) : json := if truthy_json a then a else b.

(** The text of the [error] entry, by what it is built from. *)
Inductive error_info : Type :=
| MissingConfig
| RequestFailed (msg : pystr)
| DetailError (e : json)
| WorkflowStatus (status : json).

Record answer : Type := {
  apply_status : pystr;
  form_answers : json;
  error : option error_info
}.

Definition skip (e : error_info) : answer :=
  {| apply_status := py "SKIP"; form_answers := JObj []; error := Some e |}.

(** What [requests.post] with [resp.json()] does: one of the two
    exceptions that are caught, another exception, or the decoded body. *)
Inductive post_result : Type :=
| PostFails (msg : pystr)
| PostRaises (exception : string)
| PostJson (data : json).

(** One poll of the run detail: any exception, or the decoded body. *)
Inductive poll_result : Type :=
| PollFails
| PollJson (detail : json).

(** The requests made: whether the workflow was posted, and the number of
    polls. *)
Record requests : Type := {
  posted : bool;
  polls : nat
}.

Section Call.

Variable DIFY_API_KEY : pystr.
Variable DIFY_BASE_URL : pystr.
(** [str.upper] and [json.loads], the latter [None] on a decoding error. *)
Variable upper : pystr -> pystr.
Variable loads : pystr -> option json.
Variable post : pystr -> post_result.
Variable poll : nat -> poll_result.

(** [(outputs.get("apply_status") or "SKIP").strip().upper()], then SKIP for
    anything else than the two statuses. *)
Definition status_of (outputs : json) : result pystr :=
  v <- get "apply_status" outputs ;;
  match or_json v (JStr (py "SKIP")) with
  | JStr s =>
      let apply_status := upper (strip s) in
      Ok (if PyStr.eqb apply_status (py "PROCEED") || PyStr.eqb apply_status (py "SKIP")
          then apply_status else py "SKIP")
  | _ => Raise "AttributeError"
  end.

(** A string is decoded, [{}] on a decoding error. *)
Definition decoded (form_answers : json) : json :=
  match form_answers with
  | JStr s => match loads s with Some j => j | None => JObj [] end
  | _ => form_answers
  end.

(** The loop [for _ in range(60)], from poll [i] for [n] more polls; [None]
    when the range is exhausted. *)
Fixpoint poll_loop (n i : nat) : option (result answer) * nat :=
  match n with
  | O => (None, i)
  | S n' =>
      match poll i with
      | PollFails => poll_loop n' (S i)
      | PollJson detail =>
          match get "status" detail with
          | Raise e => (Some (Raise e), S i)
          | Ok st =>
              if is_str "succeeded" st then
                (Some (outputs <- get "outputs" detail ;;
                       let outputs := or_json outputs (JObj []) in
                       apply_status <- status_of outputs ;;
                       form_answers <- get "form_answers" outputs ;;
                       let form_answers := or_json form_answers (JObj []) in
                       Ok {| apply_status := apply_status;
                             form_answers := decoded form_answers;
                             error := None |}),
                 S i)
              else if is_str "failed" st || is_str "stopped" st then
                (Some (e <- lookup "error" detail ;;
                       Ok (skip (DetailError (match e with Some x => x | None => st end)))),
                 S i)
              else poll_loop n' (S i)
          end
      end
  end.

Definition call_dify_brain (job_text : pystr) : result answer * requests :=
  if negb (truthy DIFY_API_KEY) || negb (truthy DIFY_BASE_URL)
  then (Ok (skip MissingConfig), {| posted := false; polls := 0 |})
  else
    match post job_text with
    | PostFails msg => (Ok (skip (RequestFailed msg)), {| posted := true; polls := 0 |})
    | PostRaises e => (Raise e, {| posted := true; polls := 0 |})
    | PostJson data =>
        let no_poll (r : result answer) := (r, {| posted := true; polls := 0 |}) in
        match (d <- get "data" data ;;
               let workflow_data := or_json d data in
               status <- get "status" workflow_data ;;
               outputs <- get "outputs" workflow_data ;;
               Ok (status, or_json outputs (JObj []))) with
        | Raise e => no_poll (Raise e)
        | Ok (status, outputs) =>
            if is_str "succeeded" status then
              no_poll (apply_status <- status_of outputs ;;
                       form_answers <- get "form_answers" outputs ;;
                       Ok {| apply_status := apply_status;
                             form_answers := or_json (decoded form_answers) (JObj []);
                             error := None |})
            else
              match (t <- get "task_id" data ;;
                     r <- get "workflow_run_id" data ;;
                     Ok (or_json t r)) with
              | Raise e => no_poll (Raise e)
              | Ok task_id =>
                  if truthy_json task_id && is_str "running" status then
                    match poll_loop 60 0 with
                    | (Some r, n) => (r, {| posted := true; polls := n |})
                    | (None, n) =>
                        (Ok (skip (WorkflowStatus status)), {| posted := true; polls := n |})
                    end
                  else no_poll (Ok (skip (WorkflowStatus status)))
              end
        end
    end.

End Call.

(** What every returned answer looks like: one of the two statuses, and
    with an error the status SKIP and no form answers. *)
Definition sound (r : answer) : Prop :=
  (apply_status r = py "PROCEED" \/ apply_status r = py "SKIP")
  /\ (error r <> None -> apply_status r = py "SKIP" /\ form_answers r = JObj []).

(** [str.upper] on the letters a to z. *)
Definition upper_ascii (s : pystr) : pystr :=
  map (fun c => if ((97 <=? c) && (c <=? 122))%N then (c - 32)%N else c) s.

(** A workflow that succeeds at once and says to proceed, in lower case and
    with blanks around. *)
Definition proceeding_workflow : pystr -> post_result :=
  fun _ =>
    PostJson
      (JObj [(py "data",
              JObj [(py "status", JStr (py "succeeded"));
                    (py "outputs",
                     JObj [(py "apply_status", JStr (py " proceed "));
                           (py "form_answers", JStr (py "not json"))])])]).

End DifyClient.


(** ** applier.py: matching a label to prepared answers, choosing options *)

Module ApplierForms.

Import Config GeminiCv CvReader.
Open Scope re_scope.

Definition _normalize_question_key (label : pystr) : pystr :=
  if negb (truthy label) then []
  else
    let key := Re.sub false (Plus Ws) (py " ") (strip (lower label)) in
    if contains (py "années") key || contains (py "years") key
       || contains (py "experience") key
    then py "years_of_experience"
    else if contains (py "salaire") key || contains (py "salary") key then py "salary"
    else if contains (py "visa") key || contains (py "sponsorship") key then py "visa"
    else if contains (py "linkedin") key || contains (py "url") key then py "linkedin_url"
    else firstn 80 key.

Section FormAnswers.

(** The values of [form_answers], other than [None], and their truth
    value. *)
Variable V : Type.
Variable truthy_value : V -> bool.

(** A dictionary with string keys, as the list of its items in insertion
    order; a value may be [None]. *)
Definition dict : Type := list (pystr * option V).

(** [k in d] *)
Definition dict_has (k : pystr) (d : dict) : bool :=
  existsb (fun kv => PyStr.eqb (fst kv) k) d.

(** [d.get(k)], also [d[k]] when [k in d] *)
Definition dict_get (k : pystr) (d : dict) : option V :=
  match find (fun kv => PyStr.eqb (fst kv) k) d with
  | Some kv => snd kv
  | None => None
  end.

(** [a or b] on two values that may be [None] *)
Definition or_value (a b : option V) : option V :=
  match a with
  | Some v => if truthy_value v then a else b
  | None => b
  end.

(** The test of the loop over the items: one of the key and the label,
    lowercased, stands in the other. *)
Definition key_matches (question_label : pystr) (kv : pystr * option V) : bool :=
  contains (lower (fst kv)) (lower question_label)
  || contains (lower question_label) (lower (fst kv)).

Definition _find_answer_for_question (question_label : pystr) (form_answers : dict)
  : option V :=
  let norm := _normalize_question_key question_label in
  if truthy norm && dict_has norm form_answers then dict_get norm form_answers
  else
    match find (key_matches question_label) form_answers with
    | Some kv => snd kv
    | None => or_value (dict_get question_label form_answers) (dict_get norm form_answers)
    end.

End FormAnswers.

(** *** The value selected in a required dropdown (lines 388 to 438) *)

Definition PLACEHOLDER_TEXTS : list pystr := [py "select an option"; py "choose"; []].

(** The texts of the options, stripped, without the placeholders; an
    option may have no text. *)
Definition real_option_texts (raw : list (option pystr)) : list pystr :=
  flat_map (fun t =>
              let text := strip (match t with Some x => x | None => [] end) in
              if negb (truthy text) || existsb (PyStr.eqb (lower text)) PLACEHOLDER_TEXTS
              then [] else [text])
           raw.

(** [random.choice(l)] for a list that is not empty: the element at a random
    index [r], taken below the length. *)
Definition random_choice (r : nat) (l : list pystr) : option pystr :=
  nth_error l (r mod length l).

Definition answer_matches (answer_lower o : pystr) : bool :=
  truthy answer_lower
  && (contains answer_lower (lower o) || contains (lower o) answer_lower
      || PyStr.eqb answer_lower (lower o)).

Definition LEGAL_STATUS_OPTIONS : list pystr :=
  [py "No status"; py "Other"; py "Open Work Visa"].

Section SelectValue.

Variable cfg : Config.t.
Variable P : providers.
Variable w : world.

(** The argument of [sel.select_option], [None] when the dropdown is
    skipped.  [cv_path] is [CV_PATH or ""], [r] the random draw. *)
Definition select_value (cv_path : pystr) (r : nat) (label : pystr)
  (raw_options : list (option pystr)) (st : state) : option pystr * state :=
  let label_str := strip label in
  let option_texts := real_option_texts raw_options in
  if negb (truthy_list option_texts) then (None, st)
  else
    let label_lower := lower label_str in
    let '(answer, st) :=
      get_answer_for_question cfg P w label_str (EASY_APPLY_YEARS_DEFAULT cfg) cv_path
        (USE_GEMINI_FOR_CV cfg) st in
    let answer :=
      match answer with
      | None => if truthy (strip label_str)
                then get_answer_any_question_gemini cfg P label_str 100 else None
      | Some _ => answer
      end in
    let answer :=
      if contains (py "legal status") label_lower && contains (py "canada") label_lower
      then match find (fun o => existsb (PyStr.eqb (strip o)) LEGAL_STATUS_OPTIONS)
                      option_texts with
           | Some o => Some (strip o)
           | None => answer
           end
      else answer in
    let answer_lower :=
      if truthy_opt answer
      then lower (strip (match answer with Some a => a | None => [] end)) else [] in
    let matches := filter (answer_matches answer_lower) option_texts in
    let '(matches, answer) :=
      if negb (truthy_list matches)
         && (PyStr.eqb answer_lower (py "yes") || PyStr.eqb answer_lower (py "no"))
      then
        let oui_non := if PyStr.eqb answer_lower (py "yes") then py "Oui" else py "Non" in
        match find (fun o => PyStr.eqb (lower (strip o)) (lower oui_non)) option_texts with
        | Some o => ([o], Some o)
        | None => (matches, answer)
        end
      else (matches, answer) in
    let answer :=
      if negb (truthy_list matches) then
        match get_answer_from_options cfg P label_str option_texts with
        | Some api_choice =>
            if truthy api_choice then Some api_choice
            else random_choice r option_texts
        | None => random_choice r option_texts
        end
      else hd_error matches in
    if truthy_opt answer then (answer, st) else (None, st).

End SelectValue.

(** *** The option clicked in a custom choice widget (lines 535 to 578) *)








(** *** fill_contact_and_click_suivant: the steps of the wizard *)

(** What a call on the page does: it gives a value, or it raises. *)
Inductive outcome (A : Type) : Type :=
| Gives (a : A)
| Raises (msg : pystr).

Arguments Gives {A} a.
Arguments Raises {A} msg.

(** What the page shows at one of the steps after the contact step. *)
Record step_view : Type := {
  fill_questions : outcome unit;      (* [_fill_additional_questions] *)
  validation_errors : bool;           (* [_modal_has_validation_errors] *)
  submit_clicked : bool;              (* [_click_submit_if_visible] *)
  verify_visible : outcome bool;
  verify_click : outcome unit;
  next_visible : outcome bool;
  next_click : outcome unit
}.

Record wizard_view : Type := {
  modal_appears : bool;               (* the wait for the modal succeeds *)
  submit_at_once : bool;              (* [_click_submit_if_visible] on the contact step *)
  first_next_click : outcome unit;
  step_at : nat -> step_view
}.

(** What was done in the modal, in order. *)
Inductive wizard_event : Type :=
| WzSubmit
| WzFillPass
| WzCloseModal.

(** The loop [for _ in range(12)], from step [i] for [n] more steps. *)
Fixpoint wizard_steps (v : wizard_view) (n i : nat) (done : list wizard_event)
  : outcome bool * list wizard_event :=
  match n with
  | O => (Gives true, done)
  | S n' =>
      let s := step_at v i in
      match fill_questions s with
      | Raises msg => (Raises msg, done)
      | Gives _ =>
          let done := done ++ [WzFillPass] in
          if validation_errors s then (Gives false, done ++ [WzCloseModal])
          else if submit_clicked s then (Gives true, done ++ [WzSubmit])
          else
            match verify_visible s with
            | Raises msg => (Raises msg, done)
            | Gives true =>
                match verify_click s with
                | Raises msg => (Raises msg, done)
                | Gives _ => wizard_steps v n' (S i) done
                end
            | Gives false =>
                match next_visible s with
                | Raises msg => (Raises msg, done)
                | Gives true =>
                    match next_click s with
                    | Raises msg => (Raises msg, done)
                    | Gives _ => wizard_steps v n' (S i) done
                    end
                | Gives false => (Gives true, done)
                end
            end
      end
  end.

Definition fill_contact_and_click_suivant (v : wizard_view)
  : outcome bool * list wizard_event :=
  if negb (modal_appears v) then (Gives false, [])
  else if submit_at_once v then (Gives true, [WzSubmit])
  else
    match first_next_click v with
    | Raises _ => (Gives false, [])
    | Gives _ => wizard_steps v 12 0 []
    end.

End ApplierForms.

(** ** web_app.py and config.py: from the setup form to the settings *)

Module WebApp.

(** The fields of the setup form, as received. *)
Record setup_form : Type := {
  cv_filename : pystr;
  easy_apply_first_name : pystr;
  easy_apply_last_name : pystr;
  easy_apply_email : pystr;
  job_search_country : pystr;
  job_search_keywords : pystr;
  default_location_city : pystr;
  work_authorization_answer : pystr;
  work_need_sponsorship_answer : pystr;
  work_authorization_country : pystr;
  easy_apply_years_default : pystr;
  easy_apply_current_company : pystr;
  easy_apply_current_title : pystr;
  easy_apply_gender : pystr;
  easy_apply_certifications : pystr;
  easy_apply_hybrid_answer : pystr;
  min_delay_sec : pystr;
  max_delay_sec : pystr;
  gemini_api_key : pystr;
  groq_api_key : pystr
}.

(** [s.endswith(suffix)] *)
Definition endswith (suffix s : pystr) : bool := startswith (rev suffix) (rev s).

(** [(x or default).strip()] *)
Definition stripped_or (x : pystr) (default : string) : pystr :=
  strip (if truthy x then x else py default).

(** The record written to [config_overrides.json]; [abs_path] is the place
    where the uploaded file was saved. *)
Definition setup_payload (f : setup_form) (abs_path : pystr) : list (string * pystr) :=
  [ ("EASY_APPLY_FIRST_NAME", stripped_or (easy_apply_first_name f) EmptyString);
    ("EASY_APPLY_LAST_NAME", stripped_or (easy_apply_last_name f) EmptyString);
    ("EASY_APPLY_EMAIL", stripped_or (easy_apply_email f) EmptyString);
    ("JOB_SEARCH_COUNTRY", stripped_or (job_search_country f) EmptyString);
    ("JOB_SEARCH_KEYWORDS", stripped_or (job_search_keywords f) EmptyString);
    ("DEFAULT_LOCATION_CITY", stripped_or (default_location_city f) EmptyString);
    ("WORK_AUTHORIZATION_ANSWER", stripped_or (work_authorization_answer f) "No");
    ("WORK_NEED_SPONSORSHIP_ANSWER", stripped_or (work_need_sponsorship_answer f) "Yes");
    ("WORK_AUTHORIZATION_COUNTRY", stripped_or (work_authorization_country f) "Canada");
    ("EASY_APPLY_YEARS_DEFAULT", stripped_or (easy_apply_years_default f) "3");
    ("EASY_APPLY_CURRENT_COMPANY", stripped_or (easy_apply_current_company f) EmptyString);
    ("EASY_APPLY_CURRENT_TITLE", stripped_or (easy_apply_current_title f) EmptyString);
    ("EASY_APPLY_GENDER", stripped_or (easy_apply_gender f) EmptyString);
    ("EASY_APPLY_CERTIFICATIONS", stripped_or (easy_apply_certifications f) EmptyString);
    ("EASY_APPLY_HYBRID_ANSWER", stripped_or (easy_apply_hybrid_answer f) "Yes");
    ("MIN_DELAY_SEC", stripped_or (min_delay_sec f) "10");
    ("MAX_DELAY_SEC", stripped_or (max_delay_sec f) "30");
    ("RESUME_PATH", abs_path);
    ("CV_PATH", abs_path) ]%string
  ++ (if truthy (stripped_or (gemini_api_key f) EmptyString)
      then [("GEMINI_API_KEY"%string, strip (gemini_api_key f))] else [])
  ++ (if truthy (stripped_or (groq_api_key f) EmptyString)
      then [("GROQ_API_KEY"%string, strip (groq_api_key f))] else []).

(** [api_setup_post]: [None] is the error 400 for a file that is not a
    PDF. *)
Definition api_setup_post (f : setup_form) (abs_path : pystr)
  : option (list (string * pystr)) :=
  if negb (truthy (cv_filename f)) || negb (endswith (py ".pdf") (lower (cv_filename f)))
  then None
  else Some (setup_payload f abs_path).

(** [os.environ[k] = v] *)
Definition setenv (k : string) (v : pystr) (env : string -> option pystr)
  : string -> option pystr :=
  fun n => if String.eqb n k then Some v else env n.

(** [config.apply_overrides_from_file]: every item of the file whose value
    is not [None] is put in the environment, in order; [None] for the data is
    the missing file.  The settings are then read again with
    [Config.from_env]. *)
Definition apply_overrides (data : option (list (string * option pystr)))
  (env : string -> option pystr) : bool * (string -> option pystr) :=
  match data with
  | None => (false, env)
  | Some items =>
      (true,
       fold_left (fun e kv => match snd kv with
                              | Some v => setenv (fst kv) v e
                              | None => e
                              end)
                 items env)
  end.

(** The file written by the setup, as it is read back. *)
Definition overrides_file (payload : list (string * pystr))
  : option (list (string * option pystr)) :=
  Some (map (fun kv => (fst kv, Some (snd kv))) payload).

(** The settings as [_refresh_from_env] reads them again after a setup
    through the form; the delays and the other settings it reads after these
    are left out. *)
Definition settings_after_setup (f : setup_form) (abs_path : pystr)
  (env : string -> option pystr) : option Config.t :=
  match api_setup_post f abs_path with
  | None => None
  | Some payload =>
      Some (Config.from_env (snd (apply_overrides (overrides_file payload) env)))
  end.

End WebApp.

(** How a step of the wizard ends, seen from its readings: [advances] when
    the loop goes on to the next step, [stalls] when it leaves by [break]. *)
Module WizardSteps.

Import ApplierForms.

Definition ok {A : Type} (o : outcome A) : bool :=
  match o with
  | Gives _ => true
  | Raises _ => false
  end.

Definition shows (o : outcome bool) : bool :=
  match o with
  | Gives b => b
  | Raises _ => false
  end.

Definition hidden (o : outcome bool) : bool :=
  match o with
  | Gives b => negb b
  | Raises _ => false
  end.

Definition reaches_buttons (s : step_view) : bool :=
  ok (fill_questions s) && negb (validation_errors s) && negb (submit_clicked s).

Definition advances (s : step_view) : bool :=
  reaches_buttons s
  && ((shows (verify_visible s) && ok (verify_click s))
      || (hidden (verify_visible s) && shows (next_visible s) && ok (next_click s))).

Definition stalls (s : step_view) : bool :=
  reaches_buttons s && hidden (verify_visible s) && hidden (next_visible s).

Definition count_event (e : wizard_event) (done : list wizard_event) : nat :=
  length (filter (fun x => match x, e with
                           | WzSubmit, WzSubmit => true
                           | WzFillPass, WzFillPass => true
                           | WzCloseModal, WzCloseModal => true
                           | _, _ => false
                           end) done).

(** The run reports success although nothing was sent. *)
Definition unsent_success (r : outcome bool * list wizard_event) : Prop :=
  fst r = Gives true /\ ~ In WzSubmit (snd r).

(** What the events [more] of a run that ended with [r] may be, when at
    most [n] steps were open to it. *)
Definition events_ok (n : nat) (r : outcome bool) (more : list wizard_event) : Prop :=
  count_event WzFillPass more <= n
  /\ count_event WzSubmit more <= 1
  /\ (In WzSubmit more -> r = Gives true /\ exists pre, more = pre ++ [WzSubmit])
  /\ (In WzCloseModal more -> r = Gives false /\ exists pre, more = pre ++ [WzCloseModal])
  /\ (r = Gives false -> ~ In WzSubmit more).

(** A step that shows no button at all, and a wizard made of such steps. *)
Definition blank_step : step_view :=
  {| fill_questions := Gives tt;
     validation_errors := false;
     submit_clicked := false;
     verify_visible := Gives false;
     verify_click := Gives tt;
     next_visible := Gives false;
     next_click := Gives tt |}.

Definition blank_wizard : wizard_view :=
  {| modal_appears := true;
     submit_at_once := false;
     first_next_click := Gives tt;
     step_at := fun _ => blank_step |}.

End WizardSteps.

(** Why a run ends. *)
Section RunReasons.

Import Main.

Variable d : driver.
Variable has_stop_event : bool.

(** The daily-limit message was detected. *)
Definition limit_detected (m : mstate) : Prop :=
  exists snap, In (EvDailyLimit snap) (trace m).

(** A stop event was passed, and it was set at some time. *)
Definition stop_was_set : Prop :=
  has_stop_event = true /\ exists t, stop_is_set d t = true.

Definition ended_for_a_reason (m : mstate) : Prop := limit_detected m \/ stop_was_set.

End RunReasons.

(** Runs under interruption. *)
Section SignalPredicates.

Import Main MainSignals.

Variable signal_at : nat -> option signal.

(** No signal has arrived at the awaited calls made so far. *)
Definition undisturbed (m : istate) : Prop :=
  forall k, k < awaits m -> signal_at k = None.

(** The signal [s] has arrived at one of the awaited calls made so far. *)
Definition arrived (s : signal) (m : istate) : Prop :=
  exists k, k < awaits m /\ signal_at k = Some s.

(** The signal [s] has arrived at the last awaited call. *)
Definition raised_at (s : signal) (m : istate) : Prop :=
  exists k, awaits m = S k /\ signal_at k = Some s.

(** The flag [running] is set and no error is recorded. *)
Definition unreported (b : mstate) : Prop :=
  forall s, state b = Some s -> running s = true /\ error s = None.

Definition steady (m : istate) : Prop := undisturbed m /\ unreported (base m).

Definition interrupted (s : signal) (m : istate) : Prop :=
  raised_at s m /\ unreported (base m).

(** [spec P c Q R]: from a machine in [P], the action [c] returns a value
    and a machine in [Q], or raises a signal with a machine in [R]. *)
Definition spec (A : Type) (P : istate -> Prop) (c : act A)
  (Q : A -> istate -> Prop) (R : signal -> istate -> Prop) : Prop :=
  forall m, P m -> match c m with
                   | Ok a m' => Q a m'
                   | Raised s m' => R s m'
                   end.

(** What a signal leaves behind: the flag [running] is cleared, no error is
    recorded, and the exit code is 130 unless the signal is a cancellation. *)
Definition after_signal (r : run) : Prop :=
  match r with
  | Returns code m =>
      code = 130%Z /\ arrived KeyboardInterrupt m
      /\ forall s, state (base m) = Some s -> running s = false /\ error s = None
  | Cancelled m =>
      arrived CancelledError m
      /\ forall s, state (base m) = Some s -> running s = false /\ error s = None
  | InLoop _ => False
  end.

End SignalPredicates.

(** A keyboard interrupt at the third awaited call. *)
Definition interrupt_at_third : nat -> option MainSignals.signal :=
  fun k => if (k =? 2)%nat then Some MainSignals.KeyboardInterrupt else None.

(** A list that is always empty, on a page that never shows the limit
    message. *)
Definition no_jobs_ever : Main.driver :=
  {| Main.startup_error := None;
     Main.goto_search := true;
     Main.card_count := fun _ => Some 0;
     Main.select_card := fun _ _ => true;
     Main.click_apply := fun _ => true;
     Main.fill_contact := fun _ => Main.Filled true;
     Main.body_text := fun _ => Some (py "offres d'emploi");
     Main.stop_is_set := fun _ => false |}.

(** A setup form filled by a candidate, and one whose work authorization
    answer is a single blank. *)
Definition filled_form : WebApp.setup_form :=
  {| WebApp.cv_filename := py "Ada Lovelace CV.PDF";
     WebApp.easy_apply_first_name := py " Ada ";
     WebApp.easy_apply_last_name := py "Lovelace";
     WebApp.easy_apply_email := py "ada@example.org";
     WebApp.job_search_country := py "Canada";
     WebApp.job_search_keywords := py "software engineer";
     WebApp.default_location_city := py "London";
     WebApp.work_authorization_answer := py "No";
     WebApp.work_need_sponsorship_answer := [];
     WebApp.work_authorization_country := py "Canada";
     WebApp.easy_apply_years_default := py "3";
     WebApp.easy_apply_current_company := [];
     WebApp.easy_apply_current_title := py "Engineer";
     WebApp.easy_apply_gender := [];
     WebApp.easy_apply_certifications := [];
     WebApp.easy_apply_hybrid_answer := py "Yes";
     WebApp.min_delay_sec := py "10";
     WebApp.max_delay_sec := py "30";
     WebApp.gemini_api_key := py " key ";
     WebApp.groq_api_key := [] |}.

(** * Properties *)

Unset Implicit Arguments.

(** ** Strings *)

Section StringFacts.

Lemma startswith_app (p s : pystr) : startswith p (p ++ s) = true.
Proof.
  induction p as [|x p IH]; simpl; [reflexivity|].
  now rewrite N.eqb_refl, IH.
Qed.

Lemma contains_skip (sub a s : pystr) :
  contains sub s = true -> contains sub (a ++ s) = true.
Proof.
  intros H. induction a as [|x a IH]; simpl; [exact H|].
  rewrite IH. apply orb_true_r.
Qed.

Lemma contains_here (sub s : pystr) : contains sub (sub ++ s) = true.
Proof.
  destruct sub as [|x sub]; [destruct s; reflexivity|].
  change (startswith (x :: sub) ((x :: sub) ++ s)
          || contains (x :: sub) (sub ++ s) = true).
  now rewrite startswith_app.
Qed.

(** [sub in s] holds as soon as [s] is [a + sub + c]. *)
Lemma contains_intro (sub s a c : pystr) :
  s = a ++ sub ++ c -> contains sub s = true.
Proof.
  intros ->. apply contains_skip, contains_here.
Qed.

Lemma dropwhile_idem (f : N -> bool) (s : pystr) :
  dropwhile f (dropwhile f s) = dropwhile f s.
Proof.
  induction s as [|c s IH]; simpl; [reflexivity|].
  destruct (f c) eqn:E; [exact IH|]. simpl. now rewrite E.
Qed.

Lemma dropwhile_snoc (f : N -> bool) (s : pystr) (h : N) :
  f h = false -> dropwhile f (s ++ [h]) = dropwhile f s ++ [h].
Proof.
  intros Hh. induction s as [|c s IH]; simpl.
  - now rewrite Hh.
  - destruct (f c); [exact IH | reflexivity].
Qed.

Lemma dropwhile_head (f : N -> bool) (s : pystr) :
  match dropwhile f s with
  | [] => True
  | h :: _ => f h = false
  end.
Proof.
  induction s as [|c s IH]; simpl; [exact I|].
  destruct (f c) eqn:E; [exact IH | exact E].
Qed.

Lemma strip_by_idem (f : N -> bool) (s : pystr) :
  strip_by f (strip_by f s) = strip_by f s.
Proof.
  unfold strip_by, lstrip_by, rstrip_by.
  pose proof (dropwhile_head f s) as Hd.
  destruct (dropwhile f s) as [|h t]; [reflexivity|].
  assert (E : rev (dropwhile f (rev (h :: t))) = h :: rev (dropwhile f (rev t))).
  { simpl rev at 2. rewrite (dropwhile_snoc f (rev t) h Hd), rev_app_distr. reflexivity. }
  rewrite E. simpl dropwhile at 2. rewrite Hd, <- E, rev_involutive, dropwhile_idem.
  reflexivity.
Qed.

Lemma strip_idem (s : pystr) : strip (strip s) = strip s.
Proof. apply strip_by_idem. Qed.

(** *** [str.lower]

    The facts read off the character tables are checked by evaluation. *)

Lemma isspace_cases (c : N) : isspace c = true ->
  In c [9; 10; 11; 12; 13; 28; 29; 30; 31; 32; 133; 160; 5760; 8192; 8193; 8194; 8195;
        8196; 8197; 8198; 8199; 8200; 8201; 8202; 8232; 8233; 8239; 8287; 12288]%N.
Proof.
  unfold isspace. intros H.
  repeat (apply orb_true_iff in H as [H|H]);
    try (apply andb_true_iff in H as [H1 H2]; apply N.leb_le in H1, H2);
    try apply N.eqb_eq in H; cbn [In]; lia.
Qed.

(** A blank is its own lowercase, and is neither cased nor case-ignorable. *)
Lemma space_plain (c : N) : isspace c = true ->
  lower_cp c = c /\ cased c = false /\ case_ignorable c = false
  /\ (c =? 931)%N = false /\ (c =? 304)%N = false.
Proof.
  intros H. apply isspace_cases in H.
  assert (A : forallb (fun c => (lower_cp c =? c)%N && negb (cased c)
                                && negb (case_ignorable c)
                                && negb (c =? 931)%N && negb (c =? 304)%N)
                [9; 10; 11; 12; 13; 28; 29; 30; 31; 32; 133; 160; 5760; 8192; 8193; 8194;
                 8195; 8196; 8197; 8198; 8199; 8200; 8201; 8202; 8232; 8233; 8239; 8287;
                 12288]%N = true) by (vm_compute; reflexivity).
  rewrite forallb_forall in A. specialize (A c H).
  repeat (apply andb_true_iff in A as [A ?]).
  apply N.eqb_eq in A.
  repeat match goal with H : negb _ = true |- _ => apply negb_true_iff in H end.
  auto.
Qed.

Lemma lower_cp_cases (c : N) :
  lower_cp c = c \/ In (lower_cp c) (map snd UnicodeData.lower_pairs).
Proof.
  unfold lower_cp. destruct (find _ _) as [kv|] eqn:E; [right | now left].
  apply find_some in E as [E _]. now apply in_map.
Qed.

(** The lowercase of a code point is not a blank and is its own lowercase. *)
Lemma lower_images (x : N) : In x (map snd UnicodeData.lower_pairs) ->
  isspace x = false /\ lower_cp x = x.
Proof.
  assert (A : forallb (fun x => negb (isspace x) && (lower_cp x =? x)%N)
                (map snd UnicodeData.lower_pairs) = true) by (vm_compute; reflexivity).
  rewrite forallb_forall in A. intros H. specialize (A x H).
  apply andb_true_iff in A as [A1 A2]. apply negb_true_iff in A1. apply N.eqb_eq in A2.
  auto.
Qed.

(** Lowercasing neither makes nor unmakes a blank. *)
Lemma isspace_lower_cp (c : N) : isspace (lower_cp c) = isspace c.
Proof.
  destruct (isspace c) eqn:E.
  - destruct (space_plain c E) as [-> _]. exact E.
  - destruct (lower_cp_cases c) as [->|H]; [exact E|]. now apply lower_images.
Qed.

Lemma lower_cp_idem (c : N) : lower_cp (lower_cp c) = lower_cp c.
Proof.
  destruct (lower_cp_cases c) as [H|H]; [now rewrite !H | now apply lower_images].
Qed.

Lemma lower_char_space (before : bool) (c : N) (rest : pystr) :
  isspace c = true -> lower_char before c rest = [c].
Proof.
  intros H. destruct (space_plain c H) as (E & _ & _ & E1 & E2).
  unfold lower_char. now rewrite E1, E2, E.
Qed.

Lemma lower_char_nonspace (before : bool) (c : N) (rest : pystr) :
  isspace c = false ->
  lower_char before c rest <> []
  /\ forallb (fun x => negb (isspace x)) (lower_char before c rest) = true.
Proof.
  intros H. unfold lower_char.
  destruct (c =? 931)%N; [split; [discriminate | now destruct (before && _)]|].
  destruct (c =? 304)%N; [split; [discriminate | reflexivity]|].
  split; [discriminate|]. cbn. now rewrite isspace_lower_cp, H.
Qed.

Lemma step_before_space (before : bool) (c : N) :
  isspace c = true -> step_before before c = false.
Proof.
  intros H. destruct (space_plain c H) as (_ & E1 & E2 & _).
  unfold step_before. now rewrite E2, E1.
Qed.

Lemma lower_from_space (before : bool) (c : N) (s : pystr) :
  isspace c = true -> lower_from before (c :: s) = c :: lower_from false s.
Proof.
  intros H. cbn [lower_from]. now rewrite (lower_char_space _ _ _ H), (step_before_space _ _ H).
Qed.

Lemma dropwhile_nonspace_word (w t : pystr) :
  w <> [] -> forallb (fun x => negb (isspace x)) w = true ->
  dropwhile isspace (w ++ t) = w ++ t.
Proof.
  destruct w as [|x w]; [contradiction|]. intros _ H. cbn in H.
  apply andb_true_iff in H as [H _]. apply negb_true_iff in H. cbn. now rewrite H.
Qed.

Lemma dropwhile_lower (s : pystr) :
  dropwhile isspace (lower s) = lower (dropwhile isspace s).
Proof.
  unfold lower. induction s as [|c s IH]; [reflexivity|].
  destruct (isspace c) eqn:E.
  - rewrite (lower_from_space _ _ _ E). cbn [dropwhile]. now rewrite E.
  - cbn [dropwhile]. rewrite E. cbn [lower_from].
    destruct (lower_char_nonspace false c s E) as [H1 H2].
    now apply dropwhile_nonspace_word.
Qed.

Lemma forallb_rev (f : N -> bool) (s : pystr) : forallb f (rev s) = forallb f s.
Proof.
  induction s as [|c s IH]; [reflexivity|].
  cbn. rewrite forallb_app, IH. cbn. now rewrite andb_true_r, andb_comm.
Qed.

Lemma dropwhile_all (f : N -> bool) (s : pystr) :
  forallb f s = true -> dropwhile f s = [].
Proof.
  induction s as [|c s IH]; [reflexivity|]. cbn. intros H.
  apply andb_true_iff in H as [H1 H2]. rewrite H1. now apply IH.
Qed.

Lemma dropwhile_app (f : N -> bool) (a b : pystr) :
  dropwhile f (a ++ b) = if forallb f a then dropwhile f b else dropwhile f a ++ b.
Proof.
  induction a as [|c a IH]; [reflexivity|]. cbn. destruct (f c); [exact IH | reflexivity].
Qed.

(** Stripping on the right, from the left. *)
Lemma rstrip_by_cons (f : N -> bool) (c : N) (s : pystr) :
  rstrip_by f (c :: s) = if forallb f (c :: s) then [] else c :: rstrip_by f s.
Proof.
  unfold rstrip_by. cbn [rev forallb]. rewrite dropwhile_app, forallb_rev.
  destruct (forallb f s) eqn:E.
  - rewrite (dropwhile_all f (rev s)) by now rewrite forallb_rev.
    cbn. destruct (f c); reflexivity.
  - rewrite andb_false_r, rev_app_distr. reflexivity.
Qed.

Lemma rstrip_by_word (f : N -> bool) (w t : pystr) :
  forallb (fun x => negb (f x)) w = true -> rstrip_by f (w ++ t) = w ++ rstrip_by f t.
Proof.
  induction w as [|x w IH]; [reflexivity|]. cbn [forallb app]. intros H.
  apply andb_true_iff in H as [H1 H2]. apply negb_true_iff in H1.
  rewrite rstrip_by_cons. cbn [forallb]. rewrite H1. cbn [andb]. now rewrite IH.
Qed.

Lemma forallb_isspace_lower_from (s : pystr) : forall before,
  forallb isspace (lower_from before s) = forallb isspace s.
Proof.
  induction s as [|c s IH]; intros before; [reflexivity|].
  destruct (isspace c) eqn:E.
  - rewrite (lower_from_space _ _ _ E). cbn. now rewrite E, IH.
  - cbn [lower_from forallb]. rewrite E, forallb_app.
    destruct (lower_char_nonspace before c s E) as [H1 H2].
    destruct (lower_char before c s) as [|x w]; [contradiction|].
    cbn in H2. apply andb_true_iff in H2 as [H2 _]. apply negb_true_iff in H2.
    cbn. now rewrite H2.
Qed.

Lemma final_sigma_after_blank (c : N) (s : pystr) :
  isspace c = true -> final_sigma_after (c :: s) = true.
Proof.
  intros H. destruct (space_plain c H) as (_ & E1 & E2 & _).
  unfold final_sigma_after. cbn [dropwhile]. now rewrite E2, E1.
Qed.

Lemma final_sigma_after_blanks (s : pystr) :
  forallb isspace s = true -> final_sigma_after s = true.
Proof.
  destruct s as [|c s]; [reflexivity|]. cbn. intros H.
  apply andb_true_iff in H as [H _]. now apply final_sigma_after_blank.
Qed.

Lemma final_sigma_after_rstrip (s : pystr) :
  final_sigma_after (rstrip_by isspace s) = final_sigma_after s.
Proof.
  induction s as [|c s IH]; [reflexivity|].
  rewrite rstrip_by_cons. destruct (forallb isspace (c :: s)) eqn:E.
  - now rewrite (final_sigma_after_blanks _ E).
  - unfold final_sigma_after in *. cbn [dropwhile].
    destruct (case_ignorable c); [exact IH | reflexivity].
Qed.

Lemma lower_char_rest (before : bool) (c : N) (r1 r2 : pystr) :
  final_sigma_after r1 = final_sigma_after r2 ->
  lower_char before c r1 = lower_char before c r2.
Proof. intros H. unfold lower_char. now rewrite H. Qed.

Lemma rstrip_lower_from (s : pystr) : forall before,
  rstrip_by isspace (lower_from before s) = lower_from before (rstrip_by isspace s).
Proof.
  induction s as [|c s IH]; intros before; [reflexivity|].
  destruct (isspace c) eqn:E.
  - rewrite (lower_from_space _ _ _ E), !rstrip_by_cons. cbn [forallb].
    rewrite forallb_isspace_lower_from, E. cbn [andb].
    destruct (forallb isspace s); [reflexivity|].
    now rewrite (lower_from_space _ _ _ E), IH.
  - rewrite rstrip_by_cons. cbn [forallb]. rewrite E. cbn [andb lower_from].
    destruct (lower_char_nonspace before c s E) as [H1 H2].
    rewrite (rstrip_by_word isspace _ _ H2), IH.
    now rewrite (lower_char_rest before c _ _ (final_sigma_after_rstrip s)).
Qed.

Lemma strip_lower (s : pystr) : strip (lower s) = lower (strip s).
Proof.
  unfold strip, strip_by, lstrip_by. rewrite dropwhile_lower.
  unfold lower. apply rstrip_lower_from.
Qed.

Lemma lower_from_nonempty (before : bool) (s : pystr) :
  truthy (lower_from before s) = truthy s.
Proof.
  destruct s as [|c s]; [reflexivity|]. cbn [lower_from]. unfold lower_char.
  destruct (c =? 931)%N; [reflexivity|]. destruct (c =? 304)%N; reflexivity.
Qed.

Lemma truthy_lower (s : pystr) : truthy (lower s) = truthy s.
Proof. apply lower_from_nonempty. Qed.

(** A lowercased text is made of code points that are their own lowercase,
    and lowercasing leaves such a text as it is. *)
Lemma lower_from_settled (s : pystr) : forall before,
  Forall (fun x => lower_cp x = x) (lower_from before s).
Proof.
  induction s as [|c s IH]; intros before; [constructor|].
  cbn [lower_from]. apply Forall_app. split; [|apply IH].
  unfold lower_char. destruct (c =? 931)%N.
  - constructor; [|constructor]. now destruct (before && _).
  - destruct (c =? 304)%N; [repeat constructor|].
    constructor; [apply lower_cp_idem | constructor].
Qed.

Lemma lower_from_fixed (s : pystr) :
  Forall (fun x => lower_cp x = x) s -> forall before, lower_from before s = s.
Proof.
  induction 1 as [|c s Hc Hs IH]; intros before; [reflexivity|].
  cbn [lower_from]. rewrite IH. unfold lower_char.
  destruct (c =? 931)%N eqn:E1; [apply N.eqb_eq in E1; subst c; discriminate Hc|].
  destruct (c =? 304)%N eqn:E2; [apply N.eqb_eq in E2; subst c; discriminate Hc|].
  now rewrite Hc.
Qed.

Lemma lower_idem (s : pystr) : lower (lower s) = lower s.
Proof. unfold lower. apply lower_from_fixed, lower_from_settled. Qed.

(** The lowercase of a few texts outside Basic Latin: the dotted capital I
    becomes two code points, the capital sigma is final at the end of a word
    only, and the Kelvin sign becomes the letter k. *)
Lemma lower_examples :
  lower (py "İstanbul") = [105; 775]%N ++ py "stanbul"
  /\ lower (py "ΟΔΟΣ ΣΟΦΙΑΣ") = py "οδος σοφιας"
  /\ lower (py "Σ") = py "σ"
  /\ lower [8490%N] = py "k"
  /\ lower (py "ÉCOLE") = py "école".
Proof. vm_compute. repeat split; reflexivity. Qed.

(** [int] reads the decimal digits of every script and refuses the
    separators U+001C to U+001F, which [str.strip] removes. *)
Lemma py_int_examples :
  py_int (py " 12 ") = Some 12%Z
  /\ py_int (py "١٢") = Some 12%Z
  /\ py_int (py "-1_000") = Some (-1000)%Z
  /\ py_int [49; 50; 28]%N = None
  /\ strip [49; 50; 28]%N = [49; 50]%N
  /\ py_int (py "1__0") = None
  /\ py_int (py "12a") = None
  /\ py_int [] = None.
Proof. vm_compute. repeat split; reflexivity. Qed.

End StringFacts.

(** ** The experience table *)

Section ExperienceFacts.

Import ExperienceMap.

(** The label may be stripped first: the normalized text is the same. *)
Lemma normalize_label_strip (label : pystr) :
  _normalize_label (strip label) = _normalize_label label.
Proof.
  unfold _normalize_label. now rewrite <- strip_lower, strip_idem.
Qed.

(** Every year count of the table is one of the three tiers or the total
    default, hence positive. *)
Lemma get_years_positive (label : pystr) (y : Z) :
  get_years_for_question label = Some y -> (0 < y)%Z.
Proof.
  unfold get_years_for_question.
  repeat match goal with
         | |- context [if ?b then _ else _] => destruct b
         end; intros [= <-] || discriminate; reflexivity.
Qed.

(** C3. A label whose normalized text reads [... how many ... years ...] is
    never a Yes/No experience question, whatever else it says. *)
Theorem how_many_years_is_not_yes_no (label a b c : pystr) :
  _normalize_label label = a ++ py "how many" ++ b ++ py "years" ++ c ->
  is_yes_no_experience_question label = false.
Proof.
  intros H. unfold is_yes_no_experience_question.
  destruct (truthy label); [|reflexivity]. cbn [negb].
  cbv zeta.
  rewrite (contains_intro (py "how many") _ a (b ++ py "years" ++ c) H).
  rewrite (contains_intro (py "years") _ (a ++ py "how many" ++ b) c).
  - reflexivity.
  - rewrite H. now rewrite <- !app_assoc.
Qed.

(** The label of the witness also matches the Yes/No pattern
    [do you have .* experience]. *)
Lemma how_many_years_is_not_yes_no_witness :
  let label := py "How many years do you have of Java experience?" in
  existsb (fun pat => Re.search false pat (_normalize_label label))
          YES_NO_EXPERIENCE_PATTERNS = true
  /\ is_yes_no_experience_question label = false.
Proof.
  split; [vm_compute; reflexivity|].
  apply (how_many_years_is_not_yes_no _ [] (py " ")
           (py " do you have of java experience?")).
  vm_compute. reflexivity.
Defined.

(** What [get_yes_no_for_experience] computes, the year counts being
    positive. *)
Lemma get_yes_no_for_experience_eq (label : pystr) :
  get_yes_no_for_experience label
  = if is_yes_no_experience_question label then Some (py "Yes") else None.
Proof.
  unfold get_yes_no_for_experience.
  destruct (is_yes_no_experience_question label); [|reflexivity]. cbn [negb].
  cbv zeta.
  destruct (get_years_for_question label) as [y|] eqn:Ey.
  - apply get_years_positive in Ey. apply Z.gtb_lt in Ey. now rewrite Ey.
  - reflexivity.
Qed.

(** C10. The Yes/No answer of the table is ["Yes"] for a label classified
    as a Yes/No experience question and absent otherwise; it is never
    ["No"]. *)
Theorem get_yes_no_for_experience_never_no (label : pystr) :
  get_yes_no_for_experience label
  = (if is_yes_no_experience_question label then Some (py "Yes") else None)
  /\ get_yes_no_for_experience label <> Some (py "No").
Proof.
  split; [apply get_yes_no_for_experience_eq|].
  rewrite get_yes_no_for_experience_eq.
  destruct (is_yes_no_experience_question label); [vm_compute|]; discriminate.
Qed.

(** C4. With a year or experience keyword in the normalized label, the
    table answers by containment, in a fixed order: the total phrasing gives
    3 whatever the technology, then a Java token gives 4, then a token of
    the middle list gives 3, then "year" or "experience" gives 2. *)
Theorem get_years_for_question_tiers (label : pystr) :
  let text := _normalize_label label in
  let total := contains (py "total") text
               && (contains (py "year") text || contains (py "experience") text) in
  any_in (map py ["year"; "years"; "année"; "expérience"; "experience"]%string) text = true ->
  (total = true -> get_years_for_question label = Some 3%Z)
  /\ (total = false -> any_in TECH_4_YEARS text = true ->
      get_years_for_question label = Some 4%Z)
  /\ (total = false -> any_in TECH_4_YEARS text = false ->
      any_in TECH_3_YEARS text = true ->
      get_years_for_question label = Some 3%Z)
  /\ (total = false -> any_in TECH_4_YEARS text = false ->
      any_in TECH_3_YEARS text = false ->
      contains (py "year") text || contains (py "experience") text = true ->
      get_years_for_question label = Some 2%Z).
Proof.
  intros text total Hkey.
  assert (Hl : truthy label = true).
  { destruct label; [vm_compute in Hkey; discriminate | reflexivity]. }
  unfold get_years_for_question. rewrite Hl. cbn [negb]. cbv zeta.
  fold text. rewrite Hkey. cbn [negb]. fold total.
  repeat split; intros; 
    repeat match goal with H : _ = _ |- _ => rewrite H; clear H end; reflexivity.
Qed.

Lemma get_years_for_question_tiers_witness :
  get_years_for_question (py "Total years of Java experience") = Some 3%Z
  /\ get_years_for_question (py "How many years of experience with  JavaScript and Spring?")
     = Some 4%Z
  /\ get_years_for_question (py "Years of experience with Docker?") = Some 3%Z
  /\ get_years_for_question (py "How many years of experience with Kubernetes?") = Some 2%Z.
Proof.
  split; [|split; [|split]].
  - refine (proj1 (get_years_for_question_tiers
                     (py "Total years of Java experience") _) _);
      vm_compute; reflexivity.
  - refine (proj1 (proj2 (get_years_for_question_tiers
                     (py "How many years of experience with  JavaScript and Spring?") _)) _ _);
      vm_compute; reflexivity.
  - refine (proj1 (proj2 (proj2 (get_years_for_question_tiers
                     (py "Years of experience with Docker?") _))) _ _ _);
      vm_compute; reflexivity.
  - refine (proj2 (proj2 (proj2 (get_years_for_question_tiers
                     (py "How many years of experience with Kubernetes?") _))) _ _ _ _);
      vm_compute; reflexivity.
Defined.

End ExperienceFacts.

(** ** The work-authorization override *)

Section WorkAuthorizationFacts.

Import Config GeminiCv CvReader WorkAuthorization.





Lemma truthy_of_strip (label : pystr) : truthy (strip label) = true -> truthy label = true.
Proof. destruct label; [vm_compute; discriminate | reflexivity]. Qed.




End WorkAuthorizationFacts.


Section WorkAuthorizationScenarios.

Import Config GeminiCv CvReader WorkAuthorization ExperienceMap.



End WorkAuthorizationScenarios.

(** ** The resolver: absent skills and empty answers *)

Section ResolverFacts.

Import Config GeminiCv CvReader WorkAuthorization ExperienceMap.



(** C2 fails on the code.  With the authorization answer set to the empty
    string in the environment, the override returns that empty string; with a
    blank default city, the location rule strips it to the empty string. *)
Theorem empty_answer_from_blank_setting (P : providers) (w : world) (st : state) :
  fst (get_answer_for_question
         (Config.from_env (env_with "WORK_AUTHORIZATION_ANSWER" []))
         P w (py "Are you legally authorized to work in Canada?") (py "3") [] false st)
  = Some []
  /\ fst (get_answer_for_question
            (Config.from_env (env_with "DEFAULT_LOCATION_CITY" (py " ")))
            P w (py "Location (city)") (py "3") [] false st)
     = Some [].
Proof.
  split; vm_compute; reflexivity.
Qed.

End ResolverFacts.

(** ** Picking one option *)

Section OptionFacts.

Import Config GeminiCv.

Lemma clean_options_fixed (options : list pystr) :
  (forall o, In o options -> strip o = o /\ o <> []) -> clean_options options = options.
Proof.
  unfold clean_options. induction options as [|o os IH]; intros H; [reflexivity|].
  destruct (H o (or_introl eq_refl)) as [Hs Hn].
  cbn [map filter]. rewrite Hs.
  destruct o as [|c o]; [contradiction|]. cbn [truthy].
  f_equal. apply IH. intros x Hx. apply H. now right.
Qed.

Lemma find_first (A : Type) (f : A -> bool) (pre : list A) (x : A) (post : list A) :
  f x = true -> (forall y, In y pre -> f y = false) -> find f (pre ++ x :: post) = Some x.
Proof.
  intros Hx. induction pre as [|y pre IH]; intros Hpre; cbn [app find].
  - now rewrite Hx.
  - rewrite (Hpre y (or_introl eq_refl)). apply IH. intros z Hz. apply Hpre. now right.
Qed.

(** What [get_answer_from_options] does on the cleaned option list (every
    option stripped, the blank ones dropped): the answer is an element of that
    list, and there is none exactly when that list is empty; it is the first
    cleaned option that the completion matches, case ignored and as a
    substring either way, and the first cleaned option when the providers give
    no text or the completion matches no option.  For a list of stripped,
    non-blank options the cleaned list is the supplied one. *)
Lemma get_answer_from_options_in_clean_list
  (cfg : Config.t) (P : providers) (question : pystr) (options : list pystr) :
  match clean_options options with
  | [] => get_answer_from_options cfg P question options = None
  | first :: rest =>
      exists o,
        get_answer_from_options cfg P question options = Some o
        /\ In o (clean_options options)
        /\ (match complete cfg P (OptionsPrompt (strip question) (first :: rest)) 200 with
            | Some text =>
                truthy text = false
                \/ (forall o', In o' (first :: rest) ->
                               option_matches (strip_quotes (strip text)) o' = false)
            | None => True
            end -> o = first)
        /\ (forall text pre x post,
              complete cfg P (OptionsPrompt (strip question) (first :: rest)) 200 = Some text ->
              truthy text = true ->
              first :: rest = pre ++ x :: post ->
              option_matches (strip_quotes (strip text)) x = true ->
              (forall y, In y pre -> option_matches (strip_quotes (strip text)) y = false) ->
              o = x)
        /\ ((forall x, In x options -> strip x = x /\ x <> []) -> In o options)
  end.
Proof.
  unfold get_answer_from_options.
  destruct (clean_options options) as [|first rest] eqn:Ec; [reflexivity|].
  assert (Hid : forall o, In o (first :: rest) ->
                (forall x, In x options -> strip x = x /\ x <> []) -> In o options).
  { intros o Ho Hc. rewrite (clean_options_fixed _ Hc) in Ec. now rewrite Ec. }
  destruct (complete cfg P (OptionsPrompt (strip question) (first :: rest)) 200)
    as [text|] eqn:Et; cbn [truthy_opt].
  - destruct (truthy text) eqn:Ett; cbn [negb].
    + destruct (find (option_matches (strip_quotes (strip text))) (first :: rest))
        as [o|] eqn:Ef.
      * destruct (find_some _ _ Ef) as [Hin Hm].
        exists o. split; [reflexivity|]. split; [exact Hin|]. split; [|split].
        -- intros [Hf|Hf]; [discriminate|]. rewrite (Hf o Hin) in Hm. discriminate.
        -- intros t pre x post [= <-] _ Hl Hx Hpre. rewrite Hl in Ef.
           rewrite (find_first _ _ pre x post Hx Hpre) in Ef. now injection Ef.
        -- apply Hid, Hin.
      * exists first. split; [reflexivity|]. split; [now left|]. split; [reflexivity|].
        split; [|apply Hid; now left].
        intros t pre x post [= <-] _ Hl Hx Hpre. rewrite Hl in Ef.
        rewrite (find_first _ _ pre x post Hx Hpre) in Ef. discriminate.
    + exists first. split; [reflexivity|]. split; [now left|]. split; [reflexivity|].
      split; [|apply Hid; now left].
      intros t pre x post [= <-] Ht. rewrite Ht in Ett. discriminate.
  - exists first. split; [reflexivity|]. split; [now left|]. split; [reflexivity|].
    split; [discriminate|]. apply Hid. now left.
Qed.


End OptionFacts.

(** ** The fallback text and the length limit *)

Section FillerFacts.

Import Applier.

Variable float_below_tenth : pystr -> bool.
Variable int_of_float : pystr -> pystr.

Lemma length_repeat_str (s : pystr) (n : nat) :
  length (repeat_str s n) = n * length s.
Proof.
  induction n as [|n IH]; simpl; [reflexivity|].
  rewrite length_app, IH. reflexivity.
Qed.

(** X1.  Whatever the limit, from 5 characters on, the repeated fallback text
    has exactly the length of the limit. *)
Lemma fallback_fills_limit (c : control) (max_len : Z) :
  PyStr.eqb (tag c) (py "textarea")
  || PyStr.eqb (tag c) (py "input") && negb (is_number c) = true ->
  max_len_of c = Some (Some max_len) ->
  (4 < max_len)%Z ->
  length (pad_to_limit c TEXT_FALLBACK) = Z.to_nat max_len.
Proof.
  intros Ht Hm Hlt. unfold pad_to_limit. rewrite Ht, Hm.
  replace (length TEXT_FALLBACK) with 4 by reflexivity.
  replace (PyStr.eqb (lower TEXT_FALLBACK) TEXT_FALLBACK) with true by reflexivity.
  replace (max_len =? 0)%Z with false by (symmetry; apply Z.eqb_neq; lia).
  replace (Z.of_nat 4 <? max_len)%Z with true by (symmetry; apply Z.ltb_lt; lia).
  cbn [negb andb].
  rewrite length_firstn, length_repeat_str.
  replace (length (TEXT_FALLBACK ++ py " ")) with 5 by reflexivity.
  apply Nat.min_l.
  assert (H5 : (max_len < 5 * (max_len / 5 + 1))%Z).
  { pose proof (Z.mul_succ_div_gt max_len 5 ltac:(lia)). lia. }
  change (Z.of_nat 4 + 1)%Z with 5%Z.
  lia.
Qed.

(** Without an answer, a control that is neither numeric nor a rating field
    gets the fallback text. *)
Lemma no_answer_resolves_to_fallback (label_str : pystr) (c : control) :
  is_number c = false ->
  wants_decimal label_str = false ->
  resolved_text float_below_tenth int_of_float label_str c None = TEXT_FALLBACK.
Proof.
  intros Hn Hd. unfold resolved_text, wants_whole_number. rewrite Hn, Hd.
  cbn. now rewrite andb_false_r.
Qed.

(** C7. A textarea, or a text input, whose text is the fallback ["none"]
    and whose maximum length (from the attribute, or else from the helper
    text) is 50 is filled with ["none "] repeated and cut at 50 characters:
    exactly the maximum length. *)
Theorem fallback_fills_textarea_of_50
  (label_str : pystr) (c : control) (answer : option pystr) :
  tag c = py "textarea" \/ tag c = py "input" /\ is_number c = false ->
  max_len_of c = Some (Some 50%Z) ->
  resolved_text float_below_tenth int_of_float label_str c answer = TEXT_FALLBACK ->
  filled_text float_below_tenth int_of_float label_str c answer
  = firstn 50 (repeat_str (py "none ") 11)
  /\ length (filled_text float_below_tenth int_of_float label_str c answer) = 50.
Proof.
  intros Ht Hm Hr.
  assert (E : filled_text float_below_tenth int_of_float label_str c answer
              = firstn 50 (repeat_str (py "none ") 11)).
  { unfold filled_text, pad_to_limit. rewrite Hr, Hm.
    destruct Ht as [Ht|[Ht Hn]]; rewrite Ht; [|rewrite Hn]; vm_compute; reflexivity. }
  split; [exact E|]. rewrite E. vm_compute. reflexivity.
Qed.

End FillerFacts.

(** A required textarea limited to 50 characters, with no answer. *)
Lemma fallback_fills_textarea_of_50_witness :
  let c := {| Applier.tag := py "textarea"; Applier.is_number := false;
              Applier.maxlength := Some (py "50"); Applier.helper := None |} in
  Applier.filled_text (fun _ => false) (fun t => t) (py "Cover letter*") c None
  = py "none none none none none none none none none none "
  /\ length (Applier.filled_text (fun _ => false) (fun t => t) (py "Cover letter*") c None)
     = 50.
Proof.
  refine (fallback_fills_textarea_of_50 (fun _ => false) (fun t => t)
            (py "Cover letter*") _ None _ _ _).
  - left. reflexivity.
  - reflexivity.
  - vm_compute. reflexivity.
Defined.

(** ** The CV text cache *)

Section CacheFacts.

Import CvReader.

(** C9. Once a call of [load_cv_text] leaves a text in the cache, every
    later call, for any path and whatever the file system has become, returns
    that same text and touches nothing: no file is handed to the PDF reader
    again. *)
Theorem load_cv_text_cached
  (w : world) (cv_path text : pystr) (st st' : state) :
  load_cv_text w cv_path st = (text, st') ->
  _cv_text_cache st' <> None ->
  forall (w' : world) (cv_path' : pystr),
    load_cv_text w' cv_path' st' = (text, st')
    /\ pdf_reads (snd (load_cv_text w' cv_path' st')) = pdf_reads st'.
Proof.
  intros Hload Hcache w' cv_path'.
  assert (E : _cv_text_cache st' = Some text).
  { unfold load_cv_text in Hload.
    destruct (_cv_text_cache st) as [cached|] eqn:Ec.
    - injection Hload as <- <-. exact Ec.
    - destruct (negb (truthy cv_path) || negb (path_exists w cv_path)).
      { injection Hload as <- <-. now rewrite Ec in Hcache. }
      destruct (negb (pypdf_installed w)).
      { injection Hload as <- <-. now rewrite Ec in Hcache. }
      destruct (pdf_pages w cv_path).
      + injection Hload as <- <-. reflexivity.
      + injection Hload as <- <-. now cbn in Hcache. }
  unfold load_cv_text. rewrite E. split; reflexivity.
Qed.

Lemma load_cv_text_hit (w : world) (cv_path cached : pystr) (st : state) :
  _cv_text_cache st = Some cached -> load_cv_text w cv_path st = (cached, st).
Proof. intros H. unfold load_cv_text. now rewrite H. Qed.

Lemma load_if_path_hit (w : world) (cv_path cached : pystr) (st : state) :
  _cv_text_cache st = Some cached ->
  load_if_path w cv_path st = (fst (load_if_path w cv_path st), st).
Proof.
  intros H. unfold load_if_path.
  destruct (truthy cv_path); [now rewrite (load_cv_text_hit w cv_path cached st H)|].
  reflexivity.
Qed.

Ltac settle_branches :=
  repeat match goal with
         | |- context [if ?b then _ else _] => destruct b
         | |- context [match ?x with Some _ => _ | None => _ end] => destruct x
         end; try reflexivity.

(** X2.  With a text in the cache, answering a question leaves the cache and the
    log of PDF reads as they are: the cached text serves for the rest of the
    run. *)
Lemma get_answer_for_question_keeps_cache
  (cfg : Config.t) (P : GeminiCv.providers) (w : world)
  (label years_default cv_path cached : pystr) (use_gemini : bool) (st : state) :
  _cv_text_cache st = Some cached ->
  snd (get_answer_for_question cfg P w label years_default cv_path use_gemini st) = st.
Proof.
  intros H.
  assert (Hopen : forall q ll,
            snd (open_ended cfg P w q ll years_default cv_path use_gemini st) = st).
  { intros q ll. unfold open_ended. rewrite (load_if_path_hit w cv_path cached st H).
    settle_branches. }
  assert (Hyears : forall q ll,
            snd (years_then_rest cfg P w q ll years_default cv_path use_gemini st) = st).
  { intros q ll. unfold years_then_rest. rewrite (load_cv_text_hit w cv_path cached st H).
    destruct (ExperienceMap.get_years_for_question q); [reflexivity|].
    destruct (use_gemini && truthy cv_path);
      [destruct (50 <=? length (strip cached))%nat;
       [destruct (GeminiCv.get_years_of_experience_from_cv cfg P q cached);
        [reflexivity|]|]|];
      (destruct (rating_answer q); [reflexivity | apply Hopen]). }
  assert (Hyn : forall q ll,
            snd (yes_no_then_rest cfg P w q ll years_default cv_path use_gemini st) = st).
  { intros q ll. unfold yes_no_then_rest.
    rewrite (load_if_path_hit w cv_path cached st H).
    destruct (ExperienceMap.is_yes_no_experience_question q); [|apply Hyears].
    destruct (negb _); [reflexivity|].
    destruct (ExperienceMap.get_yes_no_for_experience q); [reflexivity | apply Hyears]. }
  assert (Hexp : forall q ll,
            snd (experience_then_rest cfg P w q ll years_default cv_path use_gemini st)
            = st).
  { intros q ll. unfold experience_then_rest.
    rewrite (load_if_path_hit w cv_path cached st H).
    destruct (_ && _ && negb _); [|apply Hyn]. settle_branches. }
  assert (Hfixed : forall q ll a st',
            fixed_field_answer cfg P w q ll cv_path st = Some (a, st') -> st' = st).
  { intros q ll a st'. unfold fixed_field_answer.
    rewrite (load_if_path_hit w cv_path cached st H).
    settle_branches; cbn;
      try (destruct (GeminiCv.get_salary_expectation_gemini _ _ _ _); cbn);
      try discriminate; intros [= _ <-]; reflexivity. }
  unfold get_answer_for_question.
  destruct (negb (truthy label) || negb (truthy (strip label))); [reflexivity|].
  destruct (WorkAuthorization.get_work_authorization_answer cfg (strip label));
    [reflexivity|].
  destruct (fixed_field_answer cfg P w (strip label) (lower (strip label)) cv_path st)
    as [[a st']|] eqn:Ef.
  - cbn. exact (Hfixed _ _ _ _ Ef).
  - apply Hexp.
Qed.

End CacheFacts.

(** A two-page PDF read once, then asked for again under another path on a
    machine that has lost the file. *)
Lemma load_cv_text_cached_witness :
  let w := {| CvReader.path_exists := fun _ => true;
              CvReader.pypdf_installed := true;
              CvReader.pdf_pages := fun _ => Some [Some (py "Java developer"); None] |} in
  let st' := snd (CvReader.load_cv_text w (py "cv.pdf") CvReader.initial_state) in
  CvReader.pdf_reads st' = [py "cv.pdf"]
  /\ CvReader.load_cv_text no_files (py "other.pdf") st'
     = ([74; 97; 118; 97; 32; 100; 101; 118; 101; 108; 111; 112; 101; 114; 10]%N, st')
  /\ CvReader.pdf_reads (snd (CvReader.load_cv_text no_files (py "other.pdf") st'))
     = [py "cv.pdf"].
Proof.
  intros w st'. split; [reflexivity|].
  refine (load_cv_text_cached w (py "cv.pdf") _ CvReader.initial_state st' _ _
            no_files (py "other.pdf")).
  - reflexivity.
  - discriminate.
Defined.

(** ** The daily limit *)

Section DailyLimitFacts.

Import Main.

Variable d : driver.
Variable has_stop_event : bool.


Lemma quiet_tick (m : mstate) : quiet m -> quiet (tick m).
Proof. intros H. exact H. Qed.











End DailyLimitFacts.



(** ** How far the resolver never leaves a field empty

    An empty answer can come from the settings only: with answers configured for the two work-authorization
    questions and no setting made of blanks only, every label that is not
    blank gets a non-empty answer, whatever the providers and the files. *)

Section NonEmptyFacts.

Import Config GeminiCv CvReader WorkAuthorization ExperienceMap.

Variable cfg : Config.t.
Variable P : providers.
Variable w : world.

Lemma truthy_nonempty (s : pystr) : truthy s = true -> s <> [].
Proof. destruct s; [discriminate | discriminate]. Qed.

Lemma digits_of_uint_nonempty (u : Decimal.uint) :
  u <> Decimal.Nil -> digits_of_uint u <> [].
Proof. destruct u; [contradiction | discriminate ..]. Qed.

Lemma str_of_Z_nonempty (z : Z) : str_of_Z z <> [].
Proof.
  destruct z as [|p|p]; cbn; [discriminate| |discriminate].
  apply digits_of_uint_nonempty, DecimalPos.Unsigned.to_uint_nonnil.
Qed.

Lemma years_default_answer_nonempty (years_default : pystr) :
  years_default_answer years_default <> [].
Proof.
  unfold years_default_answer. destruct (py_int years_default).
  - apply str_of_Z_nonempty.
  - discriminate.
Qed.

Lemma ultimate_fallback_nonempty (question_label label_lower years_default : pystr) :
  ultimate_fallback question_label label_lower years_default <> [].
Proof.
  unfold ultimate_fallback.
  repeat match goal with
         | |- (if ?b then _ else _) <> [] => destruct b
         end; try apply years_default_answer_nonempty; discriminate.
Qed.

Lemma short_answer_nonempty (text : option pystr) (n : nat) (a : pystr) :
  short_answer text n = Some a -> a <> [].
Proof.
  unfold short_answer. destruct text as [t|]; [|discriminate].
  destruct (truthy t); [|discriminate].
  destruct (truthy (firstn n (strip_quotes (strip t)))) eqn:E; [|discriminate].
  intros [= <-]. now apply truthy_nonempty.
Qed.

Lemma get_answer_any_question_gemini_nonempty (question : pystr) (n : nat) (a : pystr) :
  get_answer_any_question_gemini cfg P question n = Some a -> a <> [].
Proof.
  unfold get_answer_any_question_gemini.
  destruct (negb (truthy (strip question))); [discriminate|].
  apply short_answer_nonempty.
Qed.

Lemma get_answer_from_cv_with_gemini_nonempty (question cv_text : pystr) (n : nat) (a : pystr) :
  get_answer_from_cv_with_gemini cfg P question cv_text n = Some a -> a <> [].
Proof.
  unfold get_answer_from_cv_with_gemini.
  destruct (_ || _ || _); [discriminate|].
  destruct (_ || _); [discriminate|].
  apply short_answer_nonempty.
Qed.

Lemma get_years_of_experience_from_cv_nonempty (question cv_text a : pystr) :
  get_years_of_experience_from_cv cfg P question cv_text = Some a -> a <> [].
Proof.
  unfold get_years_of_experience_from_cv.
  destruct (_ || _ || _); [discriminate|].
  destruct (complete _ _ _ _) as [t|]; [|discriminate].
  destruct (truthy t); [|discriminate].
  destruct (negb _); [discriminate|].
  intros [= <-]. apply str_of_Z_nonempty.
Qed.

Lemma get_salary_expectation_gemini_nonempty (region role a : pystr) :
  get_salary_expectation_gemini cfg P region role = Some a -> a <> [].
Proof.
  unfold get_salary_expectation_gemini.
  destruct (complete _ _ _ _) as [t|]; [|intros [= <-]; discriminate].
  destruct (truthy t); [|intros [= <-]; discriminate].
  destruct (truthy (filter _ _)) eqn:En; [|intros [= <-]; discriminate].
  destruct (contains _ _ && isdigit _) eqn:Eh.
  - intros [= <-]. apply andb_true_iff in Eh as [_ Eh].
    unfold isdigit in Eh. apply andb_true_iff in Eh as [Eh _].
    now apply truthy_nonempty.
  - intros [= <-].
    destruct (isdigit (filter _ (strip t))); [now apply truthy_nonempty | discriminate].
Qed.


Lemma open_ended_answered (q ll yd cv : pystr) (ug : bool) (st : state) :
  answered (open_ended cfg P w q ll yd cv ug st).
Proof.
  unfold open_ended. destruct (load_if_path w cv st) as [cv_text st1].
  destruct (if ug && truthy cv_text && (50 <=? length (strip cv_text))%nat
            then get_answer_from_cv_with_gemini cfg P q cv_text 100 else None)
    as [a|] eqn:E1.
  - exists a. split; [reflexivity|].
    destruct (ug && _ && _); [|discriminate].
    exact (get_answer_from_cv_with_gemini_nonempty _ _ _ _ E1).
  - destruct (if ug then get_answer_any_question_gemini cfg P q 100 else None)
      as [a|] eqn:E2.
    + exists a. split; [reflexivity|]. destruct ug; [|discriminate].
      exact (get_answer_any_question_gemini_nonempty _ _ _ E2).
    + eexists. split; [reflexivity|]. apply ultimate_fallback_nonempty.
Qed.

Lemma rating_answer_nonempty (q a : pystr) : rating_answer q = Some a -> a <> [].
Proof.
  unfold rating_answer. destruct (_ && _ && _); [|discriminate].
  destruct (_ || _); intros [= <-]; discriminate.
Qed.

Lemma years_then_rest_answered (q ll yd cv : pystr) (ug : bool) (st : state) :
  answered (years_then_rest cfg P w q ll yd cv ug st).
Proof.
  unfold years_then_rest. destruct (get_years_for_question q) as [y|].
  { eexists. split; [reflexivity|]. apply str_of_Z_nonempty. }
  destruct (ug && truthy cv) eqn:Eg.
  - destruct (load_cv_text w cv st) as [cv_text st1].
    destruct (50 <=? length (strip cv_text))%nat.
    + destruct (get_years_of_experience_from_cv cfg P q cv_text) as [a|] eqn:Ea.
      * exists a. split; [reflexivity|].
        exact (get_years_of_experience_from_cv_nonempty _ _ _ Ea).
      * destruct (rating_answer q) as [a|] eqn:Er.
        -- exists a. split; [reflexivity | exact (rating_answer_nonempty _ _ Er)].
        -- apply open_ended_answered.
    + destruct (rating_answer q) as [a|] eqn:Er.
      * exists a. split; [reflexivity | exact (rating_answer_nonempty _ _ Er)].
      * apply open_ended_answered.
  - destruct (rating_answer q) as [a|] eqn:Er.
    + exists a. split; [reflexivity | exact (rating_answer_nonempty _ _ Er)].
    + apply open_ended_answered.
Qed.

Lemma yes_no_then_rest_answered (q ll yd cv : pystr) (ug : bool) (st : state) :
  answered (yes_no_then_rest cfg P w q ll yd cv ug st).
Proof.
  unfold yes_no_then_rest.
  destruct (is_yes_no_experience_question q); [|apply years_then_rest_answered].
  destruct (load_if_path w cv st) as [cv_text st1].
  destruct (negb _).
  { eexists. split; [reflexivity | discriminate]. }
  destruct (get_yes_no_for_experience q) as [a|] eqn:Ea;
    [|apply years_then_rest_answered].
  exists a. split; [reflexivity|].
  rewrite get_yes_no_for_experience_eq in Ea. destruct (is_yes_no_experience_question q); [|discriminate].
  injection Ea as <-. discriminate.
Qed.

Lemma experience_then_rest_answered (q ll yd cv : pystr) (ug : bool) (st : state) :
  answered (experience_then_rest cfg P w q ll yd cv ug st).
Proof.
  unfold experience_then_rest.
  destruct (_ && _ && _); [|apply yes_no_then_rest_answered].
  destruct (load_if_path w cv st) as [cv_text st1].
  destruct (_ && negb _).
  { eexists. split; [reflexivity | discriminate]. }
  destruct (get_years_for_question q) as [y|].
  { eexists. split; [reflexivity | apply str_of_Z_nonempty]. }
  destruct (if ug && truthy cv_text && (50 <=? length (strip cv_text))%nat
            then get_years_of_experience_from_cv cfg P q cv_text else None)
    as [a|] eqn:Ea.
  - exists a. split; [reflexivity|]. destruct (ug && _ && _); [|discriminate].
    exact (get_years_of_experience_from_cv_nonempty _ _ _ Ea).
  - eexists. split; [reflexivity | apply years_default_answer_nonempty].
Qed.


Lemma or_default_strip_nonempty (x : pystr) (default : string) :
  not_blank x -> strip (py default) <> [] -> strip (or_default x default) <> [].
Proof.
  intros Hx Hd. unfold or_default. destruct (truthy x) eqn:E; [now apply Hx | exact Hd].
Qed.

Lemma fixed_field_answer_nonempty (q ll cv : pystr) (st st' : state) (a : pystr) :
  settings_filled cfg ->
  fixed_field_answer cfg P w q ll cv st = Some (a, st') -> a <> [].
Proof.
  intros Hset. unfold fixed_field_answer.
  destruct (_ && _); [intros [= <- _]; discriminate|].
  destruct (contains (py "location") ll && contains (py "city") ll
            && truthy (DEFAULT_LOCATION_CITY cfg)) eqn:Ecity.
  { intros [= <- _]. apply andb_true_iff in Ecity as [_ Ecity].
    now apply (city_not_blank Hset). }
  destruct (any_in _ ll && negb _ && negb _).
  { destruct (truthy (EASY_APPLY_FIRST_NAME cfg)) eqn:E; intros [= <- _];
      [now apply (first_name_not_blank Hset) | discriminate]. }
  destruct (any_in _ ll || PyStr.eqb _ _).
  { destruct (truthy (EASY_APPLY_LAST_NAME cfg)) eqn:E; intros [= <- _];
      [now apply (last_name_not_blank Hset) | discriminate]. }
  destruct (any_in HYBRID_KEYWORDS ll).
  { destruct (existsb _ _); intros [= <- _]; discriminate. }
  cbv zeta.
  destruct (if contains (py "salary") ll && _ then _ else None) as [s|] eqn:Es;
    cbn [truthy_opt option_map].
  { destruct (truthy s) eqn:Ets.
    - intros [= <- _]. now apply truthy_nonempty.
    - revert Es. destruct (contains (py "salary") ll && _); [|discriminate].
      intros Es. apply get_salary_expectation_gemini_nonempty in Es.
      destruct s; [contradiction | discriminate]. }
  destruct (contains (py "notice") ll && _).
  { intros [= <- _].
    apply or_default_strip_nonempty; [apply (notice_not_blank Hset) | discriminate]. }
  destruct (contains (py "current company") ll || _).
  { intros [= <- _].
    apply or_default_strip_nonempty; [apply (company_not_blank Hset) | discriminate]. }
  destruct (contains (py "current title") ll || _).
  { intros [= <- _].
    apply or_default_strip_nonempty; [apply (title_not_blank Hset) | discriminate]. }
  destruct (contains (py "pronouns") ll); [intros [= <- _]; discriminate|].
  destruct (any_in _ ll).
  { destruct (truthy (EASY_APPLY_GENDER cfg)) eqn:E; intros [= <- _];
      [now apply (gender_not_blank Hset) | discriminate]. }
  destruct (_certification_question_and_name q); [|discriminate].
  destruct (load_if_path w cv st). destruct (_has_certification _ _ _);
    intros [= <- _]; discriminate.
Qed.

(** With the settings filled, a label that is not blank gets a non-empty
    answer, in every world where the file test of [load_cv_text] returns. *)
Lemma resolver_answered
  (label years_default cv_path : pystr) (use_gemini : bool) (st : state) :
  settings_filled cfg ->
  truthy (strip label) = true ->
  answered (get_answer_for_question cfg P w label years_default cv_path use_gemini st).
Proof.
  intros Hset Hl. unfold get_answer_for_question.
  rewrite Hl, (truthy_of_strip _ Hl). cbn [negb orb].
  destruct (get_work_authorization_answer cfg (strip label)) as [a|] eqn:Ew.
  { exists a. split; [reflexivity|]. unfold get_work_authorization_answer in Ew.
    destruct (negb _); [discriminate|]. cbv zeta in Ew.
    destruct (sponsorship_rule _).
    - injection Ew as <-. apply (sponsorship_answer_set Hset).
    - destruct (negb _); [discriminate|]. injection Ew as <-.
      apply (work_answer_set Hset). }
  destruct (fixed_field_answer cfg P w (strip label) (lower (strip label)) cv_path st)
    as [[a st']|] eqn:Ef.
  - exists a. split; [reflexivity | exact (fixed_field_answer_nonempty _ _ _ _ _ _ Hset Ef)].
  - apply experience_then_rest_answered.
Qed.

(** When no CV path is given or the CV text is in the cache, [load_cv_text]
    returns before its file test: what it returns is the same in every
    world, and the state is left as it is. *)
Lemma load_cv_text_no_file (w0 w1 : world) (cv_path : pystr) (st : state) :
  cv_path = [] \/ _cv_text_cache st <> None ->
  load_cv_text w0 cv_path st = (fst (load_cv_text w1 cv_path st), st).
Proof.
  intros H. unfold load_cv_text. destruct (_cv_text_cache st) as [cached|]; [reflexivity|].
  destruct H as [->|H]; [reflexivity | now contradiction H].
Qed.

Lemma load_if_path_no_file (w0 w1 : world) (cv_path : pystr) (st : state) :
  cv_path = [] \/ _cv_text_cache st <> None ->
  load_if_path w0 cv_path st = (fst (load_if_path w1 cv_path st), st).
Proof.
  intros H. unfold load_if_path. destruct (truthy cv_path); [|reflexivity].
  now apply load_cv_text_no_file.
Qed.

(** Then the resolver does not depend on the file system. *)
Lemma resolver_ignores_files (w1 : world)
  (label years_default cv_path : pystr) (use_gemini : bool) (st : state) :
  cv_path = [] \/ _cv_text_cache st <> None ->
  get_answer_for_question cfg P w1 label years_default cv_path use_gemini st
  = get_answer_for_question cfg P w label years_default cv_path use_gemini st.
Proof.
  intros H.
  pose proof (load_if_path_no_file w w cv_path st H) as L0.
  pose proof (load_if_path_no_file w1 w cv_path st H) as L1.
  pose proof (load_cv_text_no_file w w cv_path st H) as C0.
  pose proof (load_cv_text_no_file w1 w cv_path st H) as C1.
  assert (Hopen : forall q ll,
            open_ended cfg P w1 q ll years_default cv_path use_gemini st
            = open_ended cfg P w q ll years_default cv_path use_gemini st).
  { intros q ll. unfold open_ended. rewrite L0. now rewrite L1. }
  assert (Hyears : forall q ll,
            years_then_rest cfg P w1 q ll years_default cv_path use_gemini st
            = years_then_rest cfg P w q ll years_default cv_path use_gemini st).
  { intros q ll. unfold years_then_rest. rewrite C0. rewrite C1.
    destruct (get_years_for_question q); [reflexivity|].
    destruct (use_gemini && truthy cv_path);
      [destruct (50 <=? length (strip _))%nat;
       [destruct (get_years_of_experience_from_cv cfg P q _); [reflexivity|]|]|];
      (destruct (rating_answer q); [reflexivity | apply Hopen]). }
  assert (Hyn : forall q ll,
            yes_no_then_rest cfg P w1 q ll years_default cv_path use_gemini st
            = yes_no_then_rest cfg P w q ll years_default cv_path use_gemini st).
  { intros q ll. unfold yes_no_then_rest. rewrite L0. rewrite L1.
    destruct (is_yes_no_experience_question q); [|apply Hyears].
    destruct (negb _); [reflexivity|].
    destruct (get_yes_no_for_experience q); [reflexivity | apply Hyears]. }
  assert (Hexp : forall q ll,
            experience_then_rest cfg P w1 q ll years_default cv_path use_gemini st
            = experience_then_rest cfg P w q ll years_default cv_path use_gemini st).
  { intros q ll. unfold experience_then_rest. rewrite L0. rewrite L1.
    destruct (_ && _ && negb _); [reflexivity | apply Hyn]. }
  assert (Hfixed : forall q ll,
            fixed_field_answer cfg P w1 q ll cv_path st
            = fixed_field_answer cfg P w q ll cv_path st).
  { intros q ll. unfold fixed_field_answer. rewrite L0. now rewrite L1. }
  unfold get_answer_for_question.
  destruct (negb (truthy label) || negb (truthy (strip label))); [reflexivity|].
  destruct (get_work_authorization_answer cfg (strip label)); [reflexivity|].
  rewrite Hfixed.
  destruct (fixed_field_answer cfg P w (strip label) (lower (strip label)) cv_path st)
    as [[a st']|]; [reflexivity | apply Hexp].
Qed.

(** X3.  With the settings filled, a label that is not blank gets a non-empty
    answer whenever no file is tested on the way: no CV path is given, or the
    CV text is already in the cache (lines 159 and 161 of [load_cv_text], and
    the guards on [cv_path] at its call sites).  The answer is then the same
    whatever the file system holds. *)
Theorem get_answer_for_question_answered
  (label years_default cv_path : pystr) (use_gemini : bool) (st : state) :
  settings_filled cfg ->
  truthy (strip label) = true ->
  cv_path = [] \/ _cv_text_cache st <> None ->
  answered (get_answer_for_question cfg P w label years_default cv_path use_gemini st)
  /\ forall w1,
       get_answer_for_question cfg P w1 label years_default cv_path use_gemini st
       = get_answer_for_question cfg P w label years_default cv_path use_gemini st.
Proof.
  intros Hset Hl Hfile. split.
  - exact (resolver_answered label years_default cv_path use_gemini st Hset Hl).
  - intros w1. now apply resolver_ignores_files.
Qed.

End NonEmptyFacts.

(** The default settings are filled. *)
Lemma defaults_filled : settings_filled Config.defaults.
Proof.
  split; try discriminate; intros _; vm_compute; discriminate.
Qed.

(** * Further properties of the code *)

(** ** The resolver *)

Section ResolverMore.

Import Config GeminiCv CvReader WorkAuthorization ExperienceMap.

Lemma strip_blank_none
  (cfg : Config.t) (P : providers) (w : world)
  (label years_default cv_path : pystr) (use_gemini : bool) (st : state) :
  truthy (strip label) = false ->
  get_answer_for_question cfg P w label years_default cv_path use_gemini st = (None, st).
Proof.
  intros H. unfold get_answer_for_question. rewrite H. cbn [negb].
  now rewrite orb_true_r.
Qed.

(** X4.  The resolver has no answer exactly for a blank label (empty, or white
    space only), whatever the settings, the providers and the files. *)
Theorem get_answer_for_question_none_iff_blank
  (cfg : Config.t) (P : providers) (w : world)
  (label years_default cv_path : pystr) (use_gemini : bool) (st : state) :
  fst (get_answer_for_question cfg P w label years_default cv_path use_gemini st) = None
  <-> strip label = [].
Proof.
  split.
  - intros H. destruct (strip label) as [|c r] eqn:E; [reflexivity|exfalso].
    assert (Hl : truthy (strip label) = true) by now rewrite E.
    revert H. unfold get_answer_for_question.
    rewrite Hl, (truthy_of_strip _ Hl). cbn [negb orb].
    destruct (get_work_authorization_answer cfg (strip label)); [discriminate|].
    destruct (fixed_field_answer cfg P w (strip label) (lower (strip label)) cv_path st)
      as [[a st']|]; [discriminate|].
    destruct (experience_then_rest_answered cfg P w (strip label) (lower (strip label))
                years_default cv_path use_gemini st) as (a & Ha & _).
    rewrite Ha. discriminate.
  - intros H. rewrite strip_blank_none; [reflexivity | now rewrite H].
Qed.

(** X5.  A skill phrase of the label that occurs in the CV text, in any case, is
    enough for the skill to count as mentioned. *)
Theorem skill_in_cv_is_mentioned
  (question_label cv_text config_skills_list phrase : pystr) :
  In phrase (_extract_skill_phrases_from_question question_label) ->
  contains phrase (lower cv_text) = true ->
  truthy (strip cv_text) = true ->
  _skill_mentioned_in_cv question_label cv_text config_skills_list = true.
Proof.
  intros Hin Hc Hs. unfold _skill_mentioned_in_cv.
  destruct (_extract_skill_phrases_from_question question_label) as [|p ps] eqn:E;
    [destruct Hin|]. cbn [truthy_list negb].
  match goal with |- (if ?b then true else _) = true => destruct b end; [reflexivity|].
  rewrite Hs, (truthy_of_strip _ Hs). cbn [andb].
  apply existsb_exists. exists phrase. split; [exact Hin|]. now rewrite Hc.
Qed.

End ResolverMore.

Lemma get_answer_for_question_answered_witness :
  answered (CvReader.get_answer_for_question Config.defaults no_providers no_files
              (py "Tell us about your last project") (py "3") [] false
              CvReader.initial_state)
  /\ forall w1,
       CvReader.get_answer_for_question Config.defaults no_providers w1
         (py "Tell us about your last project") (py "3") [] false CvReader.initial_state
       = CvReader.get_answer_for_question Config.defaults no_providers no_files
           (py "Tell us about your last project") (py "3") [] false CvReader.initial_state.
Proof.
  apply (get_answer_for_question_answered Config.defaults no_providers no_files).
  - exact defaults_filled.
  - vm_compute. reflexivity.
  - left. reflexivity.
Defined.

Lemma skill_in_cv_is_mentioned_witness :
  CvReader._skill_mentioned_in_cv (py "Do you have experience with Docker and Kubernetes?")
    (py "Senior engineer: Java, KUBERNETES, Terraform") [] = true.
Proof.
  apply (skill_in_cv_is_mentioned _ _ _ (py "kubernetes")).
  - vm_compute. right. left. reflexivity.
  - vm_compute. reflexivity.
  - vm_compute. reflexivity.
Defined.

Lemma get_answer_for_question_keeps_cache_witness :
  let st := {| CvReader._cv_text_cache := Some (py "Java developer, five years");
               CvReader.pdf_reads := [py "cv.pdf"] |} in
  snd (CvReader.get_answer_for_question Config.defaults no_providers no_files
         (py "Do you have the required certificate: AWS?") (py "3") (py "cv.pdf") true st)
  = st.
Proof.
  intros st.
  apply (get_answer_for_question_keeps_cache Config.defaults no_providers no_files
           _ _ _ (py "Java developer, five years")).
  reflexivity.
Defined.

(** A text input limited to 12 characters by its helper text. *)
Lemma fallback_fills_limit_witness :
  let c := {| Applier.tag := py "input"; Applier.is_number := false;
              Applier.maxlength := None; Applier.helper := Some 12%N |} in
  length (Applier.pad_to_limit c Applier.TEXT_FALLBACK) = 12.
Proof.
  intros c. apply (fallback_fills_limit c 12%Z); [reflexivity | reflexivity | lia].
Defined.

(** ** The CV text cache: what is read, and when *)

Section CacheMore.

Import CvReader.

(** X6.  [load_cv_text] hands a file to the PDF reader only when the cache is
    empty, the path is not empty, the file exists and the library is there,
    and then once; and a call that leaves the cache empty returns the empty
    string, so that a file that could not be read is tried again. *)
Theorem load_cv_text_read_discipline (w : world) (cv_path : pystr) (st : state) :
  let r := load_cv_text w cv_path st in
  (pdf_reads (snd r) = pdf_reads st
   \/ pdf_reads (snd r) = cv_path :: pdf_reads st
      /\ _cv_text_cache st = None /\ truthy cv_path = true
      /\ path_exists w cv_path = true /\ pypdf_installed w = true)
  /\ (_cv_text_cache (snd r) = None -> fst r = [] /\ _cv_text_cache st = None).
Proof.
  unfold load_cv_text.
  destruct (_cv_text_cache st) as [cached|] eqn:Ec.
  { cbn. split; [now left|]. intros H. rewrite Ec in H. discriminate. }
  destruct (truthy cv_path); cbn [negb orb]; [|cbn; split; [now left | now split]].
  destruct (path_exists w cv_path); cbn [negb]; [|cbn; split; [now left | now split]].
  destruct (pypdf_installed w); cbn [negb]; [|cbn; split; [now left | now split]].
  destruct (pdf_pages w cv_path); cbn.
  - split; [right; repeat split | discriminate].
  - split; [right; repeat split | now split].
Qed.

End CacheMore.

(** ** The generative fallback *)

Section GenerativeMore.

Import Config GeminiCv.

Variable cfg : Config.t.
Variable P : providers.

Lemma forallb_filter_same (f : N -> bool) (s : pystr) : forallb f (filter f s) = true.
Proof.
  induction s as [|c s IH]; [reflexivity|]. cbn [filter].
  destruct (f c) eqn:E; [cbn; now rewrite E, IH | exact IH].
Qed.

Lemma ascii_digit_cases (c : N) : is_ascii_digit c = true ->
  In c [48; 49; 50; 51; 52; 53; 54; 55; 56; 57]%N.
Proof.
  unfold is_ascii_digit. intros H. apply andb_true_iff in H as [H1 H2].
  apply N.leb_le in H1, H2. cbn [In]. lia.
Qed.

Lemma py_int_two_digits (s : pystr) :
  truthy s = true -> forallb is_ascii_digit s = true -> (length s <= 2)%nat ->
  exists n, py_int s = Some n /\ (0 <= n <= 99)%Z.
Proof.
  intros Ht Hd Hl.
  destruct s as [|a [|b [|c r]]]; [discriminate| | |cbn in Hl; lia].
  - cbn in Hd. rewrite andb_true_r in Hd. apply ascii_digit_cases in Hd.
    cbn [In] in Hd.
    repeat (destruct Hd as [<-|Hd];
            [eexists; split; [vm_compute; reflexivity | lia]|]).
    contradiction.
  - cbn in Hd. rewrite andb_true_r in Hd. apply andb_true_iff in Hd as [Ha Hb].
    apply ascii_digit_cases in Ha, Hb. cbn [In] in Ha, Hb.
    repeat (destruct Ha as [<-|Ha]; [|]); try contradiction;
      repeat (destruct Hb as [<-|Hb];
              [eexists; split; [vm_compute; reflexivity | lia]|]);
      contradiction.
Qed.

(** X7.  The years inferred from the CV, when there are any, are the decimal
    writing of a whole number from 0 to 99. *)
Theorem years_from_cv_between_0_and_99 (question cv_text a : pystr) :
  get_years_of_experience_from_cv cfg P question cv_text = Some a ->
  exists n, (0 <= n <= 99)%Z /\ a = str_of_Z n.
Proof.
  unfold get_years_of_experience_from_cv.
  destruct (_ || _ || _); [discriminate|].
  destruct (complete _ _ _ _) as [t|]; [|discriminate].
  destruct (truthy t); [|discriminate].
  set (num := filter is_ascii_digit (strip t)).
  destruct (truthy num) eqn:En; [|discriminate].
  assert (Hd : forallb is_ascii_digit num = true) by apply forallb_filter_same.
  clearbody num.
  assert (H2 : exists n, py_int (if (2 <=? length num)%nat then firstn 2 num else num)
                         = Some n /\ (0 <= n <= 99)%Z).
  { destruct (2 <=? length num)%nat eqn:E2.
    - apply py_int_two_digits.
      + destruct num as [|x [|y r]]; [discriminate | discriminate | reflexivity].
      + destruct num as [|x [|y r]]; [reflexivity | cbn in E2; discriminate|].
        cbn in Hd. cbn. apply andb_true_iff in Hd as [Hx Hd].
        apply andb_true_iff in Hd as [Hy _]. now rewrite Hx, Hy.
      + rewrite length_firstn. lia.
    - apply py_int_two_digits; [exact En | exact Hd|].
      apply Nat.leb_gt in E2. lia. }
  destruct H2 as (n & Hn & Hr).
  intros H. cbv beta iota delta [negb] in H. rewrite Hn in H. injection H as <-.
  exists n. split; [exact Hr|]. f_equal. lia.
Qed.

Lemma filter_digits_or_dot (s : pystr) :
  forallb is_ascii_digit s = true ->
  filter (fun c => is_ascii_digit c || (c =? 46)%N) s = s
  /\ contains (py ".") s = false.
Proof.
  induction s as [|c s IH]; intros H; [split; reflexivity|].
  cbn [forallb] in H. apply andb_prop in H as [Hc Hs]. destruct (IH Hs) as [IH1 IH2].
  split.
  - cbn [filter]. now rewrite Hc, IH1.
  - change (contains (py ".") (c :: s))
      with (((46 =? c)%N && startswith [] s) || contains (py ".") s).
    rewrite IH2, orb_false_r.
    assert (E : (46 =? c)%N = false) by (apply N.eqb_neq; intros <-; discriminate).
    now rewrite E.
Qed.

Lemma filter_dots_only (s : pystr) :
  filter is_ascii_digit s = [] ->
  match filter (fun c => is_ascii_digit c || (c =? 46)%N) s with
  | [] => True
  | c :: _ => c = 46%N
  end.
Proof.
  induction s as [|c s IH]; intros H; [exact I|]. cbn [filter] in *.
  destruct (is_ascii_digit c); [discriminate|]. cbn [orb].
  destruct (c =? 46)%N eqn:E; [now apply N.eqb_eq in E | exact (IH H)].
Qed.

Lemma isdigit_cp_ascii (c : N) :
  is_ascii_digit c || (c =? 46)%N = true -> isdigit_cp c = is_ascii_digit c.
Proof.
  intros H. destruct (is_ascii_digit c) eqn:E.
  - apply ascii_digit_cases in E. cbn [In] in E.
    repeat (destruct E as [<-|E]; [reflexivity|]). contradiction.
  - cbn [orb] in H. apply N.eqb_eq in H. subst c. reflexivity.
Qed.

(** On a text of ASCII digits and dots, [str.isdigit] asks for ASCII digits. *)
Lemma isdigit_ascii (s : pystr) :
  forallb (fun c => is_ascii_digit c || (c =? 46)%N) s = true ->
  isdigit s = truthy s && forallb is_ascii_digit s.
Proof.
  intros H. unfold isdigit. f_equal.
  induction s as [|c s IH]; [reflexivity|]. cbn [forallb] in *.
  apply andb_prop in H as [Hc Hs]. now rewrite (isdigit_cp_ascii _ Hc), (IH Hs).
Qed.

Lemma hd_split_char_subset (c : N) (s : pystr) :
  forall x, In x (hd [] (split_char c s)) -> In x s.
Proof.
  induction s as [|y s IH]; intros x; [intros []|]. cbn [split_char].
  destruct (y =? c)%N; [intros []|].
  destruct (split_char c s) as [|p ps]; cbn [hd] in *.
  - intros [<-|[]]. now left.
  - intros [<-|H]; [now left | right; now apply IH].
Qed.

(** X8.  The salary expectation is always there and always a string of the
    digits 0 to 9: the reply of the provider itself when, stripped, it is such
    a string, and 95000 when no provider gives a text or the reply has none of
    these digits in it. *)
Theorem salary_is_digits (region role : pystr) :
  exists s,
    get_salary_expectation_gemini cfg P region role = Some s
    /\ truthy s = true /\ forallb is_ascii_digit s = true
    /\ (forall text, complete cfg P (SalaryPrompt region role) 50 = Some text ->
                     truthy (strip text) = true ->
                     forallb is_ascii_digit (strip text) = true -> s = strip text)
    /\ (forall text, complete cfg P (SalaryPrompt region role) 50 = Some text ->
                     filter is_ascii_digit (strip text) = [] -> s = py "95000")
    /\ (complete cfg P (SalaryPrompt region role) 50 = None -> s = py "95000").
Proof.
  unfold get_salary_expectation_gemini.
  destruct (complete cfg P (SalaryPrompt region role) 50) as [t|].
  2:{ exists (py "95000"). split; [reflexivity|]. split; [reflexivity|].
      split; [reflexivity|]. split; [discriminate|]. split; [discriminate | reflexivity]. }
  destruct (truthy t) eqn:Et.
  2:{ exists (py "95000"). split; [reflexivity|]. split; [reflexivity|].
      split; [reflexivity|]. split; [|split].
      - intros text [= <-]. destruct t; [|discriminate]. intros H. vm_compute in H.
        discriminate.
      - reflexivity.
      - discriminate. }
  set (num := filter (fun c => is_ascii_digit c || (c =? 46)%N) (strip t)).
  assert (Hnum : forallb (fun c => is_ascii_digit c || (c =? 46)%N) num = true).
  { unfold num. induction (strip t) as [|c s IH]; [reflexivity|]. cbn [filter].
    destruct (is_ascii_digit c || (c =? 46)%N) eqn:E; [cbn [forallb]; now rewrite E | exact IH]. }
  destruct (truthy num) eqn:En.
  2:{ exists (py "95000"). split; [reflexivity|]. split; [reflexivity|].
      split; [reflexivity|]. split; [|split].
      - intros text [= <-] Hn Hd.
        destruct (filter_digits_or_dot _ Hd) as [Hf _]. fold num in Hf.
        rewrite Hf, Hn in En. discriminate.
      - reflexivity.
      - discriminate. }
  assert (Hhead : forallb (fun c => is_ascii_digit c || (c =? 46)%N)
                    (hd [] (split_char 46 num)) = true).
  { apply forallb_forall. intros x Hx. apply hd_split_char_subset in Hx.
    rewrite forallb_forall in Hnum. now apply Hnum. }
  rewrite (isdigit_ascii _ Hhead), (isdigit_ascii _ Hnum).
  eexists. split; [reflexivity|]. split; [|split; [|split; [|split]]].
  - destruct (contains (py ".") num && _) eqn:Eh.
    + apply andb_true_iff in Eh as [_ Eh]. now apply andb_true_iff in Eh as [Eh _].
    + destruct (truthy num && forallb is_ascii_digit num); [exact En | reflexivity].
  - destruct (contains (py ".") num && _) eqn:Eh.
    + apply andb_true_iff in Eh as [_ Eh]. now apply andb_true_iff in Eh as [_ Eh].
    + destruct (truthy num && forallb is_ascii_digit num) eqn:Ed; [|reflexivity].
      now apply andb_true_iff in Ed as [_ Ed].
  - intros text [= <-] Hn Hd.
    destruct (filter_digits_or_dot _ Hd) as [Hf Hc]. fold num in Hf. rewrite Hf, Hc.
    cbn [andb]. now rewrite Hn, Hd.
  - intros text [= <-] Hnone. pose proof (filter_dots_only _ Hnone) as Hdots.
    fold num in Hdots. destruct num as [|c r]; [discriminate|]. subst c.
    assert (H1 : hd [] (split_char 46 (46%N :: r)) = []) by reflexivity.
    rewrite H1. cbn [truthy andb forallb]. rewrite andb_false_r. reflexivity.
  - discriminate.
Qed.

(** X9.  An open-ended completion that is kept is never empty and never longer
    than the requested maximum, with or without the CV. *)
Theorem short_answers_are_bounded (question cv_text a : pystr) (max_length : nat) :
  get_answer_any_question_gemini cfg P question max_length = Some a
  \/ get_answer_from_cv_with_gemini cfg P question cv_text max_length = Some a ->
  a <> [] /\ length a <= max_length.
Proof.
  assert (Hs : forall text, short_answer text max_length = Some a ->
                            a <> [] /\ length a <= max_length).
  { intros text H. split; [exact (short_answer_nonempty _ _ _ H)|].
    unfold short_answer in H. destruct text as [t|]; [|discriminate].
    destruct (truthy t); [|discriminate].
    destruct (truthy (firstn _ _)); [|discriminate].
    injection H as <-. rewrite length_firstn. lia. }
  intros [H|H].
  - unfold get_answer_any_question_gemini in H.
    destruct (negb _); [discriminate | exact (Hs _ H)].
  - unfold get_answer_from_cv_with_gemini in H.
    destruct (_ || _ || _); [discriminate|].
    destruct (_ || _); [discriminate | exact (Hs _ H)].
Qed.

(** When Gemini is set up and gives a text, that text is the completion:
    what Groq would say plays no part. *)
Theorem complete_prefers_gemini (p : prompt) (max_tokens : nat) (text : pystr) :
  truthy (GEMINI_API_KEY cfg) = true ->
  genai_installed P = true ->
  gemini_generate P p = GeminiText (Some text) ->
  truthy text = true ->
  complete cfg P p max_tokens = Some text.
Proof.
  intros Hk Hi Hg Ht. unfold complete. rewrite Hk, Hi, Hg. cbn. now rewrite Ht.
Qed.

(** X10.  With no API key at all, nothing is asked of any provider and every
    template falls back: the salary is 95000, the option picked is the first
    cleaned one, and the three other templates have no answer. *)
Theorem without_keys_fixed_defaults
  (question cv_text region role : pystr) (options : list pystr) (max_length : nat) :
  GEMINI_API_KEY cfg = [] ->
  GROQ_API_KEY cfg = [] ->
  get_salary_expectation_gemini cfg P region role = Some (py "95000")
  /\ get_answer_from_options cfg P question options = hd_error (clean_options options)
  /\ get_answer_any_question_gemini cfg P question max_length = None
  /\ get_years_of_experience_from_cv cfg P question cv_text = None
  /\ get_answer_from_cv_with_gemini cfg P question cv_text max_length = None.
Proof.
  intros Hg Hq.
  assert (Hc : forall p n, complete cfg P p n = None).
  { intros p n. unfold complete. rewrite Hg, Hq. reflexivity. }
  repeat split.
  - unfold get_salary_expectation_gemini. now rewrite Hc.
  - unfold get_answer_from_options. destruct (clean_options options); [reflexivity|].
    now rewrite Hc.
  - unfold get_answer_any_question_gemini. rewrite Hc. now destruct (negb _).
  - unfold get_years_of_experience_from_cv. rewrite Hc. now destruct (_ || _ || _).
  - unfold get_answer_from_cv_with_gemini. rewrite Hc.
    destruct (_ || _ || _); [reflexivity|]. now destruct (_ || _).
Qed.

End GenerativeMore.

Lemma years_from_cv_between_0_and_99_witness :
  exists n, (0 <= n <= 99)%Z /\ py "15" = str_of_Z n.
Proof.
  apply (years_from_cv_between_0_and_99 keyed_config
           (constant_gemini (py "About 150 years, give or take"))
           (py "How many years of Design experience?")
           (py "Designer since 1870, a long and steady career in design.")).
  vm_compute. reflexivity.
Defined.

Lemma short_answers_are_bounded_witness :
  py "Prefer" <> [] /\ length (py "Prefer") <= 6.
Proof.
  apply (short_answers_are_bounded keyed_config
           (constant_gemini (py " 'Prefer not to say' ")) (py "Pronouns") []).
  left. vm_compute. reflexivity.
Defined.

Lemma complete_prefers_gemini_witness :
  GeminiCv.complete keyed_config (constant_gemini (py "Yes"))
    (GeminiCv.AnyPrompt (py "Are you willing to relocate?") 100) 120
  = Some (py "Yes").
Proof.
  apply complete_prefers_gemini; reflexivity.
Defined.

Lemma without_keys_fixed_defaults_witness :
  GeminiCv.get_salary_expectation_gemini Config.defaults (constant_gemini (py "120000"))
    (py "Canada") (py "engineer") = Some (py "95000")
  /\ GeminiCv.get_answer_from_options Config.defaults (constant_gemini (py "No"))
       (py "Relocate?") [py "  "; py " Yes"; py "No"] = Some (py "Yes").
Proof.
  destruct (without_keys_fixed_defaults Config.defaults (constant_gemini (py "120000"))
              [] [] (py "Canada") (py "engineer") [] 0 eq_refl eq_refl) as [H1 _].
  destruct (without_keys_fixed_defaults Config.defaults (constant_gemini (py "No"))
              (py "Relocate?") [] [] [] [py "  "; py " Yes"; py "No"] 0 eq_refl eq_refl)
    as (_ & H2 & _).
  split; [exact H1 | exact H2].
Defined.

(** ** The run loop: exit code, run state and count *)

Section RunMore.

Import Main.

Variable d : driver.
Variable has_stop_event : bool.

Lemma in_loop_log (ev : event) (a : nat) (m : mstate) : in_loop a m -> in_loop a (log ev m).
Proof. intros H. exact H. Qed.

Lemma in_loop_applied (a n : nat) (m : mstate) :
  in_loop a m -> in_loop n (update (set_applied_count n) m).
Proof.
  intros H s Hs. cbn in Hs. destruct (state m) as [s0|] eqn:E; [|discriminate].
  injection Hs as <-. destruct (H s0 E) as (Hr & He & _). cbn. auto.
Qed.

Lemma in_loop_stop_requested (a : nat) (m : mstate) :
  in_loop a m -> in_loop a (snd (stop_requested d has_stop_event m)).
Proof. intros H. unfold stop_requested. destruct has_stop_event; exact H. Qed.

Lemma job_try_within (i a : nat) (m : mstate) :
  in_loop a m ->
  match job_try d i a m with
  | JobDone a' m' | JobContinue a' m' => in_loop a' m' /\ a <= a' <= S a
  | JobReturn code m' => code = 0%Z /\ in_loop a m'
  | JobRaises _ m' => in_loop a m'
  end.
Proof.
  intros H. unfold job_try, page_has_daily_limit_message, daily_limit_stop.
  destruct (select_card d (clock m) i); cbn [negb]; [|split; [exact H | lia]].
  match goal with |- context [if ?b then JobReturn _ _ else _] => destruct b end;
    [split; [reflexivity | exact H]|].
  destruct (click_apply d _); cbn [negb]; [|split; [exact H | lia]].
  match goal with |- context [if ?b then JobReturn _ _ else _] => destruct b end;
    [split; [reflexivity | exact H]|].
  destruct (fill_contact d _) as [applied|msg]; [|exact H].
  match goal with |- context [if ?b then JobReturn _ _ else _] => destruct b end;
    [split; [reflexivity | exact H]|].
  destruct applied; (split; [|lia]); [|exact H].
  apply (in_loop_applied a). exact H.
Qed.

Lemma jobs_within (n : nat) : forall (i a : nat) (m : mstate),
  in_loop a m -> loop_within a (a + n) (jobs d has_stop_event n i a m).
Proof.
  induction n as [|n IH]; intros i a m H; [split; [exact H | lia]|].
  cbn [jobs].
  assert (Hwiden : forall a' r, a <= a' <= S a -> loop_within a' (a' + n) r ->
                                loop_within a (a + S n) r).
  { intros a' r Ha Hr. destruct r as [x m'|x m'|code m'|x m']; cbn in *;
      try (destruct Hr as [Hr Hx]; split; [exact Hr | lia]).
    destruct Hr as [Hc (x & Hr & Hx)]. split; [exact Hc|]. exists x. split; [exact Hr | lia]. }
  assert (Hafter : forall a' m0, a <= a' <= S a -> in_loop a' m0 ->
            loop_within a (a + S n)
              (let m1 := log EvWaitClosed m0 in
               let '(stop, m2) := stop_requested d has_stop_event m1 in
               if stop then LoopBreak a' m2
               else jobs d has_stop_event n (S i) a' m2)).
  { intros a' m0 Ha H0. cbv zeta.
    pose proof (in_loop_stop_requested a' (log EvWaitClosed m0) H0) as Hs.
    destruct (stop_requested d has_stop_event (log EvWaitClosed m0)) as [stop m2].
    cbn [snd] in Hs. destruct stop; [split; [exact Hs | lia]|].
    apply (Hwiden a'); [exact Ha | apply IH; exact Hs]. }
  pose proof (job_try_within i a m H) as Hj.
  destruct (job_try d i a m) as [a' m'|a' m'|code m'|msg m'].
  - destruct Hj as [Hj Ha]. apply Hafter; assumption.
  - destruct Hj as [Hj Ha]. apply (Hwiden a'); [exact Ha | apply IH; exact Hj].
  - destruct Hj as [-> Hj]. split; [reflexivity|]. exists a. split; [exact Hj | lia].
  - apply Hafter; [lia | exact Hj].
Qed.

Lemma rounds_within (fuel : nat) : forall (a : nat) (m : mstate),
  in_loop a m -> loop_within a (a + 50 * fuel) (rounds d has_stop_event fuel a m).
Proof.
  induction fuel as [|fuel IH]; intros a m H; [split; [exact H | lia]|].
  cbn [rounds].
  pose proof (in_loop_stop_requested a m H) as Hs.
  destruct (stop_requested d has_stop_event m) as [stop m1]. cbn [snd] in Hs.
  destruct stop; [split; [reflexivity|]; exists a; split; [exact Hs | lia]|].
  assert (Hwiden : forall lo hi r, a <= lo -> hi <= a + 50 * S fuel ->
                                   loop_within lo hi r -> loop_within a (a + 50 * S fuel) r).
  { intros lo hi r Hlo Hhi Hr. destruct r as [x m'|x m'|code m'|x m']; cbn in *;
      try (destruct Hr as [Hr Hx]; split; [exact Hr | lia]).
    destruct Hr as [Hc (x & Hr & Hx)]. split; [exact Hc|]. exists x. split; [exact Hr | lia]. }
  unfold get_job_list_count.
  set (count1 := match card_count d (clock m1) with
                 | Some n => Nat.min n 50 | None => 0 end).
  assert (Hcount : forall c m2, c <= 50 -> in_loop a m2 ->
            loop_within a (a + 50 * S fuel)
              (if (c =? 0)%nat then rounds d has_stop_event fuel a m2
               else match jobs d has_stop_event c 0 a m2 with
                    | LoopDone a' m3 =>
                        let '(stop, m4) := stop_requested d has_stop_event m3 in
                        if stop then LoopBreak a' m4
                        else rounds d has_stop_event fuel a' m4
                    | ended => ended
                    end)).
  { intros c m2 Hc H2. destruct (c =? 0)%nat.
    { apply (Hwiden a (a + 50 * fuel)); [lia | lia | apply IH; exact H2]. }
    pose proof (jobs_within c 0 a m2 H2) as Hj.
    destruct (jobs d has_stop_event c 0 a m2) as [a' m3|a' m3|code m3|a' m3].
    - destruct Hj as [Hj Ha].
      pose proof (in_loop_stop_requested a' m3 Hj) as Hs3.
      destruct (stop_requested d has_stop_event m3) as [stop m4]. cbn [snd] in Hs3.
      destruct stop; [split; [exact Hs3 | lia]|].
      apply (Hwiden a' (a' + 50 * fuel)); [lia | lia | apply IH; exact Hs3].
    - apply (Hwiden a (a + c)); [lia | lia | exact Hj].
    - apply (Hwiden a (a + c)); [lia | lia | exact Hj].
    - apply (Hwiden a (a + c)); [lia | lia | exact Hj]. }
  assert (H50 : count1 <= 50).
  { unfold count1. destruct (card_count d (clock m1)); lia. }
  destruct (count1 =? 0)%nat eqn:E0.
  - cbn [fst snd].
    match goal with
    | |- context [match card_count d ?t with Some n => Nat.min n 50 | None => 0 end] =>
        assert (H50' : match card_count d t with Some n => Nat.min n 50 | None => 0 end <= 50)
          by (destruct (card_count d t); lia)
    end.
    apply Hcount; [exact H50' | exact Hs].
  - apply Hcount; [exact H50 | exact Hs].
Qed.

(** X12.  After [fuel] rounds, no more than 50 applications per round have been
    counted: the list is read at most 50 cards at a time. *)
Theorem applied_count_at_most_50_per_round
  (fuel : nat) (st : option run_state) (s : run_state) :
  state (machine (main d has_stop_event fuel st)) = Some s ->
  applied_count s <= 50 * fuel.
Proof.
  unfold main.
  set (m0 := {| state := option_map _ st; clock := 0; trace := [] |}).
  assert (H0 : in_loop 0 m0).
  { intros x Hx. cbn in Hx. destruct st; [|discriminate]. now injection Hx as <-. }
  assert (Hfin : forall c m1 a, in_loop a m1 -> a <= 50 * fuel ->
            state (machine (finish c (log EvCloseContext m1))) = Some s ->
            applied_count s <= 50 * fuel).
  { intros c m1 a H1 Ha Hs. cbn in Hs. destruct (state m1) as [s1|] eqn:E; [|discriminate].
    injection Hs as <-. destruct (H1 s1 E) as (_ & _ & Hc). cbn. lia. }
  destruct (startup_error d) as [msg|].
  { intros Hs. cbn in Hs. destruct st; [|discriminate]. injection Hs as <-. cbn. lia. }
  destruct (goto_search d); cbn [negb]; [|apply (Hfin 1%Z m0 0 H0); lia].
  pose proof (rounds_within fuel 0 m0 H0) as Hr.
  destruct (rounds d has_stop_event fuel 0 m0) as [a m1|a m1|c m1|a m1]; cbn in Hr.
  - destruct Hr as [Hr Ha]. apply (Hfin 0%Z m1 a Hr). lia.
  - destruct Hr as [Hr Ha]. apply (Hfin 0%Z m1 a Hr). lia.
  - destruct Hr as [_ (a & Hr & Ha)]. apply (Hfin c m1 a Hr). lia.
  - destruct Hr as [Hr Ha]. intros Hs. cbn in Hs. destruct (Hr s Hs) as (_ & _ & Hc). lia.
Qed.

End RunMore.

Lemma applied_count_at_most_50_per_round_witness :
  let st := Some {| Main.running := false; Main.applied_count := 0; Main.error := None |} in
  let s := {| Main.running := false; Main.applied_count := 1; Main.error := None |} in
  Main.state (Main.machine (Main.main limit_after_one_job false 1 st)) = Some s
  /\ Main.applied_count s <= 50 * 1.
Proof.
  intros st s.
  assert (H : Main.state (Main.machine (Main.main limit_after_one_job false 1 st)) = Some s).
  { vm_compute. reflexivity. }
  split; [exact H|].
  exact (applied_count_at_most_50_per_round limit_after_one_job false 1 st s H).
Defined.

(** ** Normalized labels *)

Section NormalizeFacts.

Lemma collapse_true (s : pystr) : collapse true s = collapse false (dropwhile isspace s).
Proof.
  induction s as [|c s IH]; [reflexivity|]. cbn.
  destruct (isspace c) eqn:E; [exact IH|]. cbn. now rewrite E.
Qed.

Lemma length_dropwhile (f : N -> bool) (s : pystr) : length (dropwhile f s) <= length s.
Proof.
  induction s as [|c s IH]; cbn; [lia|]. destruct (f c); cbn; lia.
Qed.

(** The greedy [\s+] at the head of a text takes the whole run of blanks. *)
Lemma match_rest_blanks (s : pystr) :
  Re.match_rest false (Plus Ws) s
  = match s with
    | [] => None
    | c :: s' => if isspace c then Some (dropwhile isspace s') else None
    end.
Proof.
  unfold Re.match_rest, Plus, Ws. cbn [Re.mt].
  destruct s as [|c s']; [reflexivity|].
  destruct (isspace c); [|reflexivity].
  match goal with
  | |- ?F (length s') s' = _ =>
      assert (H : forall fuel t, length t <= fuel -> F fuel t = Some (dropwhile isspace t))
  end.
  { induction fuel as [|fuel IH]; intros t Ht.
    - destruct t; [reflexivity | cbn in Ht; lia].
    - destruct t as [|x t]; [reflexivity|]. cbn [dropwhile].
      destruct (isspace x) eqn:Ex.
      + cbn [length]. replace (length t <? S (length t))%nat with true
          by (symmetry; apply Nat.ltb_lt; lia).
        rewrite IH by (cbn in Ht; lia). reflexivity.
      + reflexivity. }
  apply H. lia.
Qed.

Lemma sub_fuel_blanks (fuel : nat) : forall s,
  length s < fuel -> Re.sub_fuel fuel false (Plus Ws) (py " ") s = collapse false s.
Proof.
  induction fuel as [|fuel IH]; intros s Hs; [lia|].
  cbn [Re.sub_fuel]. rewrite match_rest_blanks.
  destruct s as [|c s']; [reflexivity|]. cbn [collapse].
  destruct (isspace c).
  - pose proof (length_dropwhile isspace s') as Hl.
    replace (length (dropwhile isspace s') <? length (c :: s'))%nat with true
      by (symmetry; apply Nat.ltb_lt; cbn; lia).
    rewrite IH by (cbn in Hs; lia). rewrite collapse_true. reflexivity.
  - rewrite IH by (cbn in Hs; lia). reflexivity.
Qed.

(** [re.sub] of [\s+] by one space is [collapse]. *)
Lemma sub_blanks (s : pystr) : Re.sub false (Plus Ws) (py " ") s = collapse false s.
Proof. unfold Re.sub. apply sub_fuel_blanks. lia. Qed.

Lemma collapse_word (w c : pystr) :
  forallb (fun x => negb (isspace x)) w = true -> w <> [] ->
  forall b, collapse b (w ++ c) = w ++ collapse false c.
Proof.
  induction w as [|x w IH]; intros Hw Hne b; [contradiction|].
  cbn in Hw. apply andb_true_iff in Hw as [Hx Hw]. apply negb_true_iff in Hx.
  cbn. rewrite Hx. f_equal.
  destruct w as [|x' w']; [reflexivity|]. apply IH; [exact Hw | discriminate].
Qed.

Lemma final_sigma_after_collapse (s : pystr) :
  final_sigma_after (collapse false s) = final_sigma_after s.
Proof.
  induction s as [|c s IH]; [reflexivity|]. cbn [collapse].
  destruct (isspace c) eqn:E.
  - rewrite (final_sigma_after_blank c s E). now apply final_sigma_after_blank.
  - unfold final_sigma_after in *. cbn [dropwhile].
    destruct (case_ignorable c); [exact IH | reflexivity].
Qed.

(** Collapsing the blanks and lowercasing commute; inside a run of blanks
    no cased character is pending. *)
Lemma collapse_lower_from (s : pystr) : forall in_run before,
  (in_run = true -> before = false) ->
  collapse in_run (lower_from before s) = lower_from before (collapse in_run s).
Proof.
  induction s as [|c s IH]; intros in_run before Hb; [reflexivity|].
  destruct (isspace c) eqn:E.
  - rewrite (lower_from_space _ _ _ E). cbn [collapse]. rewrite E.
    rewrite (IH true false) by reflexivity.
    destruct in_run.
    + now rewrite (Hb eq_refl).
    + now rewrite (lower_from_space before 32 _ eq_refl).
  - cbn [collapse lower_from]. rewrite E. cbn [lower_from].
    destruct (lower_char_nonspace before c s E) as [H1 H2].
    rewrite (collapse_word _ _ H2 H1), IH by discriminate.
    now rewrite (lower_char_rest before c _ _ (final_sigma_after_collapse s)).
Qed.

Lemma collapse_lower (b : bool) (s : pystr) : collapse b (lower s) = lower (collapse b s).
Proof. unfold lower. apply collapse_lower_from. reflexivity. Qed.

Lemma collapse_idem (s : pystr) :
  forall b, collapse false (collapse b s) = collapse b s
            /\ collapse true (collapse true s) = collapse true s.
Proof.
  induction s as [|c s IH]; intros b; [split; reflexivity|].
  destruct (IH true) as [Ht Htt]. destruct (IH false) as [Hf _].
  cbn. destruct (isspace c) eqn:E.
  - split; [|exact Htt]. destruct b; [exact Ht|].
    cbn. replace (isspace 32) with true by reflexivity. now rewrite Htt.
  - cbn. rewrite E, Hf. split; reflexivity.
Qed.

Lemma collapse_snoc (h : N) : isspace h = false ->
  forall s b, collapse b (s ++ [h]) = collapse b s ++ [h].
Proof.
  intros Hh. induction s as [|c s IH]; intros b; cbn.
  - now rewrite Hh.
  - destruct (isspace c); [destruct b|]; now rewrite IH.
Qed.

Lemma trimmed_strip (s : pystr) : trimmed (strip s).
Proof.
  unfold trimmed, strip, strip_by, lstrip_by, rstrip_by. split.
  - pose proof (dropwhile_head isspace s) as Hd.
    destruct (dropwhile isspace s) as [|h t]; [reflexivity|].
    cbn [rev]. rewrite (dropwhile_snoc isspace (rev t) h Hd), rev_app_distr.
    cbn. now rewrite Hd.
  - now rewrite rev_involutive, dropwhile_idem.
Qed.

Lemma strip_trimmed (t : pystr) : trimmed t -> strip t = t.
Proof.
  intros [H1 H2]. unfold strip, strip_by, lstrip_by, rstrip_by.
  now rewrite H1, H2, rev_involutive.
Qed.

Lemma dropwhile_fixed_head (t : pystr) :
  dropwhile isspace t = t ->
  match t with [] => True | c :: _ => isspace c = false end.
Proof.
  destruct t as [|c r]; [easy|]. cbn. destruct (isspace c) eqn:E; [|reflexivity].
  intros H. pose proof (length_dropwhile isspace r) as Hl. rewrite H in Hl. cbn in Hl. lia.
Qed.

Lemma trimmed_collapse (t : pystr) : trimmed t -> trimmed (collapse false t).
Proof.
  intros [H1 H2]. split.
  - apply dropwhile_fixed_head in H1. destruct t as [|c r]; [reflexivity|].
    cbn. rewrite H1. cbn. now rewrite H1.
  - apply dropwhile_fixed_head in H2.
    destruct (rev t) as [|h y] eqn:E; [|].
    + apply (f_equal (@rev N)) in E. rewrite rev_involutive in E. now subst t.
    + apply (f_equal (@rev N)) in E. rewrite rev_involutive in E. cbn in E. subst t.
      rewrite (collapse_snoc h H2), rev_app_distr. cbn. now rewrite H2.
Qed.

(** X13.  Normalizing a label a second time changes nothing. *)
Theorem normalize_label_idempotent (label : pystr) :
  ExperienceMap._normalize_label (ExperienceMap._normalize_label label)
  = ExperienceMap._normalize_label label
  /\ WorkAuthorization._normalize (WorkAuthorization._normalize label)
     = WorkAuthorization._normalize label.
Proof.
  assert (H : forall s,
            Re.sub false (Plus Ws) (py " ")
              (strip (lower (Re.sub false (Plus Ws) (py " ") (strip (lower s)))))
            = Re.sub false (Plus Ws) (py " ") (strip (lower s))).
  { intros s. rewrite !sub_blanks.
    rewrite <- collapse_lower, <- strip_lower, lower_idem.
    rewrite (strip_trimmed _ (trimmed_collapse _ (trimmed_strip _))).
    apply collapse_idem. }
  split; apply H.
Qed.

Lemma collapse_true_head (s : pystr) : forall y b,
  collapse true s = y :: b -> isspace y = false.
Proof.
  induction s as [|c s IH]; intros y b H; [discriminate|].
  cbn in H. destruct (isspace c) eqn:E; [exact (IH _ _ H)|].
  now injection H as <- _.
Qed.

Lemma collapse_pairs (x y : N) (b : pystr) (s : pystr) : forall fl a,
  collapse fl s = a ++ x :: y :: b -> isspace x = true ->
  x = 32%N /\ isspace y = false.
Proof.
  induction s as [|c s IH]; intros fl a H Hx; [destruct a; discriminate|].
  cbn in H. destruct (isspace c) eqn:Ec.
  - destruct fl; [exact (IH true a H Hx)|].
    destruct a as [|a0 a].
    + injection H as <- H. split; [reflexivity | exact (collapse_true_head _ _ _ H)].
    + injection H as _ H. exact (IH true a H Hx).
  - destruct a as [|a0 a].
    + injection H as <- _. rewrite Ec in Hx. discriminate.
    + injection H as _ H. exact (IH false a H Hx).
Qed.

(** X14.  A normalized label has no blank at either end, and every blank
    in it is a single space: it is the character 32, and the characters
    before and after it are not blanks. *)
Theorem normalize_label_single_spaces (label : pystr) :
  trimmed (ExperienceMap._normalize_label label)
  /\ forall (a b : pystr) (x : N),
       ExperienceMap._normalize_label label = a ++ x :: b ->
       isspace x = true ->
       x = 32%N
       /\ (exists a' p, a = a' ++ [p] /\ isspace p = false)
       /\ (exists y b', b = y :: b' /\ isspace y = false).
Proof.
  unfold ExperienceMap._normalize_label. rewrite sub_blanks.
  set (t := collapse false (strip (lower label))).
  assert (Ht : trimmed t) by apply trimmed_collapse, trimmed_strip.
  split; [exact Ht|]. intros a b x E Hx. destruct Ht as [H1 H2].
  assert (Hb : exists y b', b = y :: b').
  { destruct b as [|y b']; [|now exists y, b']. exfalso.
    apply dropwhile_fixed_head in H2. rewrite E, rev_app_distr in H2. cbn in H2.
    rewrite Hx in H2. discriminate. }
  destruct Hb as (y & b' & ->).
  destruct (collapse_pairs x y b' _ false a E Hx) as [Hx32 Hy].
  split; [exact Hx32|]. split; [|now exists y, b'].
  destruct (rev a) as [|p ra] eqn:Ea.
  - exfalso. apply (f_equal (@rev N)) in Ea. rewrite rev_involutive in Ea. cbn in Ea.
    subst a. apply dropwhile_fixed_head in H1. rewrite E in H1. cbn in H1.
    rewrite Hx in H1. discriminate.
  - apply (f_equal (@rev N)) in Ea. rewrite rev_involutive in Ea. cbn in Ea.
    exists (rev ra), p. split; [exact Ea|].
    destruct (isspace p) eqn:Ep; [|reflexivity]. exfalso.
    rewrite Ea, <- app_assoc in E. cbn in E.
    destruct (collapse_pairs p x (y :: b') _ false (rev ra) E Ep) as [_ Hn].
    rewrite Hx in Hn. discriminate.
Qed.

End NormalizeFacts.

Section ClassifierFacts.

Import Config GeminiCv CvReader WorkAuthorization ExperienceMap.

(** X15.  The three classifiers of a label do not look at the case of its
    letters. *)
Theorem classifiers_ignore_case (cfg : Config.t) (label : pystr) :
  get_years_for_question (lower label) = get_years_for_question label
  /\ is_yes_no_experience_question (lower label) = is_yes_no_experience_question label
  /\ get_work_authorization_answer cfg (lower label)
     = get_work_authorization_answer cfg label.
Proof.
  assert (Hn : _normalize_label (lower label) = _normalize_label label).
  { unfold _normalize_label. now rewrite lower_idem. }
  assert (Hw : _normalize (lower label) = _normalize label).
  { unfold _normalize. now rewrite lower_idem. }
  repeat split.
  - unfold get_years_for_question. now rewrite truthy_lower, Hn.
  - unfold is_yes_no_experience_question. now rewrite truthy_lower, Hn.
  - unfold get_work_authorization_answer, is_work_authorization_question.
    now rewrite truthy_lower, Hw.
Qed.









End ClassifierFacts.


(** ** Absent skills *)

Section AbsentSkillFacts.

Import Config GeminiCv CvReader WorkAuthorization ExperienceMap.






End AbsentSkillFacts.



(** ** Prepared answers, dropdowns and choice widgets *)

Section FormAnswerFacts.

Import Config GeminiCv CvReader ApplierForms.

Lemma eqb_true : forall a b : pystr, PyStr.eqb a b = true -> a = b.
Proof.
  induction a as [|x a IH]; destruct b as [|y b]; cbn; intros H;
    try discriminate; [reflexivity|].
  apply andb_prop in H as [Hx Hr]. apply N.eqb_eq in Hx. subst y.
  f_equal. apply IH, Hr.
Qed.

Lemma eqb_same (a : pystr) : PyStr.eqb a a = true.
Proof. induction a as [|x a IH]; cbn; [reflexivity|]. now rewrite N.eqb_refl. Qed.

Lemma contains_same (s : pystr) : contains s s = true.
Proof. rewrite <- (app_nil_r s) at 2. apply contains_here. Qed.

Lemma contains_empty (s : pystr) : contains [] s = true.
Proof. destruct s; reflexivity. Qed.

Lemma dict_get_found (V : Type) (k : pystr) (d : dict V) (kv : pystr * option V) :
  find (fun kv => PyStr.eqb (fst kv) k) d = Some kv -> In kv d /\ fst kv = k.
Proof.
  intros H. destruct (find_some _ _ H) as [Hin He]. split; [exact Hin|].
  apply eqb_true, He.
Qed.

(** X17.  The last line of [_find_answer_for_question] never gives a value: when
    it is reached, neither the label nor its normalised key is a key of the
    dictionary.  So the answer is the value at the normalised key, else the
    value of the first item whose key stands in the label or holds it, case
    ignored, else nothing. *)
Theorem find_answer_last_lookup_is_idle
  (V : Type) (truthy_value : V -> bool) (question_label : pystr) (form_answers : dict V) :
  _find_answer_for_question truthy_value question_label form_answers
  = (let norm := _normalize_question_key question_label in
     if truthy norm && dict_has norm form_answers then dict_get norm form_answers
     else match find (key_matches question_label) form_answers with
          | Some kv => snd kv
          | None => None
          end).
Proof.
  unfold _find_answer_for_question. cbv zeta.
  destruct (truthy (_normalize_question_key question_label)
            && dict_has (_normalize_question_key question_label) form_answers) eqn:E;
    [reflexivity|].
  destruct (find (key_matches question_label) form_answers) as [kv|] eqn:Ef; [reflexivity|].
  assert (Hq : dict_get question_label form_answers = None).
  { unfold dict_get.
    destruct (find (fun kv => PyStr.eqb (fst kv) question_label) form_answers)
      as [kv|] eqn:Eg; [|reflexivity].
    destruct (dict_get_found _ _ _ _ Eg) as [Hin Hk].
    pose proof (find_none _ _ Ef kv Hin) as Hn. unfold key_matches in Hn.
    rewrite Hk, contains_same in Hn. discriminate. }
  assert (Hn : dict_get (_normalize_question_key question_label) form_answers = None).
  { unfold dict_get.
    destruct (find (fun kv => PyStr.eqb (fst kv) (_normalize_question_key question_label))
                   form_answers) as [kv|] eqn:Eg; [|reflexivity].
    destruct (dict_get_found _ _ _ _ Eg) as [Hin Hk].
    destruct (_normalize_question_key question_label) as [|c norm] eqn:En.
    - pose proof (find_none _ _ Ef kv Hin) as Hn. unfold key_matches in Hn.
      rewrite Hk in Hn. cbn [lower map] in Hn. rewrite contains_empty in Hn. discriminate.
    - cbn [truthy andb] in E. unfold dict_has in E.
      assert (Hex : existsb (fun kv => PyStr.eqb (fst kv) (c :: norm)) form_answers = true).
      { apply existsb_exists. exists kv. split; [exact Hin|]. rewrite Hk. apply eqb_same. }
      rewrite Hex in E. discriminate. }
  rewrite Hq, Hn. reflexivity.
Qed.

(** A field without a label is given the first prepared answer, whatever
    its key. *)
Theorem unlabelled_field_gets_first_prepared_answer
  (V : Type) (truthy_value : V -> bool) (key : pystr) (value : option V) (rest : dict V) :
  _find_answer_for_question truthy_value [] ((key, value) :: rest) = value.
Proof.
  unfold _find_answer_for_question, _normalize_question_key. cbn [truthy negb andb].
  cbn [find]. unfold key_matches. cbn [fst snd lower map].
  rewrite contains_empty, orb_true_r. reflexivity.
Qed.










End FormAnswerFacts.

Lemma select_value_is_a_real_option_example :
  fst (ApplierForms.select_value Config.defaults no_providers no_files [] 7
         (py "Are you legally authorized to work in Canada?")
         [Some (py "Select an option"); Some (py " Yes "); Some (py "No"); None]
         CvReader.initial_state)
  = Some (py "No").
Proof. vm_compute. reflexivity. Qed.



(** ** The steps of the application wizard *)

Section WizardFacts.

Import ApplierForms WizardSteps.

Lemma in_snoc (A : Type) (x y : A) (l : list A) : In x (l ++ [y]) <-> In x l \/ x = y.
Proof.
  rewrite in_app_iff. cbn. split; [intros [H|[H|[]]]; auto | intros [H|H]; auto].
Qed.

(** One step of the loop, by the readings of the step. *)
Lemma wizard_step (v : wizard_view) (n i : nat) (done : list wizard_event) :
  ~ In WzSubmit done ->
  let s := step_at v i in
  if advances s
  then wizard_steps v (S n) i done = wizard_steps v n (S i) (done ++ [WzFillPass])
  else if stalls s
  then wizard_steps v (S n) i done = (Gives true, done ++ [WzFillPass])
  else ~ unsent_success (wizard_steps v (S n) i done).
Proof.
  intros Hd. cbv zeta. unfold advances, stalls, reaches_buttons, unsent_success.
  cbn [wizard_steps].
  destruct (fill_questions (step_at v i)) as [u|msg]; cbn [ok andb];
    [|intros [H _]; discriminate].
  destruct (validation_errors (step_at v i)); cbn [negb andb];
    [intros [H _]; discriminate|].
  destruct (submit_clicked (step_at v i)); cbn [negb andb].
  { intros [_ H]. apply H. cbn [snd]. apply in_snoc. now right. }
  destruct (verify_visible (step_at v i)) as [[|]|msg]; cbn [shows hidden negb andb orb].
  - destruct (verify_click (step_at v i)) as [u'|msg]; cbn [ok]; [reflexivity|].
    intros [H _]. discriminate.
  - destruct (next_visible (step_at v i)) as [[|]|msg]; cbn [shows hidden negb andb orb].
    + destruct (next_click (step_at v i)) as [u'|msg]; cbn [ok]; [reflexivity|].
      intros [H _]. discriminate.
    + reflexivity.
    + intros [H _]. discriminate.
  - intros [H _]. discriminate.
Qed.

Lemma advances_not_stalls (s : step_view) : advances s = true -> stalls s = false.
Proof.
  unfold advances, stalls. destruct (reaches_buttons s); [|discriminate]. cbn [andb].
  destruct (verify_visible s) as [[|]|msg]; cbn; try reflexivity; try discriminate.
  destruct (next_visible s) as [[|]|msg]; cbn; try reflexivity; discriminate.
Qed.

Lemma wizard_steps_unsent (v : wizard_view) : forall (n i : nat) (done : list wizard_event),
  ~ In WzSubmit done ->
  unsent_success (wizard_steps v n i done)
  <-> exists k, k <= n
                /\ (forall j, j < k -> advances (step_at v (i + j)) = true)
                /\ (k < n -> stalls (step_at v (i + k)) = true).
Proof.
  induction n as [|n IH]; intros i done Hd.
  - cbn [wizard_steps]. split.
    + intros _. exists 0. split; [lia|]. split; intros; lia.
    + intros _. split; [reflexivity | exact Hd].
  - pose proof (wizard_step v n i done Hd) as Hs. cbv zeta in Hs.
    assert (Hd' : ~ In WzSubmit (done ++ [WzFillPass])).
    { intros H. apply in_snoc in H. destruct H as [H|H]; [auto | discriminate]. }
    destruct (advances (step_at v i)) eqn:Ea.
    + rewrite Hs, (IH (S i) _ Hd'). split.
      * intros [k [Hk [Hadv Hst]]]. exists (S k). split; [lia|]. split.
        -- intros [|j] Hj; [now rewrite Nat.add_0_r|].
           replace (i + S j) with (S i + j) by lia. apply Hadv. lia.
        -- intros Hlt. replace (i + S k) with (S i + k) by lia. apply Hst. lia.
      * intros [[|k] [Hk [Hadv Hst]]].
        -- rewrite Nat.add_0_r, (advances_not_stalls _ Ea) in Hst.
           assert (Hf : false = true) by (apply Hst; lia). discriminate.
        -- exists k. split; [lia|]. split.
           ++ intros j Hj. replace (S i + j) with (i + S j) by lia. apply Hadv. lia.
           ++ intros Hlt. replace (S i + k) with (i + S k) by lia. apply Hst. lia.
    + destruct (stalls (step_at v i)) eqn:Est.
      * rewrite Hs. split.
        -- intros _. exists 0. split; [lia|]. split; [intros; lia|].
           intros _. now rewrite Nat.add_0_r.
        -- intros _. split; [reflexivity | exact Hd'].
      * split; [intros H; contradiction|].
        intros [[|k] [Hk [Hadv Hst]]].
        -- rewrite Nat.add_0_r, Est in Hst.
           assert (Hf : false = true) by (apply Hst; lia). discriminate.
        -- specialize (Hadv 0). rewrite Nat.add_0_r, Ea in Hadv.
           assert (Hf : false = true) by (apply Hadv; lia). discriminate.
Qed.

(** X20.  Once past the contact step, the wizard reports an application as made
    although no submit button was clicked exactly when the steps ran out: each
    of the first [k] steps went on through Verify or Next, and either these
    were all twelve, or step [k] showed neither button. *)
Theorem wizard_success_without_submit (v : wizard_view) (u : unit) :
  modal_appears v = true ->
  submit_at_once v = false ->
  first_next_click v = Gives u ->
  unsent_success (fill_contact_and_click_suivant v)
  <-> exists k, k <= 12
                /\ (forall j, j < k -> advances (step_at v j) = true)
                /\ (k < 12 -> stalls (step_at v k) = true).
Proof.
  intros Hm Hs Hn. unfold fill_contact_and_click_suivant. rewrite Hm, Hs, Hn. cbn [negb].
  apply (wizard_steps_unsent v 12 0 []). intros [].
Qed.

Lemma events_ok_plain (n : nat) (r : outcome bool) (more : list wizard_event) :
  (forall x, In x more -> x = WzFillPass) -> length more <= n -> events_ok n r more.
Proof.
  intros Hall Hlen.
  assert (Hs : ~ In WzSubmit more) by (intros H; apply Hall in H; discriminate).
  assert (Hc : ~ In WzCloseModal more) by (intros H; apply Hall in H; discriminate).
  assert (H0 : count_event WzSubmit more = 0).
  { clear Hlen Hs Hc. induction more as [|x more IH]; [reflexivity|].
    rewrite (Hall x (or_introl eq_refl)). cbn. apply IH.
    intros y Hy. apply Hall. now right. }
  unfold events_ok. split.
  - unfold count_event. etransitivity; [apply filter_length_le | exact Hlen].
  - split; [lia|]. split; [intros H; contradiction|]. split; [intros H; contradiction|].
    intros _. exact Hs.
Qed.

Lemma events_ok_more (n : nat) (r : outcome bool) (more : list wizard_event) :
  events_ok n r more -> events_ok (S n) r (WzFillPass :: more).
Proof.
  intros [Hf [Hsub [Hs [Hc Hn]]]]. unfold events_ok.
  split; [unfold count_event in *; cbn in *; lia|].
  split; [unfold count_event in *; cbn in *; lia|]. split; [|split].
  - intros [H|H]; [discriminate|]. destruct (Hs H) as [Hr [pre Hp]].
    split; [exact Hr|]. exists (WzFillPass :: pre). now rewrite Hp.
  - intros [H|H]; [discriminate|]. destruct (Hc H) as [Hr [pre Hp]].
    split; [exact Hr|]. exists (WzFillPass :: pre). now rewrite Hp.
  - intros Hr [H|H]; [discriminate|]. exact (Hn Hr H).
Qed.

Lemma events_ok_submit (n : nat) : events_ok (S n) (Gives true) [WzFillPass; WzSubmit].
Proof.
  unfold events_ok. split; [cbn; lia|]. split; [cbn; lia|]. split; [|split].
  - intros _. split; [reflexivity | now exists [WzFillPass]].
  - intros [H|[H|[]]]; discriminate.
  - discriminate.
Qed.

Lemma events_ok_close (n : nat) : events_ok (S n) (Gives false) [WzFillPass; WzCloseModal].
Proof.
  unfold events_ok. split; [cbn; lia|]. split; [cbn; lia|]. split; [|split].
  - intros [H|[H|[]]]; discriminate.
  - intros _. split; [reflexivity | now exists [WzFillPass]].
  - intros _ [H|[H|[]]]; discriminate.
Qed.

Lemma wizard_steps_events (v : wizard_view) : forall (n i : nat) (done : list wizard_event),
  exists more,
    snd (wizard_steps v n i done) = done ++ more
    /\ events_ok n (fst (wizard_steps v n i done)) more.
Proof.
  induction n as [|n IH]; intros i done.
  - exists []. cbn [wizard_steps fst snd]. rewrite app_nil_r. split; [reflexivity|].
    apply events_ok_plain; [intros x [] | cbn; lia].
  - cbn [wizard_steps].
    assert (Hquiet : forall r : outcome bool,
               exists more, done = done ++ more /\ events_ok (S n) r more).
    { intros r. exists []. rewrite app_nil_r. split; [reflexivity|].
      apply events_ok_plain; [intros x [] | cbn; lia]. }
    assert (Hpass : forall r : outcome bool,
               exists more, done ++ [WzFillPass] = done ++ more /\ events_ok (S n) r more).
    { intros r. exists [WzFillPass]. split; [reflexivity|].
      apply events_ok_plain; [|cbn; lia]. intros x [H|[]]. now symmetry. }
    assert (Hnext : exists more,
               snd (wizard_steps v n (S i) (done ++ [WzFillPass])) = done ++ more
               /\ events_ok (S n) (fst (wizard_steps v n (S i) (done ++ [WzFillPass]))) more).
    { destruct (IH (S i) (done ++ [WzFillPass])) as [more [E Hok]].
      exists (WzFillPass :: more). split; [rewrite E, <- app_assoc; reflexivity|].
      apply events_ok_more, Hok. }
    destruct (fill_questions (step_at v i)) as [u|msg]; [|cbn [fst snd]; apply Hquiet].
    destruct (validation_errors (step_at v i)).
    { exists [WzFillPass; WzCloseModal]. cbn [fst snd].
      split; [now rewrite <- app_assoc | apply events_ok_close]. }
    destruct (submit_clicked (step_at v i)).
    { exists [WzFillPass; WzSubmit]. cbn [fst snd].
      split; [now rewrite <- app_assoc | apply events_ok_submit]. }
    destruct (verify_visible (step_at v i)) as [[|]|msg]; cbn [fst snd].
    + destruct (verify_click (step_at v i)) as [u'|msg]; [exact Hnext | apply Hpass].
    + destruct (next_visible (step_at v i)) as [[|]|msg]; cbn [fst snd].
      * destruct (next_click (step_at v i)) as [u'|msg]; [exact Hnext | apply Hpass].
      * apply Hpass.
      * apply Hpass.
    + apply Hpass.
Qed.

(** X21.  What the wizard does in the modal, whatever the page shows: it fills
    the questions at most twelve times, it clicks a submit button at most
    once, and a submit click is the last thing it does and is reported as
    success; it closes the modal itself only as its last act, and then
    reports failure.  A failure is never reported after a submit. *)
Theorem wizard_submits_once_and_last (v : wizard_view) :
  let r := fill_contact_and_click_suivant v in
  count_event WzFillPass (snd r) <= 12
  /\ count_event WzSubmit (snd r) <= 1
  /\ (In WzSubmit (snd r) -> fst r = Gives true /\ exists pre, snd r = pre ++ [WzSubmit])
  /\ (In WzCloseModal (snd r) ->
      fst r = Gives false /\ exists pre, snd r = pre ++ [WzCloseModal])
  /\ (fst r = Gives false -> ~ In WzSubmit (snd r)).
Proof.
  cbv zeta. change (events_ok 12 (fst (fill_contact_and_click_suivant v))
                              (snd (fill_contact_and_click_suivant v))).
  unfold fill_contact_and_click_suivant.
  destruct (modal_appears v); cbn [negb fst snd];
    [|apply events_ok_plain; [intros x [] | cbn; lia]].
  destruct (submit_at_once v); cbn [fst snd].
  { unfold events_ok. split; [cbn; lia|]. split; [cbn; lia|]. split; [|split].
    - intros _. split; [reflexivity | now exists []].
    - intros [H|[]]; discriminate.
    - discriminate. }
  destruct (first_next_click v) as [u|msg]; cbn [fst snd];
    [|apply events_ok_plain; [intros x [] | cbn; lia]].
  destruct (wizard_steps_events v 12 0 []) as [more [E Hok]].
  cbn [app] in E. rewrite E. exact Hok.
Qed.

End WizardFacts.

Lemma wizard_success_without_submit_witness :
  WizardSteps.unsent_success
    (ApplierForms.fill_contact_and_click_suivant WizardSteps.blank_wizard).
Proof.
  refine (proj2 (wizard_success_without_submit WizardSteps.blank_wizard tt
                   eq_refl eq_refl eq_refl) _).
  exists 0. split; [lia|]. split; [intros j Hj; lia|]. intros _. reflexivity.
Defined.


(** ** Why a run ends *)

Section RunReasonFacts.

Import Main.

Variable d : driver.
Variable has_stop_event : bool.

(** X23.  With no stop event, on a page that never shows one of the daily-limit
    phrases, a run that has started is still in its loop after any number of
    rounds. *)
Theorem main_runs_until_limit_or_stop (fuel : nat) (st : option run_state) :
  startup_error d = None ->
  goto_search d = true ->
  has_stop_event = false ->
  (forall t text, body_text d t = Some text -> any_in DAILY_LIMIT_PHRASES text = false) ->
  exists m, main d has_stop_event fuel st = Running m.
Proof.
  intros Hstart Hgoto Hstop Hbody.
  assert (Hq : forall m0, fst (page_has_daily_limit_message d m0) = false).
  { intros m0. unfold page_has_daily_limit_message. cbn [fst].
    destruct (body_text d (clock m0)) as [text|] eqn:E; [|reflexivity].
    rewrite (Hbody _ _ E). now destruct (negb (truthy text)). }
  assert (Hs : forall m0, stop_requested d has_stop_event m0 = (false, m0)).
  { intros m0. unfold stop_requested. now rewrite Hstop. }
  assert (Hjob : forall i a m0 code m', job_try d i a m0 <> JobReturn code m').
  { intros i a m0 code m'. unfold job_try.
    destruct (select_card d (clock m0) i); cbn [negb]; [|discriminate].
    pose proof (Hq (tick m0)) as H1.
    destruct (page_has_daily_limit_message d (tick m0)) as [l1 m1]. cbn [fst] in H1.
    subst l1. destruct (click_apply d (clock m1)); cbn [negb]; [|discriminate].
    pose proof (Hq (tick m1)) as H2.
    destruct (page_has_daily_limit_message d (tick m1)) as [l2 m2]. cbn [fst] in H2.
    subst l2. destruct (fill_contact d (clock m2)) as [applied|msg]; [|discriminate].
    pose proof (Hq (tick m2)) as H3.
    destruct (page_has_daily_limit_message d (tick m2)) as [l3 m3]. cbn [fst] in H3.
    subst l3. destruct applied; discriminate. }
  assert (Hjobs : forall n i a m0,
            exists a' m', jobs d has_stop_event n i a m0 = LoopDone a' m').
  { induction n as [|n IH]; intros i a m0; [now exists a, m0|]. cbn [jobs].
    pose proof (Hjob i a m0) as Hj.
    destruct (job_try d i a m0) as [a' m'|a' m'|code m'|msg m'].
    - cbv zeta. rewrite Hs. apply IH.
    - apply IH.
    - exfalso. apply (Hj code m'). reflexivity.
    - cbv zeta. rewrite Hs. apply IH. }
  assert (Hrounds : forall f a m0,
            exists a' m', rounds d has_stop_event f a m0 = LoopRunning a' m').
  { induction f as [|f IH]; intros a m0; [now exists a, m0|]. cbn [rounds].
    rewrite Hs. destruct (get_job_list_count d m0) as [count m1].
    destruct (if (count =? 0)%nat then get_job_list_count d m1 else (count, m1))
      as [count' m2].
    destruct (count' =? 0)%nat; [apply IH|].
    destruct (Hjobs count' 0 a m2) as [a' [m' E]]. rewrite E, Hs. apply IH. }
  unfold main. rewrite Hstart, Hgoto. cbn [negb].
  match goal with |- context [rounds d has_stop_event fuel 0 ?m0] =>
    destruct (Hrounds fuel 0 m0) as [a' [m' E]] end.
  rewrite E. now exists m'.
Qed.

End RunReasonFacts.

Lemma main_runs_until_limit_or_stop_witness :
  exists m, Main.main no_jobs_ever false 3 None = Main.Running m.
Proof.
  apply (main_runs_until_limit_or_stop no_jobs_ever false 3 None);
    try reflexivity.
  intros t text H. injection H as <-. vm_compute. reflexivity.
Defined.

(** ** From the setup form to the settings *)

Section SetupFacts.

Import Config WebApp.

Lemma not_blank_strip (s : pystr) : not_blank (strip s).
Proof.
  unfold not_blank. rewrite strip_idem. intros H Hn. rewrite Hn in H. discriminate.
Qed.

Lemma stripped_or_set (x : pystr) (default : string) :
  strip (py default) <> [] ->
  stripped_or x default <> [] <-> not_blank x.
Proof.
  intros Hd. unfold stripped_or, not_blank. destruct (truthy x).
  - split; [intros H _; exact H | intros H; now apply H].
  - split; [intros _ H; discriminate | intros _; exact Hd].
Qed.

Lemma strip_or_empty (x : pystr) : strip (if truthy x then x else []) = strip x.
Proof. now destruct x. Qed.

(** The settings that the answers depend on, after a setup. *)
Lemma settings_after_setup_fields (f : setup_form) (abs_path : pystr)
  (env : string -> option pystr) :
  let cfg := from_env (snd (apply_overrides (overrides_file (setup_payload f abs_path))
                                            env)) in
  WORK_AUTHORIZATION_ANSWER cfg = stripped_or (work_authorization_answer f) "No"
  /\ WORK_NEED_SPONSORSHIP_ANSWER cfg = stripped_or (work_need_sponsorship_answer f) "Yes"
  /\ DEFAULT_LOCATION_CITY cfg = strip (default_location_city f)
  /\ NOTICE_PERIOD_DEFAULT cfg = getenv env "NOTICE_PERIOD_DEFAULT" "3 months"
  /\ EASY_APPLY_FIRST_NAME cfg = strip (easy_apply_first_name f)
  /\ EASY_APPLY_LAST_NAME cfg = strip (easy_apply_last_name f)
  /\ (exists x, EASY_APPLY_CURRENT_COMPANY cfg = strip x)
  /\ (exists x, EASY_APPLY_CURRENT_TITLE cfg = strip x)
  /\ (exists x, EASY_APPLY_GENDER cfg = strip x).
Proof.
  cbv zeta. unfold setup_payload.
  destruct (truthy (stripped_or (gemini_api_key f) EmptyString));
    destruct (truthy (stripped_or (groq_api_key f) EmptyString));
    (split; [reflexivity|]); (split; [reflexivity|]);
    (split; [apply strip_or_empty|]); (split; [reflexivity|]);
    (split; [transitivity (strip (stripped_or (easy_apply_first_name f) EmptyString));
             [reflexivity|]; unfold stripped_or; change (py EmptyString) with (@nil N);
             now rewrite strip_idem, strip_or_empty|]);
    (split; [transitivity (strip (stripped_or (easy_apply_last_name f) EmptyString));
             [reflexivity|]; unfold stripped_or; change (py EmptyString) with (@nil N);
             now rewrite strip_idem, strip_or_empty|]);
    repeat split; eexists; reflexivity.
Qed.

(** X24.  After a setup through the web form, the settings that answers are
    taken from are filled, so that every label that is not blank gets an
    answer that is not empty, exactly when neither of the two work answers
    typed in the form is made of blanks only, nor the notice period of the
    environment.  A work answer left empty takes its default, No and Yes; the
    city and the two names are what was typed, stripped, so that left empty
    they are empty and not the defaults of [config.py]. *)
Theorem setup_form_fills_settings (f : setup_form) (abs_path : pystr)
  (env : string -> option pystr) (cfg : Config.t) :
  settings_after_setup f abs_path env = Some cfg ->
  (settings_filled cfg
   <-> not_blank (work_authorization_answer f)
       /\ not_blank (work_need_sponsorship_answer f)
       /\ not_blank (getenv env "NOTICE_PERIOD_DEFAULT" "3 months"))
  /\ (work_authorization_answer f = [] -> WORK_AUTHORIZATION_ANSWER cfg = py "No")
  /\ (work_need_sponsorship_answer f = [] -> WORK_NEED_SPONSORSHIP_ANSWER cfg = py "Yes")
  /\ DEFAULT_LOCATION_CITY cfg = strip (default_location_city f)
  /\ EASY_APPLY_FIRST_NAME cfg = strip (easy_apply_first_name f)
  /\ EASY_APPLY_LAST_NAME cfg = strip (easy_apply_last_name f).
Proof.
  unfold settings_after_setup, api_setup_post.
  destruct (negb (truthy (cv_filename f)) || _); [discriminate|]. intros H.
  assert (E : from_env (snd (apply_overrides (overrides_file (setup_payload f abs_path))
                                             env)) = cfg) by congruence.
  clear H. subst cfg.
  destruct (settings_after_setup_fields f abs_path env)
    as (Hw & Hs & Hc & Hn & H1 & H2 & [x3 H3] & [x4 H4] & [x5 H5]).
  cbv zeta in *.
  assert (Dno : strip (py "No") <> []) by (vm_compute; discriminate).
  assert (Dyes : strip (py "Yes") <> []) by (vm_compute; discriminate).
  split; [split|].
  - intros F. pose proof (work_answer_set F) as Fw.
    pose proof (sponsorship_answer_set F) as Fs. pose proof (notice_not_blank F) as Fn.
    rewrite Hw in Fw. rewrite Hs in Fs. rewrite Hn in Fn.
    split; [apply (stripped_or_set _ "No" Dno), Fw|].
    split; [apply (stripped_or_set _ "Yes" Dyes), Fs | exact Fn].
  - intros (Fw & Fs & Fn). split.
    + rewrite Hw. apply (stripped_or_set _ "No" Dno), Fw.
    + rewrite Hs. apply (stripped_or_set _ "Yes" Dyes), Fs.
    + rewrite Hc. apply not_blank_strip.
    + rewrite Hn. exact Fn.
    + rewrite H1. apply not_blank_strip.
    + rewrite H2. apply not_blank_strip.
    + rewrite H3. apply not_blank_strip.
    + rewrite H4. apply not_blank_strip.
    + rewrite H5. apply not_blank_strip.
  - split; [intros E; rewrite Hw, E; reflexivity|].
    split; [intros E; rewrite Hs, E; reflexivity|].
    split; [exact Hc|]. split; [exact H1 | exact H2].
Qed.

End SetupFacts.

Lemma setup_form_fills_settings_witness :
  exists cfg,
    WebApp.settings_after_setup filled_form (py "/data/uploads/resume.pdf") (fun _ => None)
    = Some cfg
    /\ settings_filled cfg
    /\ Config.WORK_NEED_SPONSORSHIP_ANSWER cfg = py "Yes"
    /\ Config.EASY_APPLY_FIRST_NAME cfg = py "Ada".
Proof.
  eexists. split; [vm_compute; reflexivity|].
  destruct (setup_form_fills_settings filled_form (py "/data/uploads/resume.pdf")
              (fun _ => None) _ ltac:(vm_compute; reflexivity))
    as (Hfilled & _ & Hs & _ & Hf & _).
  split; [|split].
  - apply Hfilled. split; [|split]; intros H;
      first [vm_compute in H; discriminate H | vm_compute; discriminate].
  - apply Hs. reflexivity.
  - rewrite Hf. vm_compute. reflexivity.
Defined.


(** ** The Dify workflow *)

Section DifyFacts.

Import DifyClient.

Variable DIFY_API_KEY : pystr.
Variable DIFY_BASE_URL : pystr.
Variable upper : pystr -> pystr.
Variable loads : pystr -> option json.
Variable post : pystr -> post_result.
Variable poll : nat -> poll_result.

Lemma sound_skip (e : error_info) : sound (skip e).
Proof. split; [now right|]. intros _. split; reflexivity. Qed.

Lemma sound_without_error (a : pystr) (f : json) :
  a = py "PROCEED" \/ a = py "SKIP" ->
  sound {| apply_status := a; form_answers := f; error := None |}.
Proof. intros H. split; [exact H|]. intros E. now contradiction E. Qed.

Lemma status_of_ok (outputs : json) (a : pystr) :
  status_of upper outputs = Ok a -> a = py "PROCEED" \/ a = py "SKIP".
Proof.
  unfold status_of, bind. destruct (get "apply_status" outputs) as [v|e]; [|discriminate].
  destruct (or_json v (JStr (py "SKIP"))); try discriminate.
  destruct (PyStr.eqb (upper (strip s)) (py "PROCEED")) eqn:Ep; cbn [orb].
  - intros [= <-]. left. apply eqb_true, Ep.
  - destruct (PyStr.eqb (upper (strip s)) (py "SKIP")) eqn:Es; intros [= <-].
    + right. apply eqb_true, Es.
    + now right.
Qed.

Lemma poll_loop_sound (n : nat) : forall i : nat,
  snd (poll_loop upper loads poll n i) <= i + n
  /\ forall r, fst (poll_loop upper loads poll n i) = Some (Ok r) -> sound r.
Proof.
  induction n as [|n IH]; intros i; cbn [poll_loop].
  - split; [cbn; lia | discriminate].
  - assert (Hnext : snd (poll_loop upper loads poll n (S i)) <= i + S n
                    /\ forall r, fst (poll_loop upper loads poll n (S i)) = Some (Ok r)
                                 -> sound r).
    { destruct (IH (S i)) as [Hk Hs]. split; [lia | exact Hs]. }
    destruct (poll i) as [|detail]; [exact Hnext|].
    destruct (get "status" detail) as [st|e]; [|split; [cbn; lia | discriminate]].
    destruct (is_str "succeeded" st).
    { split; [cbn; lia|]. cbn [fst]. intros r. unfold bind.
      destruct (get "outputs" detail) as [outputs|e]; [|discriminate].
      destruct (status_of upper (or_json outputs (JObj []))) as [a|e] eqn:Ea; [|discriminate].
      destruct (get "form_answers" (or_json outputs (JObj []))) as [f|e]; [|discriminate].
      intros [= <-]. apply sound_without_error, (status_of_ok _ _ Ea). }
    destruct (is_str "failed" st || is_str "stopped" st); [|exact Hnext].
    split; [cbn; lia|]. cbn [fst]. intros r. unfold bind.
    destruct (lookup "error" detail) as [x|e]; [|discriminate].
    intros [= <-]. apply sound_skip.
Qed.

(** X25.  Whatever the workflow service sends back, an answer that
    [call_dify_brain] returns has the status PROCEED or SKIP, and with an
    error it is SKIP without form answers; the run detail is polled at most 60
    times, and nothing is requested when the key or the base URL is not
    set. *)
Theorem dify_answer_is_proceed_or_skip (job_text : pystr) (r : answer) (reqs : requests) :
  call_dify_brain DIFY_API_KEY DIFY_BASE_URL upper loads post poll job_text = (Ok r, reqs) ->
  sound r
  /\ polls reqs <= 60
  /\ (truthy DIFY_API_KEY && truthy DIFY_BASE_URL = false ->
      posted reqs = false /\ polls reqs = 0 /\ error r = Some MissingConfig).
Proof.
  unfold call_dify_brain.
  destruct (truthy DIFY_API_KEY); cbn [negb orb andb];
    [|intros [= <- <-]; split; [apply sound_skip|]; split; [cbn; lia|];
      intros _; repeat split].
  destruct (truthy DIFY_BASE_URL); cbn [negb];
    [|intros [= <- <-]; split; [apply sound_skip|]; split; [cbn; lia|];
      intros _; repeat split].
  destruct (post job_text) as [msg|e|data].
  - intros [= <- <-]. split; [apply sound_skip|]. split; [cbn; lia | discriminate].
  - discriminate.
  - unfold bind. destruct (get "data" data) as [dt|e]; [|discriminate].
    destruct (get "status" (or_json dt data)) as [status|e]; [|discriminate].
    destruct (get "outputs" (or_json dt data)) as [outputs|e]; [|discriminate].
    destruct (is_str "succeeded" status).
    { destruct (status_of upper (or_json outputs (JObj []))) as [a|e] eqn:Ea; [|discriminate].
      destruct (get "form_answers" (or_json outputs (JObj []))) as [f|e]; [|discriminate].
      intros [= <- <-]. split; [apply sound_without_error, (status_of_ok _ _ Ea)|].
      split; [cbn; lia | discriminate]. }
    destruct (get "task_id" data) as [t|e]; [|discriminate].
    destruct (get "workflow_run_id" data) as [w|e]; [|discriminate].
    destruct (truthy_json (or_json t w) && is_str "running" status).
    + destruct (poll_loop_sound 60 0) as [Hk Hs].
      destruct (poll_loop upper loads poll 60 0) as [[res|] k]; cbn [fst snd] in *.
      * intros [= -> <-]. split; [apply Hs; reflexivity|]. split; [cbn; lia | discriminate].
      * intros [= <- <-]. split; [apply sound_skip|]. split; [cbn; lia | discriminate].
    + intros [= <- <-]. split; [apply sound_skip|]. split; [cbn; lia | discriminate].
Qed.

End DifyFacts.

Lemma dify_answer_is_proceed_or_skip_witness :
  let call := DifyClient.call_dify_brain (py "app-key") (py "https://api.dify.ai/v1")
                DifyClient.upper_ascii (fun _ => None) DifyClient.proceeding_workflow
                (fun _ => DifyClient.PollFails) (py "Java developer in Montreal") in
  exists r reqs,
    call = (DifyClient.Ok r, reqs)
    /\ DifyClient.apply_status r = py "PROCEED"
    /\ DifyClient.sound r.
Proof.
  cbv zeta. eexists. eexists. split; [vm_compute; reflexivity|].
  split; [vm_compute; reflexivity|].
  refine (proj1 (dify_answer_is_proceed_or_skip (py "app-key") (py "https://api.dify.ai/v1")
                   DifyClient.upper_ascii (fun _ => None) DifyClient.proceeding_workflow
                   (fun _ => DifyClient.PollFails) (py "Java developer in Montreal")
                   _ _ _)).
  vm_compute. reflexivity.
Defined.


(** ** A stop request ends the run *)

Section StopFacts.

Import Main.

Variable d : driver.

Lemma job_try_clock (i a : nat) (m : mstate) :
  match job_try d i a m with
  | JobDone _ m' | JobContinue _ m' | JobRaises _ m' => clock m <= clock m'
  | JobReturn code _ => code = 0%Z
  end.
Proof.
  unfold job_try, page_has_daily_limit_message, daily_limit_stop.
  destruct (select_card d (clock m) i); cbn [negb]; [|cbn; lia].
  match goal with |- context [if ?b then JobReturn _ _ else _] => destruct b end;
    [reflexivity|].
  destruct (click_apply d _); cbn [negb]; [|cbn; lia].
  match goal with |- context [if ?b then JobReturn _ _ else _] => destruct b end;
    [reflexivity|].
  destruct (fill_contact d _) as [applied|msg]; [|cbn; lia].
  match goal with |- context [if ?b then JobReturn _ _ else _] => destruct b end;
    [reflexivity|].
  destruct applied; cbn; lia.
Qed.

Lemma jobs_clock (n : nat) : forall (i a : nat) (m : mstate),
  match jobs d true n i a m with
  | LoopDone _ m' => clock m <= clock m'
  | LoopReturn code _ => code = 0%Z
  | LoopBreak _ _ => True
  | LoopRunning _ _ => False
  end.
Proof.
  induction n as [|n IH]; intros i a m; [cbn; lia|]. cbn [jobs].
  assert (Hnext : forall a0 m0, clock m <= clock m0 ->
            match jobs d true n (S i) a0 m0 with
            | LoopDone _ m' => clock m <= clock m'
            | LoopReturn code _ => code = 0%Z
            | LoopBreak _ _ => True
            | LoopRunning _ _ => False
            end).
  { intros a0 m0 H0. pose proof (IH (S i) a0 m0) as H.
    destruct (jobs d true n (S i) a0 m0); try exact H. lia. }
  pose proof (job_try_clock i a m) as Hj.
  destruct (job_try d i a m) as [a' m'|a' m'|code m'|msg m'].
  - cbv zeta. unfold stop_requested.
    destruct (stop_is_set d _); [exact I|]. apply Hnext. cbn. lia.
  - apply Hnext, Hj.
  - exact Hj.
  - cbv zeta. unfold stop_requested.
    destruct (stop_is_set d _); [exact I|]. apply Hnext. cbn. lia.
Qed.

Lemma rounds_stop (t0 : nat) :
  (forall t, t0 <= t -> stop_is_set d t = true) ->
  forall (fuel a : nat) (m : mstate),
    t0 - clock m < fuel ->
    match rounds d true fuel a m with
    | LoopReturn code _ => code = 0%Z
    | LoopBreak _ _ => True
    | LoopDone _ _ | LoopRunning _ _ => False
    end.
Proof.
  intros Hset. induction fuel as [|fuel IH]; intros a m Ht; [lia|].
  cbn [rounds]. unfold stop_requested.
  destruct (stop_is_set d (clock m)) eqn:Es; [reflexivity|].
  assert (Hlt : clock m < t0).
  { destruct (Nat.lt_ge_cases (clock m) t0) as [H|H]; [exact H|].
    rewrite (Hset _ H) in Es. discriminate. }
  unfold get_job_list_count.
  set (count := match card_count d (clock (tick m)) with
                | Some n => Nat.min n 50
                | None => 0
                end).
  destruct (count =? 0)%nat.
  - set (count' := match card_count d (clock (tick (tick m))) with
                   | Some n => Nat.min n 50
                   | None => 0
                   end).
    assert (Hrec : forall a0 m0, clock m < clock m0 ->
              match rounds d true fuel a0 m0 with
              | LoopReturn code _ => code = 0%Z
              | LoopBreak _ _ => True
              | LoopDone _ _ | LoopRunning _ _ => False
              end) by (intros a0 m0 H0; apply IH; lia).
    destruct (count' =? 0)%nat; [apply Hrec; cbn; lia|].
    pose proof (jobs_clock count' 0 a (tick (tick (tick m)))) as Hj.
    destruct (jobs d true count' 0 a (tick (tick (tick m)))) as [a' m'|a' m'|c m'|a' m'];
      try exact Hj.
    destruct (stop_is_set d (clock m')); [exact I|]. apply Hrec. cbn in *. lia.
  - assert (Hrec : forall a0 m0, clock m < clock m0 ->
              match rounds d true fuel a0 m0 with
              | LoopReturn code _ => code = 0%Z
              | LoopBreak _ _ => True
              | LoopDone _ _ | LoopRunning _ _ => False
              end) by (intros a0 m0 H0; apply IH; lia).
    destruct (count =? 0)%nat; [apply Hrec; cbn; lia|].
    pose proof (jobs_clock count 0 a (tick (tick m))) as Hj.
    destruct (jobs d true count 0 a (tick (tick m))) as [a' m'|a' m'|c m'|a' m'];
      try exact Hj.
    destruct (stop_is_set d (clock m')); [exact I|]. apply Hrec. cbn in *. lia.
Qed.

(** X26.  A stop request ends the run: when the stop event is set from the time
    [t0] on, a run that has started returns with exit code 0 within [t0 + 1]
    rounds of its loop, whatever the pages show. *)
Theorem stop_request_ends_the_run (t0 fuel : nat) (st : option run_state) :
  startup_error d = None ->
  goto_search d = true ->
  (forall t, t0 <= t -> stop_is_set d t = true) ->
  t0 < fuel ->
  exists m, main d true fuel st = Exit 0 m.
Proof.
  intros Hstart Hgoto Hset Hfuel. unfold main. rewrite Hstart, Hgoto. cbn [negb].
  match goal with |- context [rounds d true fuel 0 ?m0] =>
    pose proof (rounds_stop t0 Hset fuel 0 m0) as Hr;
    destruct (rounds d true fuel 0 m0) as [a m1|a m1|c m1|a m1]
  end.
  - exfalso. apply Hr. cbn. lia.
  - eexists. reflexivity.
  - rewrite Hr by (cbn; lia). eexists. reflexivity.
  - exfalso. apply Hr. cbn. lia.
Qed.

End StopFacts.

Lemma stop_request_ends_the_run_witness :
  exists m,
    Main.main
      {| Main.startup_error := None;
         Main.goto_search := true;
         Main.card_count := fun _ => Some 3;
         Main.select_card := fun _ _ => true;
         Main.click_apply := fun _ => true;
         Main.fill_contact := fun _ => Main.Filled true;
         Main.body_text := fun _ => Some (py "offres d'emploi");
         Main.stop_is_set := fun t => (4 <=? t)%nat |}
      true 5 None
    = Main.Exit 0 m.
Proof.
  apply (stop_request_ends_the_run _ 4 5 None); try reflexivity; [|lia].
  intros t Ht. change ((4 <=? t)%nat = true). apply Nat.leb_le, Ht.
Defined.

(** ** Runs under interruption *)

Section SignalFacts.

Import Main MainSignals.

Variable d : driver.
Variable has_stop_event : bool.
Variable signal_at : nat -> option signal.

(** *** The rules of [spec] *)

Lemma spec_ret {A : Type} (a : A) (P : istate -> Prop) Q R :
  (forall m, P m -> Q a m) -> spec P (ret a) Q R.
Proof. intros H m Hm. apply H, Hm. Qed.

Lemma spec_bind {A B : Type} (c : act A) (f : A -> act B) (P : istate -> Prop) Q Q' R :
  spec P c Q R -> (forall a, spec (Q a) (f a) Q' R) -> spec P (bind c f) Q' R.
Proof.
  intros Hc Hf m Hm. unfold bind. specialize (Hc m Hm).
  destruct (c m) as [a m'|s m']; [exact (Hf a m' Hc) | exact Hc].
Qed.

Lemma spec_post {A : Type} (c : act A) (P : istate -> Prop) (Q Q' : A -> istate -> Prop) R :
  spec P c Q R -> (forall a m, Q a m -> Q' a m) -> spec P c Q' R.
Proof.
  intros Hc H m Hm. specialize (Hc m Hm).
  destruct (c m) as [a m'|s m']; [exact (H a m' Hc) | exact Hc].
Qed.

Lemma spec_pre {A : Type} (c : act A) (P P' : istate -> Prop) (Q : A -> istate -> Prop) R :
  spec P c Q R -> (forall m, P' m -> P m) -> spec P' c Q R.
Proof. intros Hc H m Hm. exact (Hc m (H m Hm)). Qed.

(** *** The calls of the loop *)

Lemma unreported_tick (b : mstate) : unreported b -> unreported (tick b).
Proof. intros H s Hs. exact (H s Hs). Qed.

Lemma unreported_log (ev : event) (b : mstate) : unreported b -> unreported (log ev b).
Proof. intros H s Hs. exact (H s Hs). Qed.

Lemma unreported_applied (n : nat) (b : mstate) :
  unreported b -> unreported (update (set_applied_count n) b).
Proof.
  intros H s Hs. cbn in Hs. destruct (state b) as [s0|] eqn:E; [|discriminate].
  injection Hs as <-. exact (H s0 E).
Qed.

Lemma await_steady :
  spec (steady signal_at) (await signal_at) (fun _ => steady signal_at)
       (interrupted signal_at).
Proof.
  intros m [Hu Hr]. unfold await. destruct (signal_at (awaits m)) as [s|] eqn:E.
  - split; [|exact Hr]. exists (awaits m). split; [reflexivity | exact E].
  - split; [|exact Hr]. intros k Hk. cbn in Hk.
    destruct (Nat.eq_dec k (awaits m)) as [->|Hne]; [exact E | apply Hu; lia].
Qed.

Lemma effect_steady (f : mstate -> mstate) :
  (forall b, unreported b -> unreported (f b)) ->
  spec (steady signal_at) (effect f) (fun _ => steady signal_at) (interrupted signal_at).
Proof. intros H m [Hu Hr]. split; [exact Hu | exact (H _ Hr)]. Qed.

Lemma lift_steady {A : Type} (f : mstate -> A * mstate) (Q : A -> Prop) :
  (forall b, unreported b -> unreported (snd (f b)) /\ Q (fst (f b))) ->
  spec (steady signal_at) (lift f) (fun a m => steady signal_at m /\ Q a) (interrupted signal_at).
Proof.
  intros H m [Hu Hr]. unfold lift. specialize (H (base m) Hr).
  destruct (f (base m)) as [a b]. cbn in H. destruct H as [H1 H2].
  split; [split; [exact Hu | exact H1] | exact H2].
Qed.

Lemma awaited_steady {A : Type} (f : mstate -> A * mstate) :
  (forall b, unreported b -> unreported (snd (f b))) ->
  spec (steady signal_at) (awaited signal_at f) (fun _ => steady signal_at)
       (interrupted signal_at).
Proof.
  intros H. unfold awaited. eapply spec_bind; [apply await_steady | intros ?].
  eapply spec_post; [apply (lift_steady f (fun _ => True)) | intros x m [Hm _]; exact Hm].
  intros b Hb. split; [exact (H b Hb) | exact I].
Qed.

Lemma logged_steady (ev : event) :
  spec (steady signal_at) (bind (await signal_at) (fun _ => effect (log ev)))
       (fun _ => steady signal_at) (interrupted signal_at).
Proof.
  eapply spec_bind; [apply await_steady | intros ?].
  apply effect_steady. intros b. apply unreported_log.
Qed.

Lemma page_limit_steady :
  spec (steady signal_at) (MainSignals.page_has_daily_limit_message d signal_at)
       (fun _ => steady signal_at) (interrupted signal_at).
Proof. apply awaited_steady. intros b. apply unreported_tick. Qed.

Lemma count_steady :
  spec (steady signal_at) (MainSignals.get_job_list_count d signal_at)
       (fun _ => steady signal_at) (interrupted signal_at).
Proof. apply awaited_steady. intros b. apply unreported_tick. Qed.

Lemma stop_steady :
  spec (steady signal_at) (MainSignals.stop_requested d has_stop_event)
       (fun stop m => steady signal_at m /\ (stop = true -> stop_was_set d has_stop_event))
       (interrupted signal_at).
Proof.
  apply lift_steady. intros b Hb. unfold Main.stop_requested, stop_was_set.
  destruct has_stop_event; cbn [fst snd].
  - split; [exact (unreported_tick _ Hb)|]. intros H. split; [reflexivity|].
    now exists (clock b).
  - split; [exact Hb | discriminate].
Qed.

Lemma limit_detected_now (b : mstate) : limit_detected (log (EvDailyLimit (state b)) b).
Proof. exists (state b). cbn. apply in_or_app. right. now left. Qed.

Lemma limit_detected_later (ev : event) (b : mstate) :
  limit_detected b -> limit_detected (log ev b).
Proof. intros [snap H]. exists snap. cbn. apply in_or_app. now left. Qed.

Lemma daily_limit_stop_spec (close_modal : bool) :
  spec (steady signal_at) (MainSignals.daily_limit_stop signal_at close_modal)
       (fun e m => steady signal_at m /\ e = Return 0 /\ limit_detected (base m))
       (interrupted signal_at).
Proof.
  intros m [Hu Hr]. unfold MainSignals.daily_limit_stop, bind, effect, ret, on_base.
  cbn [base awaits]. destruct close_modal.
  - unfold close_easy_apply_modal, bind, await, effect, on_base. cbn [base awaits].
    destruct (signal_at (awaits m)) as [s|] eqn:E.
    + split; [now exists (awaits m) | now apply unreported_log].
    + split; [split|split; [reflexivity|]].
      * intros k Hk. cbn in Hk.
        destruct (Nat.eq_dec k (awaits m)) as [->|Hne]; [exact E | apply Hu; lia].
      * now repeat apply unreported_log.
      * do 2 apply limit_detected_later. apply limit_detected_now.
  - split; [split; [exact Hu | now repeat apply unreported_log]|].
    split; [reflexivity|]. apply limit_detected_later, limit_detected_now.
Qed.

Lemma job_try_spec (i a : nat) :
  spec (steady signal_at) (MainSignals.job_try d signal_at i a)
       (fun e m => steady signal_at m
                   /\ forall code, e = Return code ->
                                   code = 0%Z /\ limit_detected (base m))
       (interrupted signal_at).
Proof.
  assert (Hstop : forall c,
            spec (steady signal_at) (MainSignals.daily_limit_stop signal_at c)
              (fun e m => steady signal_at m
                          /\ forall code, e = Return code ->
                                          code = 0%Z /\ limit_detected (base m))
              (interrupted signal_at)).
  { intros c. eapply spec_post; [apply daily_limit_stop_spec|].
    intros e m (H1 & -> & H3). split; [exact H1|]. intros code [= <-]. now split. }
  assert (Hret : forall e, (forall code, e <> Return code) ->
            spec (steady signal_at) (ret e)
              (fun e m => steady signal_at m
                          /\ forall code, e = Return code ->
                                          code = 0%Z /\ limit_detected (base m))
              (interrupted signal_at)).
  { intros e He. apply spec_ret. intros m Hm. split; [exact Hm|].
    intros code Hc. now destruct (He code). }
  unfold MainSignals.job_try.
  eapply spec_bind; [apply awaited_steady; intros b; apply unreported_tick|].
  intros selected. destruct selected; cbn [negb]; [|apply Hret; discriminate].
  eapply spec_bind; [apply page_limit_steady | intros limit].
  destruct limit; [apply Hstop|].
  eapply spec_bind; [apply awaited_steady; intros b; apply unreported_tick|].
  intros clicked. destruct clicked; cbn [negb].
  2:{ eapply spec_bind; [apply logged_steady | intros ?]. apply Hret. discriminate. }
  eapply spec_bind; [apply page_limit_steady | intros limit].
  destruct limit; [apply Hstop|].
  eapply spec_bind; [apply awaited_steady; intros b; apply unreported_tick|].
  intros [applied|msg]; [|apply Hret; discriminate].
  eapply spec_bind; [apply page_limit_steady | intros limit].
  destruct limit; [apply Hstop|].
  destruct applied.
  - eapply spec_bind; [apply effect_steady; intros b; apply unreported_applied | intros ?].
    apply Hret. discriminate.
  - eapply spec_bind; [apply logged_steady | intros ?]. apply Hret. discriminate.
Qed.

(** A [return] from inside the [for] loop follows the daily-limit message,
    a [break] a stop request. *)
Lemma jobs_spec (n : nat) : forall i a,
  spec (steady signal_at) (MainSignals.jobs d has_stop_event signal_at n i a)
       (fun e m => steady signal_at m
                   /\ match e with
                      | Returned code => code = 0%Z /\ limit_detected (base m)
                      | Break _ => stop_was_set d has_stop_event
                      | Exhausted _ | Looping _ => True
                      end)
       (interrupted signal_at).
Proof.
  induction n as [|n IH]; intros i a; cbn [MainSignals.jobs].
  { apply spec_ret. intros m Hm. now split. }
  assert (Hafter : forall a0,
            spec (steady signal_at)
              (bind (wait_for_easy_apply_modal_closed signal_at)
                 (fun _ => bind (sleep signal_at)
                    (fun _ => bind (MainSignals.stop_requested d has_stop_event)
                       (fun stop => if stop then ret (Break a0)
                                    else MainSignals.jobs d has_stop_event signal_at
                                           n (S i) a0))))
              (fun e m => steady signal_at m
                          /\ match e with
                             | Returned code => code = 0%Z /\ limit_detected (base m)
                             | Break _ => stop_was_set d has_stop_event
                             | Exhausted _ | Looping _ => True
                             end)
              (interrupted signal_at)).
  { intros a0. eapply spec_bind; [apply logged_steady | intros ?].
    eapply spec_bind; [apply await_steady | intros ?].
    eapply spec_bind; [apply stop_steady | intros stop].
    destruct stop.
    - apply spec_ret. intros m [Hm Hs]. split; [exact Hm | now apply Hs].
    - eapply spec_pre; [apply IH | intros m [Hm _]; exact Hm]. }
  eapply spec_bind; [apply job_try_spec | intros e].
  destruct e as [a'|a'|code|msg].
  - eapply spec_pre; [apply Hafter | intros m [Hm _]; exact Hm].
  - eapply spec_pre; [apply IH | intros m [Hm _]; exact Hm].
  - apply spec_ret. intros m [Hm Hc]. split; [exact Hm | exact (Hc code eq_refl)].
  - eapply spec_bind; [eapply spec_pre; [apply logged_steady|intros m [Hm _]; exact Hm]|].
    intros ?. apply Hafter.
Qed.

(** The [while] loop is left by a [return] or a [break] only. *)
Lemma rounds_spec (fuel : nat) : forall a,
  spec (steady signal_at) (MainSignals.rounds d has_stop_event signal_at fuel a)
       (fun e m => steady signal_at m
                   /\ match e with
                      | Returned code =>
                          code = 0%Z
                          /\ (limit_detected (base m) \/ stop_was_set d has_stop_event)
                      | Break _ => stop_was_set d has_stop_event
                      | Exhausted _ => False
                      | Looping _ => True
                      end)
       (interrupted signal_at).
Proof.
  induction fuel as [|fuel IH]; intros a; cbn [MainSignals.rounds].
  { apply spec_ret. intros m Hm. now split. }
  eapply spec_bind; [apply stop_steady | intros stop].
  destruct stop.
  { apply spec_ret. intros m [Hm Hs]. split; [exact Hm|]. split; [reflexivity|].
    right. now apply Hs. }
  eapply spec_bind; [eapply spec_pre; [apply count_steady | intros m [Hm _]; exact Hm]|].
  intros count.
  eapply spec_bind with (Q := fun _ => (steady signal_at)).
  { destruct (count =? 0)%nat.
    - eapply spec_bind; [apply await_steady | intros ?].
      eapply spec_bind; [apply await_steady | intros ?]. apply count_steady.
    - apply spec_ret. now intros m Hm. }
  intros count'. destruct (count' =? 0)%nat.
  { eapply spec_bind; [apply await_steady | intros ?]. apply IH. }
  eapply spec_bind; [apply jobs_spec | intros e].
  destruct e as [a'|a'|code|a'].
  - eapply spec_bind; [eapply spec_pre; [apply stop_steady | intros m [Hm _]; exact Hm]|].
    intros stop. destruct stop.
    + apply spec_ret. intros m [Hm Hs]. split; [exact Hm | now apply Hs].
    + eapply spec_bind; [eapply spec_pre; [apply await_steady | intros m [Hm _]; exact Hm]|].
      intros ?. eapply spec_bind; [apply await_steady | intros ?]. apply IH.
  - apply spec_ret. intros m [Hm Hs]. now split.
  - apply spec_ret. intros m [Hm [Hc Hl]]. split; [exact Hm|]. split; [exact Hc | now left].
  - apply spec_ret. intros m [Hm _]. now split.
Qed.

Lemma inner_spec (fuel : nat) :
  spec (steady signal_at) (inner d has_stop_event signal_at fuel)
       (fun r m => steady signal_at m
                   /\ forall code, r = Some code ->
                        code = (if goto_search d then 0 else 1)%Z
                        /\ (goto_search d = false \/ limit_detected (base m)
                            \/ stop_was_set d has_stop_event))
       (interrupted signal_at).
Proof.
  unfold inner. eapply spec_bind; [apply await_steady | intros ?].
  destruct (goto_search d); cbn [negb].
  2:{ apply spec_ret. intros m Hm. split; [exact Hm|]. intros code [= <-].
      split; [reflexivity | now left]. }
  eapply spec_bind; [apply rounds_spec | intros e].
  destruct e as [a'|a'|code|a']; apply spec_ret; intros m [Hm He];
    (split; [exact Hm|]); intros c Hc; try discriminate.
  - contradiction.
  - injection Hc as <-. split; [reflexivity | right; now right].
  - injection Hc as <-. destruct He as [-> He]. split; [reflexivity | right; exact He].
Qed.

(** *** The handlers of [main] *)

Lemma raised_arrived (s : signal) (m : istate) : raised_at signal_at s m ->
  arrived signal_at s m.
Proof. intros (k & Hk & Hs). exists k. split; [lia | exact Hs]. Qed.

Lemma arrived_later (s : signal) (m m' : istate) :
  awaits m <= awaits m' -> arrived signal_at s m -> arrived signal_at s m'.
Proof. intros Hle (k & Hk & Hs). exists k. split; [lia | exact Hs]. Qed.

Lemma unwind_after (s : signal) (m : istate) :
  arrived signal_at s m -> unreported (base m) -> after_signal signal_at (unwind s m).
Proof.
  intros Ha Hr.
  assert (Hc : forall s0, state (base (on_base (update (set_running false)) m)) = Some s0 ->
                          running s0 = false /\ error s0 = None).
  { intros s0 Hs. cbn in Hs. destruct (state (base m)) as [s1|] eqn:E; [|discriminate].
    injection Hs as <-. destruct (Hr s1 E) as [_ He]. now split. }
  destruct s; cbn.
  - split; [reflexivity|]. split; [exact Ha | exact Hc].
  - split; [exact Ha | exact Hc].
Qed.

(** Closing the context while a signal is on its way. *)
Lemma close_context_interrupted (s : signal) (m : istate) :
  interrupted signal_at s m ->
  after_signal signal_at
    (match close_context signal_at m with
     | Ok _ m' => unwind s m'
     | Raised s' m' => unwind s' m'
     end).
Proof.
  intros [Hs Hr]. unfold close_context, bind, await, effect, on_base. cbn [base awaits].
  destruct (signal_at (awaits m)) as [s'|] eqn:E.
  - apply unwind_after; [|exact Hr]. exists (awaits m). split; [cbn; lia | exact E].
  - apply unwind_after; [|now apply unreported_log].
    apply (arrived_later s m); [cbn; lia | now apply raised_arrived].
Qed.

(** How [main] ends: on a signal, or undisturbed for one of its own
    reasons. *)
Lemma main_outcome (fuel : nat) (st : option run_state) :
  after_signal signal_at (MainSignals.main d has_stop_event signal_at fuel st)
  \/ match MainSignals.main d has_stop_event signal_at fuel st with
     | Returns code m =>
         undisturbed signal_at m
         /\ code = (match startup_error d with
                    | Some _ => 1
                    | None => if goto_search d then 0 else 1
                    end)%Z
         /\ (forall s, state (base m) = Some s ->
                       running s = false /\ error s = startup_error d)
         /\ (startup_error d <> None \/ goto_search d = false
             \/ limit_detected (base m) \/ stop_was_set d has_stop_event)
     | Cancelled _ => False
     | InLoop m => steady signal_at m
     end.
Proof.
  unfold MainSignals.main.
  set (m0 := {| base := _; awaits := 0 |}).
  assert (H0 : steady signal_at m0).
  { split; [intros k Hk; cbn in Hk; lia|]. intros s Hs. cbn in Hs.
    destruct st; [|discriminate]. now injection Hs as <-. }
  pose proof (await_steady m0 H0) as H1.
  destruct (await signal_at m0) as [[] m1|s m1].
  2:{ left. destruct H1 as [Hs Hr]. apply unwind_after; [|exact Hr].
      now apply raised_arrived. }
  destruct (startup_error d) as [msg|] eqn:Es.
  { right. destruct H1 as [Hu Hr]. split; [exact Hu|]. split; [reflexivity|]. split.
    - intros s Hs. cbn in Hs. destruct (state (base m1)) as [s1|]; [|discriminate].
      now injection Hs as <-.
    - left. discriminate. }
  pose proof (inner_spec fuel m1 H1) as H2.
  destruct (inner d has_stop_event signal_at fuel m1) as [[code|] m2|s m2].
  - destruct H2 as [[Hu Hr] Hc]. destruct (Hc code eq_refl) as [-> Hwhy].
    unfold close_context, bind, await, effect, on_base. cbn [base awaits].
    destruct (signal_at (awaits m2)) as [s'|] eqn:E.
    + left. apply unwind_after; [|exact Hr]. exists (awaits m2). split; [cbn; lia | exact E].
    + right. split; [|split; [reflexivity|split]].
      * intros k Hk. cbn in Hk.
        destruct (Nat.eq_dec k (awaits m2)) as [->|Hne]; [exact E | apply Hu; lia].
      * intros s Hs. cbn in Hs. destruct (state (base m2)) as [s1|] eqn:E2; [|discriminate].
        injection Hs as <-. destruct (Hr s1 E2) as [_ He]. now split.
      * right. destruct Hwhy as [Hw|[Hw|Hw]]; [now left | right; left | right; now right].
        destruct Hw as [snap Hw]. exists snap. cbn. apply in_or_app. now left.
  - right. exact (proj1 H2).
  - left. now apply close_context_interrupted.
Qed.

(** X11.  When [main] returns or is cancelled, the flag [running] is cleared.
    After a keyboard interrupt the exit code is 130 and no error is recorded;
    a cancellation leaves [main] and no error is recorded either; when no
    signal has arrived, the exit code is 1 if starting the browser raised or
    the search page did not load, and 0 otherwise, and the error of the run
    state is the startup exception, so that a failed navigation leaves no
    error behind. *)
Theorem main_exit_report (fuel : nat) (st : option run_state) :
  match MainSignals.main d has_stop_event signal_at fuel st with
  | Returns code m =>
      (forall s, state (base m) = Some s -> running s = false)
      /\ (code = 130%Z /\ arrived signal_at KeyboardInterrupt m
          /\ (forall s, state (base m) = Some s -> error s = None)
          \/ code = (match startup_error d with
                     | Some _ => 1
                     | None => if goto_search d then 0 else 1
                     end)%Z
             /\ undisturbed signal_at m
             /\ (forall s, state (base m) = Some s -> error s = startup_error d))
  | Cancelled m =>
      arrived signal_at CancelledError m
      /\ forall s, state (base m) = Some s -> running s = false /\ error s = None
  | InLoop m =>
      undisturbed signal_at m
      /\ forall s, state (base m) = Some s -> running s = true /\ error s = None
  end.
Proof.
  pose proof (main_outcome fuel st) as H.
  destruct (MainSignals.main d has_stop_event signal_at fuel st) as [code m|m|m].
  - destruct H as [(Hc & Ha & Hs)|(Hu & Hc & Hs & _)].
    + split; [intros s E; exact (proj1 (Hs s E))|]. left.
      split; [exact Hc|]. split; [exact Ha|]. intros s E. exact (proj2 (Hs s E)).
    + split; [intros s E; exact (proj1 (Hs s E))|]. right.
      split; [exact Hc|]. split; [exact Hu|]. intros s E. exact (proj2 (Hs s E)).
  - destruct H as [H|[]]. exact H.
  - destruct H as [[]|H]. exact H.
Qed.

(** X22.  [main] never returns by itself.  When it has returned, the browser
    did not start, or the search page did not load, or the daily-limit message
    was detected, or a stop event was passed and set, or a keyboard interrupt
    arrived; an empty job list or a failed application never ends the run. *)
Theorem main_returns_only_for_a_reason
  (fuel : nat) (st : option run_state) (code : Z) (m : istate) :
  MainSignals.main d has_stop_event signal_at fuel st = Returns code m ->
  startup_error d <> None \/ goto_search d = false
  \/ limit_detected (base m) \/ stop_was_set d has_stop_event
  \/ arrived signal_at KeyboardInterrupt m.
Proof.
  intros E. pose proof (main_outcome fuel st) as H. rewrite E in H.
  destruct H as [(_ & Ha & _)|(_ & _ & _ & Hw)].
  - now repeat right.
  - destruct Hw as [Hw|[Hw|[Hw|Hw]]]; auto.
Qed.

End SignalFacts.

Lemma main_exit_report_witness :
  let st := Some {| Main.running := false; Main.applied_count := 3;
                    Main.error := Some (py "old error") |} in
  (exists m,
     MainSignals.main search_never_loads true MainSignals.no_signal 5 st
     = MainSignals.Returns 1 m
     /\ Main.state (MainSignals.base m)
        = Some {| Main.running := false; Main.applied_count := 0; Main.error := None |})
  /\ (exists m,
        MainSignals.main search_never_loads true interrupt_at_third 5 st
        = MainSignals.Returns 130 m
        /\ forall s, Main.state (MainSignals.base m) = Some s -> Main.running s = false).
Proof.
  intros st. split.
  - eexists. split; [vm_compute; reflexivity|].
    pose proof (main_exit_report search_never_loads true MainSignals.no_signal 5 st) as H.
    reflexivity.
  - eexists. split; [vm_compute; reflexivity|].
    pose proof (main_exit_report search_never_loads true interrupt_at_third 5 st) as H.
    vm_compute in H. exact (proj1 H).
Defined.

Lemma main_returns_only_for_a_reason_witness :
  exists m,
    MainSignals.main no_jobs_ever false interrupt_at_third 3 None
    = MainSignals.Returns 130 m
    /\ arrived interrupt_at_third MainSignals.KeyboardInterrupt m.
Proof.
  eexists. split; [vm_compute; reflexivity|].
  destruct (main_returns_only_for_a_reason no_jobs_ever false interrupt_at_third 3 None
              130%Z _ eq_refl) as [H|[H|[H|[H|H]]]].
  - now contradiction H.
  - discriminate H.
  - destruct H as [snap H]. vm_compute in H. repeat destruct H as [H|H]; try discriminate H.
    contradiction.
  - destruct H as [H _]. discriminate H.
  - exact H.
Defined.

(** ** The run without signals *)

Section PlainRuns.

Import Main MainSignals.

Variable d : driver.
Variable has_stop_event : bool.

Ltac run_plain :=
  unfold MainSignals.page_has_daily_limit_message, Main.page_has_daily_limit_message,
    MainSignals.get_job_list_count, Main.get_job_list_count,
    MainSignals.daily_limit_stop, Main.daily_limit_stop,
    wait_for_easy_apply_modal_closed, close_easy_apply_modal, sleep, scroll_job_list,
    awaited, bind, await, lift, effect, ret, on_base, no_signal;
  cbv beta iota delta [base awaits fst snd negb].

Lemma job_try_plain (i a : nat) (m : istate) :
  exists k, MainSignals.job_try d no_signal i a m
   = match Main.job_try d i a (base m) with
     | JobDone a' b => Ok (Done a') {| base := b; awaits := k |}
     | JobContinue a' b => Ok (Continue a') {| base := b; awaits := k |}
     | JobReturn c b => Ok (Return c) {| base := b; awaits := k |}
     | JobRaises msg b => Ok (Raises msg) {| base := b; awaits := k |}
     end.
Proof.
  unfold MainSignals.job_try, Main.job_try. run_plain.
  destruct (select_card d _ i); run_plain; [|eexists; reflexivity].
  match goal with |- context [if ?c then Main.JobReturn _ _ else _] => destruct c end;
    run_plain; [eexists; reflexivity|].
  destruct (click_apply d _); run_plain; [|eexists; reflexivity].
  match goal with |- context [if ?c then Main.JobReturn _ _ else _] => destruct c end;
    run_plain; [eexists; reflexivity|].
  destruct (fill_contact d _) as [applied|msg]; run_plain; [|eexists; reflexivity].
  match goal with |- context [if ?c then Main.JobReturn _ _ else _] => destruct c end;
    run_plain; [eexists; reflexivity|].
  destruct applied; eexists; reflexivity.
Qed.

Lemma jobs_plain (n : nat) : forall (i a : nat) (m : istate),
  exists k, MainSignals.jobs d has_stop_event no_signal n i a m
   = match Main.jobs d has_stop_event n i a (base m) with
     | LoopDone a' b => Ok (Exhausted a') {| base := b; awaits := k |}
     | LoopBreak a' b => Ok (Break a') {| base := b; awaits := k |}
     | LoopReturn c b => Ok (Returned c) {| base := b; awaits := k |}
     | LoopRunning a' b => Ok (Looping a') {| base := b; awaits := k |}
     end.
Proof.
  induction n as [|n IH]; intros i a m; [exists (awaits m); now destruct m|].
  cbn [MainSignals.jobs Main.jobs]. unfold bind at 1.
  destruct (job_try_plain i a m) as [k E]. rewrite E. clear E.
  assert (Hafter : forall a0 b0 k0,
            exists k1,
              bind (wait_for_easy_apply_modal_closed no_signal)
                (fun _ => bind (sleep no_signal)
                   (fun _ => bind (MainSignals.stop_requested d has_stop_event)
                      (fun stop => if stop then ret (Break a0)
                                   else MainSignals.jobs d has_stop_event no_signal
                                          n (S i) a0)))
                {| base := b0; awaits := k0 |}
              = match (let m1 := log EvWaitClosed b0 in
                       let '(stop, m2) := Main.stop_requested d has_stop_event m1 in
                       if stop then LoopBreak a0 m2
                       else Main.jobs d has_stop_event n (S i) a0 m2) with
                | LoopDone a' b => Ok (Exhausted a') {| base := b; awaits := k1 |}
                | LoopBreak a' b => Ok (Break a') {| base := b; awaits := k1 |}
                | LoopReturn c b => Ok (Returned c) {| base := b; awaits := k1 |}
                | LoopRunning a' b => Ok (Looping a') {| base := b; awaits := k1 |}
                end).
  { intros a0 b0 k0. unfold MainSignals.stop_requested. run_plain.
    destruct (Main.stop_requested d has_stop_event (log EvWaitClosed b0)) as [stop b1].
    destruct stop; [eexists; reflexivity|].
    exact (IH (S i) a0 {| base := b1; awaits := S (S k0) |}). }
  destruct (Main.job_try d i a (base m)) as [a' b|a' b|c b|msg b].
  - apply Hafter.
  - exact (IH (S i) a' {| base := b; awaits := k |}).
  - eexists. reflexivity.
  - unfold bind at 1. run_plain. apply Hafter.
Qed.

Lemma bind_bind {A B C : Type} (c : act A) (f : A -> act B) (g : B -> act C) (m : istate) :
  bind (bind c f) g m = bind c (fun a => bind (f a) g) m.
Proof. unfold bind. now destruct (c m). Qed.

Lemma bind_ret {A B : Type} (a : A) (f : A -> act B) (m : istate) : bind (ret a) f m = f a m.
Proof. reflexivity. Qed.

Lemma bind_await {B : Type} (f : unit -> act B) (b : mstate) (k : nat) :
  bind (await no_signal) f {| base := b; awaits := k |}
  = f tt {| base := b; awaits := S k |}.
Proof. reflexivity. Qed.

Lemma bind_lift {A B : Type} (g : mstate -> A * mstate) (f : A -> act B)
  (b : mstate) (k : nat) :
  bind (lift g) f {| base := b; awaits := k |}
  = f (fst (g b)) {| base := snd (g b); awaits := k |}.
Proof. unfold bind, lift. cbn [base awaits]. now destruct (g b). Qed.

Lemma bind_count {B : Type} (f : nat -> act B) (b : mstate) (k : nat) :
  bind (MainSignals.get_job_list_count d no_signal) f {| base := b; awaits := k |}
  = f (fst (Main.get_job_list_count d b))
      {| base := snd (Main.get_job_list_count d b); awaits := S k |}.
Proof.
  unfold MainSignals.get_job_list_count, awaited. now rewrite bind_bind, bind_await, bind_lift.
Qed.

Lemma rounds_plain (fuel : nat) : forall (a : nat) (m : istate),
  exists k, MainSignals.rounds d has_stop_event no_signal fuel a m
   = match Main.rounds d has_stop_event fuel a (base m) with
     | LoopDone a' b => Ok (Exhausted a') {| base := b; awaits := k |}
     | LoopBreak a' b => Ok (Break a') {| base := b; awaits := k |}
     | LoopReturn c b => Ok (Returned c) {| base := b; awaits := k |}
     | LoopRunning a' b => Ok (Looping a') {| base := b; awaits := k |}
     end.
Proof.
  induction fuel as [|fuel IH]; intros a [b0 k0]; [now exists k0|].
  assert (Hrest : forall count b2 k2,
            exists k,
              (if (count =? 0)%nat
               then bind (sleep no_signal)
                      (fun _ => MainSignals.rounds d has_stop_event no_signal fuel a)
               else bind (MainSignals.jobs d has_stop_event no_signal count 0 a)
                      (fun e => match e with
                                | Exhausted a' =>
                                    bind (MainSignals.stop_requested d has_stop_event)
                                      (fun stop =>
                                         if stop then ret (Break a')
                                         else bind (scroll_job_list no_signal)
                                                (fun _ => bind (sleep no_signal)
                                                   (fun _ => MainSignals.rounds d
                                                               has_stop_event no_signal
                                                               fuel a')))
                                | ended => ret ended
                                end))
                {| base := b2; awaits := k2 |}
              = match (if (count =? 0)%nat then Main.rounds d has_stop_event fuel a b2
                       else match Main.jobs d has_stop_event count 0 a b2 with
                            | LoopDone a' m1 =>
                                let '(stop, m2) :=
                                  Main.stop_requested d has_stop_event m1 in
                                if stop then LoopBreak a' m2
                                else Main.rounds d has_stop_event fuel a' m2
                            | ended => ended
                            end) with
                | LoopDone a' b => Ok (Exhausted a') {| base := b; awaits := k |}
                | LoopBreak a' b => Ok (Break a') {| base := b; awaits := k |}
                | LoopReturn c b => Ok (Returned c) {| base := b; awaits := k |}
                | LoopRunning a' b => Ok (Looping a') {| base := b; awaits := k |}
                end).
  { intros count b2 k2. destruct (count =? 0)%nat.
    - unfold sleep. rewrite bind_await.
      exact (IH a {| base := b2; awaits := S k2 |}).
    - unfold bind at 1.
      destruct (jobs_plain count 0 a {| base := b2; awaits := k2 |}) as [k E].
      rewrite E. clear E. cbn [base].
      destruct (Main.jobs d has_stop_event count 0 a b2) as [a' b|a' b|c b|a' b];
        try (eexists; reflexivity).
      unfold MainSignals.stop_requested. rewrite bind_lift.
      destruct (Main.stop_requested d has_stop_event b) as [stop b3]. cbn [fst snd].
      destruct stop; [eexists; reflexivity|].
      unfold scroll_job_list, sleep. rewrite !bind_await.
      exact (IH a' {| base := b3; awaits := S (S k) |}). }
  cbn [MainSignals.rounds Main.rounds base]. unfold MainSignals.stop_requested at 1.
  rewrite bind_lift.
  destruct (Main.stop_requested d has_stop_event b0) as [stop b1]. cbn [fst snd].
  destruct stop; [eexists; reflexivity|].
  rewrite bind_count. unfold Main.get_job_list_count. cbn [fst snd].
  set (count := match card_count d (clock b1) with
                | Some n => Nat.min n 50
                | None => 0
                end).
  destruct (count =? 0)%nat.
  - unfold scroll_job_list at 1, sleep at 1.
    rewrite bind_bind, bind_await, bind_bind, bind_await, bind_count.
    unfold Main.get_job_list_count. cbn [fst snd]. apply Hrest.
  - rewrite bind_ret. apply Hrest.
Qed.

(** [Main.main] is the run of [MainSignals.main] in which no signal
    arrives. *)
Theorem main_without_signals (fuel : nat) (st : option run_state) :
  plain (MainSignals.main d has_stop_event no_signal fuel st)
  = Some (Main.main d has_stop_event fuel st).
Proof.
  unfold MainSignals.main, Main.main, inner.
  change (await no_signal ?m) with (Ok tt {| base := base m; awaits := S (awaits m) |}).
  cbn [base awaits].
  destruct (startup_error d) as [msg|]; [reflexivity|].
  rewrite bind_await.
  destruct (goto_search d); cbn [negb]; [|reflexivity].
  unfold bind at 1.
  match goal with |- context [MainSignals.rounds d has_stop_event _ fuel 0 ?m] =>
    destruct (rounds_plain fuel 0 m) as [k E] end.
  rewrite E. clear E. cbn [base].
  match goal with |- context [Main.rounds d has_stop_event fuel 0 ?m] =>
    destruct (Main.rounds d has_stop_event fuel 0 m) as [a' b|a' b|c b|a' b] end;
    reflexivity.
Qed.
End PlainRuns.
